(** * safe_system: a thread-safe system() for Cygwin

    Shallow embedding of [src/factor/safe_system.c] and the properties of
    its two builds: the Cygwin build (one-time initialisation of a critical
    section, submission of an augmented command under the lock, recovery of
    the spawned task's pid through a pidfile, wait on a Windows handle) and
    the plain build (a direct call of system()).

    Bytes are [ascii], C buffers are [list ascii], machine integers are [Z]
    with their wrap-around written out.  The calls of concurrent threads are
    interleaved one atomic action at a time. *)

From Stdlib Require Import ZArith Lia Ascii String List.

From stdpp Require Import gmap strings list.

(** ** Bytes, C strings and buffers *)

Definition NUL : ascii := "000"%char.

(** A string literal as the bytes it denotes (without terminator). *)
Definition cs (s : string) : list ascii := list_ascii_of_string s.

(** [strlen]: number of bytes before the first NUL.  The end of the modelled
    memory counts as a terminator. *)
Fixpoint strlen (m : list ascii) : nat :=
  match m with
  | [] => 0
  | c :: r => if decide (c = NUL) then 0 else S (strlen r)
  end.

(** The C string held at the start of a buffer. *)
Definition c_str (m : list ascii) : list ascii := take (strlen m) m.

(** Store [data] into buffer [b] from offset [off] on.  Inside the
    allocation this overwrites in place and keeps the length. *)
Definition poke (off : nat) (data b : list ascii) : list ascii :=
  take off b ++ data ++ drop (off + length data) b.

(** ** Machine integers *)

Definition INT_MAX : Z := 2147483647.

Definition INT_MIN : Z := -2147483648.

Definition LONG_MAX : Z := 9223372036854775807.

Definition LONG_MIN : Z := -9223372036854775808.

(** Two's complement wrap-around of a 32-bit [int]. *)
Definition wrap_int (z : Z) : Z := ((z + 2 ^ 31) mod 2 ^ 32 - 2 ^ 31)%Z.

(** Wrap-around of a 64-bit [size_t]. *)
Definition wrap_size (z : Z) : Z := (z mod 2 ^ 64)%Z.

Definition is_int (z : Z) : Prop := (INT_MIN <= z <= INT_MAX)%Z.

(** ** printf's %d *)

Definition digit_char (d : Z) : ascii := ascii_of_nat (48 + Z.to_nat d).

(** Decimal digits of [n], least significant first; [fuel] bounds their
    number. *)
Fixpoint utoa_le (fuel : nat) (n : Z) : list Z :=
  match fuel with
  | O => []
  | S f => (n mod 10)%Z :: (if (n / 10 =? 0)%Z then [] else utoa_le f (n / 10))
  end.

(** An [int] has at most ten decimal digits. *)
Definition utoa (n : Z) : list ascii := map digit_char (rev (utoa_le 10 n)).

Definition fmt_d (v : Z) : list ascii :=
  if (v <? 0)%Z then "-"%char :: utoa (- v) else utoa v.

(** ** atoi

    [atoi(s)] is [(int) strtol(s, NULL, 10)]: white space is skipped, an
    optional sign is read, then decimal digits up to the first other byte.
    A value outside [long] saturates (as in Cygwin's C library) and the
    conversion to [int] wraps. *)

Definition is_digit (c : ascii) : bool :=
  (48 <=? nat_of_ascii c) && (nat_of_ascii c <=? 57).

Definition digit_val (c : ascii) : Z := Z.of_nat (nat_of_ascii c - 48).

Definition isspace (c : ascii) : bool :=
  let n := nat_of_ascii c in (n =? 32) || ((9 <=? n) && (n <=? 13)).

Fixpoint skip_space (s : list ascii) : list ascii :=
  match s with
  | c :: r => if isspace c then skip_space r else s
  | [] => []
  end.

Fixpoint digits_value (acc : Z) (s : list ascii) : Z :=
  match s with
  | c :: r => if is_digit c then digits_value (acc * 10 + digit_val c) r else acc
  | [] => acc
  end.

Definition clamp_long (z : Z) : Z := Z.max LONG_MIN (Z.min LONG_MAX z).

Definition strtol (s : list ascii) : Z :=
  match skip_space s with
  | c :: r =>
      if decide (c = "-"%char) then clamp_long (- digits_value 0 r)
      else if decide (c = "+"%char) then clamp_long (digits_value 0 r)
      else clamp_long (digits_value 0 (c :: r))
  | [] => 0%Z
  end.

Definition atoi (s : list ascii) : Z := wrap_int (strtol s).

(** ** Constants of windows.h and of the source *)

Definition SYNCHRONIZE : Z := 1048576.            (* 0x00100000 *)

Definition INFINITE : Z := 4294967295.            (* 0xFFFFFFFF *)

Definition NULL : Z := 0.

(** [INVALID_HANDLE_VALUE] is [(HANDLE)(LONG_PTR)-1], all 64 bits set. *)
Definition INVALID_HANDLE_VALUE : Z := (2 ^ 64 - 1)%Z.

Definition pidfile_prefix : list ascii := cs "_yafu_system_.".

Definition glue : list ascii := cs " & echo -n $! > ".

Definition PIDFILENAME_SIZE : nat := 64.

Definition READ_MAX : nat := 80.

Definition SLEEP_US : Z := 10000.

(** [alloca(n)]: [n] bytes of stack with whatever the stack held. *)
Definition alloca (n : nat) (junk : list ascii) : list ascii := resize n NUL junk.

(** Size requested for the command buffer, [strlen(cmd) + 128] in [size_t]. *)
Definition buf_size (cmd : list ascii) : nat :=
  Z.to_nat (wrap_size (Z.of_nat (strlen cmd) + 128)).

(** The pidfile name and the augmented command of a call that drew [id]. *)
Definition pidfile_name (id : Z) : list ascii := pidfile_prefix ++ fmt_d id.

Definition augmented (cmd : list ascii) (id : Z) : list ascii :=
  c_str cmd ++ glue ++ pidfile_name id.

Definition diagnostic (command : list ascii) : list ascii :=
  cs "*SYSTEM* >>" ++ command ++ cs "<<" ++ ["010"%char].

(** ** The world outside the function *)

(** A file of the working directory.  [writer] is the call whose submission
    shell wrote it ([None] for a file that was there before). *)
Record File := { writer : option nat; content : list ascii }.

Inductive CritSec :=
| CsRaw                      (* not initialised *)
| CsFree
| CsOwned (owner : nat).

(** The three globals of the source and the working directory. *)
Record Globals := {
  initializing : Z;
  systemcrit : CritSec;
  usecount : Z;
  files : gmap (list ascii) File
}.

(** What the platform answers to the external calls of one step:
    the status returned by system(), what the submission shell wrote into
    the pidfile named in the command ([None]: it created no file), whether
    fopen() may succeed on an existing file, the Windows pid given by
    cygwin_internal(), and the handle opened by OpenProcess() ([None]: the
    open failed, and OpenProcess returns NULL as the Win32 API states). *)
Record Answer := {
  a_status : Z;
  a_shell : option (list ascii);
  a_fopen : bool;
  a_winpid : Z;
  a_handle : option Z
}.

Inductive Event :=
| EvCas (old : Z)
| EvInitCS
| EvFlag (v : Z)
| EvPoll (v : Z)
| EvUsleep (us : Z)
| EvEnter
| EvCount (old new : Z)
| EvStderr (text : list ascii)
| EvSystem (command : list ascii) (status : Z)
| EvLeave
| EvFopen (name : list ascii) (found : option File)
| EvFread (name data : list ascii)
| EvFclose (name : list ascii)
| EvRemove (name : list ascii) (gone : option File)
| EvPidToWinpid (pid winpid : Z)
| EvOpenProcess (access : Z) (inherit : bool) (winpid h : Z)
| EvWait (h timeout : Z)
| EvCloseHandle (h : Z)
| EvReturn (v : Z).

(** ** One call of safe_system (Cygwin build) *)

Inductive Exit := ExNoPidfile | ExNoHandle | ExWaited.

(** Program points; the numbers are source lines. *)
Inductive PC :=
| PCas            (* 54 *)
| PInitCS         (* 55 *)
| PFlagRead       (* 56, load of initializing++ *)
| PFlagWrite      (* 56, store of initializing++ *)
| PPoll           (* 58 *)
| PSleep          (* 59 *)
| PAlloca         (* 63, 66 *)
| PEnter          (* 69 *)
| PCountRead      (* 72, load of usecount++ *)
| PCountWrite     (* 72, store of usecount++ *)
| PFmtName        (* 72, sprintf *)
| PStpcpy         (* 73 *)
| PFmtCmd         (* 75 *)
| PStderr         (* 79 *)
| PSystem         (* 81 *)
| PLeave          (* 82 *)
| PFopen          (* 85-87 *)
| PFread          (* 88 *)
| PFclose         (* 89 *)
| PRemove         (* 90 *)
| PAtoi           (* 91 *)
| PPidToWinpid    (* 96 *)
| POpenProcess    (* 97-99 *)
| PWait           (* 100 *)
| PCloseHandle    (* 101 *)
| PReturn         (* 103 *)
| PDone (how : Exit) (v : Z).

Record Call := {
  pc : PC;
  cmd : list ascii;
  junk_name : list ascii;
  junk_buf : list ascii;
  flag_tmp : Z;
  pidfilename : list ascii;
  buf : list ascii;
  ptr : nat;
  id : Z;
  ret : Z;
  f : option File;
  pid : Z;
  winpid : Z;
  h : Z
}.

Definition set_pc (p : PC) (c : Call) : Call :=
  {| pc := p; cmd := cmd c; junk_name := junk_name c; junk_buf := junk_buf c;
     flag_tmp := flag_tmp c; pidfilename := pidfilename c; buf := buf c;
     ptr := ptr c; id := id c; ret := ret c; f := f c; pid := pid c;
     winpid := winpid c; h := h c |}.

Definition set_flag_tmp (v : Z) (c : Call) : Call :=
  {| pc := pc c; cmd := cmd c; junk_name := junk_name c; junk_buf := junk_buf c;
     flag_tmp := v; pidfilename := pidfilename c; buf := buf c;
     ptr := ptr c; id := id c; ret := ret c; f := f c; pid := pid c;
     winpid := winpid c; h := h c |}.

Definition set_pidfilename (b : list ascii) (c : Call) : Call :=
  {| pc := pc c; cmd := cmd c; junk_name := junk_name c; junk_buf := junk_buf c;
     flag_tmp := flag_tmp c; pidfilename := b; buf := buf c;
     ptr := ptr c; id := id c; ret := ret c; f := f c; pid := pid c;
     winpid := winpid c; h := h c |}.

Definition set_buf (b : list ascii) (c : Call) : Call :=
  {| pc := pc c; cmd := cmd c; junk_name := junk_name c; junk_buf := junk_buf c;
     flag_tmp := flag_tmp c; pidfilename := pidfilename c; buf := b;
     ptr := ptr c; id := id c; ret := ret c; f := f c; pid := pid c;
     winpid := winpid c; h := h c |}.

Definition set_ptr (n : nat) (c : Call) : Call :=
  {| pc := pc c; cmd := cmd c; junk_name := junk_name c; junk_buf := junk_buf c;
     flag_tmp := flag_tmp c; pidfilename := pidfilename c; buf := buf c;
     ptr := n; id := id c; ret := ret c; f := f c; pid := pid c;
     winpid := winpid c; h := h c |}.

Definition set_id (v : Z) (c : Call) : Call :=
  {| pc := pc c; cmd := cmd c; junk_name := junk_name c; junk_buf := junk_buf c;
     flag_tmp := flag_tmp c; pidfilename := pidfilename c; buf := buf c;
     ptr := ptr c; id := v; ret := ret c; f := f c; pid := pid c;
     winpid := winpid c; h := h c |}.

Definition set_ret (v : Z) (c : Call) : Call :=
  {| pc := pc c; cmd := cmd c; junk_name := junk_name c; junk_buf := junk_buf c;
     flag_tmp := flag_tmp c; pidfilename := pidfilename c; buf := buf c;
     ptr := ptr c; id := id c; ret := v; f := f c; pid := pid c;
     winpid := winpid c; h := h c |}.

Definition set_f (o : option File) (c : Call) : Call :=
  {| pc := pc c; cmd := cmd c; junk_name := junk_name c; junk_buf := junk_buf c;
     flag_tmp := flag_tmp c; pidfilename := pidfilename c; buf := buf c;
     ptr := ptr c; id := id c; ret := ret c; f := o; pid := pid c;
     winpid := winpid c; h := h c |}.

Definition set_pid (v : Z) (c : Call) : Call :=
  {| pc := pc c; cmd := cmd c; junk_name := junk_name c; junk_buf := junk_buf c;
     flag_tmp := flag_tmp c; pidfilename := pidfilename c; buf := buf c;
     ptr := ptr c; id := id c; ret := ret c; f := f c; pid := v;
     winpid := winpid c; h := h c |}.

Definition set_winpid (v : Z) (c : Call) : Call :=
  {| pc := pc c; cmd := cmd c; junk_name := junk_name c; junk_buf := junk_buf c;
     flag_tmp := flag_tmp c; pidfilename := pidfilename c; buf := buf c;
     ptr := ptr c; id := id c; ret := ret c; f := f c; pid := pid c;
     winpid := v; h := h c |}.

Definition set_h (v : Z) (c : Call) : Call :=
  {| pc := pc c; cmd := cmd c; junk_name := junk_name c; junk_buf := junk_buf c;
     flag_tmp := flag_tmp c; pidfilename := pidfilename c; buf := buf c;
     ptr := ptr c; id := id c; ret := ret c; f := f c; pid := pid c;
     winpid := winpid c; h := v |}.

Definition set_initializing (v : Z) (g : Globals) : Globals :=
  {| initializing := v; systemcrit := systemcrit g; usecount := usecount g;
     files := files g |}.

Definition set_systemcrit (k : CritSec) (g : Globals) : Globals :=
  {| initializing := initializing g; systemcrit := k; usecount := usecount g;
     files := files g |}.

Definition set_usecount (v : Z) (g : Globals) : Globals :=
  {| initializing := initializing g; systemcrit := systemcrit g; usecount := v;
     files := files g |}.

Definition set_files (m : gmap (list ascii) File) (g : Globals) : Globals :=
  {| initializing := initializing g; systemcrit := systemcrit g;
     usecount := usecount g; files := m |}.

(** A call that has just entered the function. *)
Definition enter_call (cmd junk1 junk2 : list ascii) : Call :=
  {| pc := PCas; cmd := cmd; junk_name := junk1; junk_buf := junk2;
     flag_tmp := 0; pidfilename := []; buf := []; ptr := 0; id := 0; ret := 0;
     f := None; pid := 0; winpid := 0; h := 0 |}.

(** What the submission shell does to the working directory: the redirection
    at the end of the augmented command creates the pidfile and echo writes
    the pid of the background task into it. *)
Definition shell_effect (i : nat) (name : list ascii) (w : option (list ascii))
    (m : gmap (list ascii) File) : gmap (list ascii) File :=
  match w with
  | Some bytes => <[name := {| writer := Some i; content := bytes |}]> m
  | None => m
  end.

(** One atomic action of call [i].  [None]: the call cannot move (it is
    blocked on the critical section, or it has returned). *)
Definition step_call (a : Answer) (i : nat) (g : Globals) (c : Call)
    : option (Globals * Call * list Event) :=
  match pc c with
  | PCas =>
      let old := initializing g in
      if decide (old = 0%Z)
      then Some (set_initializing 1 g, set_pc PInitCS c, [EvCas old])
      else Some (g, set_pc PPoll c, [EvCas old])
  | PInitCS => Some (set_systemcrit CsFree g, set_pc PFlagRead c, [EvInitCS])
  | PFlagRead =>
      Some (g, set_pc PFlagWrite (set_flag_tmp (initializing g) c), [])
  | PFlagWrite =>
      let v := wrap_int (flag_tmp c + 1) in
      Some (set_initializing v g, set_pc PAlloca c, [EvFlag v])
  | PPoll =>
      let v := initializing g in
      if decide (v = 1%Z) then Some (g, set_pc PSleep c, [EvPoll v])
      else Some (g, set_pc PAlloca c, [EvPoll v])
  | PSleep => Some (g, set_pc PPoll c, [EvUsleep SLEEP_US])
  | PAlloca =>
      Some (g, set_pc PEnter
                 (set_buf (alloca (buf_size (cmd c)) (junk_buf c))
                    (set_pidfilename (alloca PIDFILENAME_SIZE (junk_name c)) c)),
            [])
  | PEnter =>
      match systemcrit g with
      | CsFree => Some (set_systemcrit (CsOwned i) g, set_pc PCountRead c, [EvEnter])
      | _ => None
      end
  | PCountRead => Some (g, set_pc PCountWrite (set_id (usecount g) c), [])
  | PCountWrite =>
      (* the increment of an int at INT_MAX wraps, as on x86_64 *)
      let v := wrap_int (id c + 1) in
      Some (set_usecount v g, set_pc PFmtName c, [EvCount (id c) v])
  | PFmtName =>
      Some (g, set_pc PStpcpy
                 (set_pidfilename
                    (poke 0 (pidfile_prefix ++ fmt_d (id c) ++ [NUL]) (pidfilename c)) c),
            [])
  | PStpcpy =>
      Some (g, set_pc PFmtCmd
                 (set_ptr (strlen (cmd c))
                    (set_buf (poke 0 (c_str (cmd c) ++ [NUL]) (buf c)) c)),
            [])
  | PFmtCmd =>
      Some (g, set_pc PStderr
                 (set_buf (poke (ptr c) (glue ++ c_str (pidfilename c) ++ [NUL]) (buf c)) c),
            [])
  | PStderr => Some (g, set_pc PSystem c, [EvStderr (diagnostic (c_str (buf c)))])
  | PSystem =>
      Some (set_files (shell_effect i (c_str (pidfilename c)) (a_shell a) (files g)) g,
            set_pc PLeave (set_ret (a_status a) c),
            [EvSystem (c_str (buf c)) (a_status a)])
  | PLeave => Some (set_systemcrit CsFree g, set_pc PFopen c, [EvLeave])
  | PFopen =>
      let name := c_str (pidfilename c) in
      match files g !! name with
      | Some fl =>
          if a_fopen a
          then Some (g, set_pc PFread (set_f (Some fl) c), [EvFopen name (Some fl)])
          else Some (g, set_pc (PDone ExNoPidfile (-1)) c,
                     [EvFopen name None; EvReturn (-1)])
      | None => Some (g, set_pc (PDone ExNoPidfile (-1)) c,
                      [EvFopen name None; EvReturn (-1)])
      end
  | PFread =>
      match f c with
      | Some fl =>
          let data := take READ_MAX (content fl) in
          Some (g, set_pc PFclose (set_buf (poke 0 data (buf c)) c),
                [EvFread (c_str (pidfilename c)) data])
      | None => None
      end
  | PFclose => Some (g, set_pc PRemove c, [EvFclose (c_str (pidfilename c))])
  | PRemove =>
      let name := c_str (pidfilename c) in
      Some (set_files (delete name (files g)) g, set_pc PAtoi c,
            [EvRemove name (files g !! name)])
  | PAtoi => Some (g, set_pc PPidToWinpid (set_pid (atoi (buf c)) c), [])
  | PPidToWinpid =>
      Some (g, set_pc POpenProcess (set_winpid (a_winpid a) c),
            [EvPidToWinpid (pid c) (a_winpid a)])
  | POpenProcess =>
      let hv := match a_handle a with Some v => v | None => NULL end in
      if decide (hv = INVALID_HANDLE_VALUE)
      then Some (g, set_pc (PDone ExNoHandle (-1)) (set_h hv c),
                 [EvOpenProcess SYNCHRONIZE false (winpid c) hv; EvReturn (-1)])
      else Some (g, set_pc PWait (set_h hv c),
                 [EvOpenProcess SYNCHRONIZE false (winpid c) hv])
  | PWait => Some (g, set_pc PCloseHandle c, [EvWait (h c) INFINITE])
  | PCloseHandle => Some (g, set_pc PReturn c, [EvCloseHandle (h c)])
  | PReturn => Some (g, set_pc (PDone ExWaited (ret c)) c, [EvReturn (ret c)])
  | PDone _ _ => None
  end.

(** ** The plain build (lines 108-112): a direct call of system() *)

Definition safe_system_plain (a : Answer) (g : Globals) (cmd : list ascii)
    : Globals * Z * list Event :=
  (g, a_status a, [EvSystem (c_str cmd) (a_status a); EvReturn (a_status a)]).

(** ** Threads calling the function concurrently *)

Record State := {
  glob : Globals;
  calls : list Call;
  trace : list (nat * Event)
}.

Inductive Action :=
| Spawn (cmd junk1 junk2 : list ascii)     (* a thread enters safe_system *)
| Run (i : nat) (a : Answer).              (* call [i] performs one action *)

Definition exec (act : Action) (s : State) : option State :=
  match act with
  | Spawn cmd j1 j2 =>
      Some {| glob := glob s; calls := calls s ++ [enter_call cmd j1 j2];
              trace := trace s |}
  | Run i a =>
      match calls s !! i with
      | Some c =>
          match step_call a i (glob s) c with
          | Some (g', c', evs) =>
              Some {| glob := g'; calls := <[i := c']> (calls s);
                      trace := trace s ++ map (pair i) evs |}
          | None => None
          end
      | None => None
      end
  end.

Fixpoint run (acts : list Action) (s : State) : option State :=
  match acts with
  | [] => Some s
  | act :: rest =>
      match exec act s with
      | Some s' => run rest s'
      | None => None
      end
  end.

(** A file that was in the working directory before the process started. *)
Definition old_file (bytes : list ascii) : File :=
  {| writer := None; content := bytes |}.

(** Process start: zeroed globals, some working directory, no call yet. *)
Definition initial (dir : gmap (list ascii) (list ascii)) : State :=
  {| glob := {| initializing := 0; systemcrit := CsRaw; usecount := 0;
                files := old_file <$> dir |};
     calls := []; trace := [] |}.

Definition reachable (s : State) : Prop :=
  exists dir acts, run acts (initial dir) = Some s.

(** The events of call [i], in order. *)
Definition events_of (i : nat) (tr : list (nat * Event)) : list Event :=
  map snd (filter (fun p => fst p = i) tr).

(** ** Decimal output and its inverse: definitions *)

(** Value of a digit list, least significant digit first. *)
Definition le_value (l : list Z) : Z := foldr (fun d a => (d + 10 * a)%Z) 0%Z l.

(** ** One call: its locals and its own events at every program point: definitions *)

(** The buffers as lines 63-75 and 88 build them. *)
Definition name_alloc (c : Call) : list ascii := alloca PIDFILENAME_SIZE (junk_name c).

Definition name_buf (c : Call) : list ascii :=
  poke 0 (pidfile_prefix ++ fmt_d (id c) ++ [NUL]) (name_alloc c).

Definition buf_alloc (c : Call) : list ascii := alloca (buf_size (cmd c)) (junk_buf c).

Definition buf_copied (c : Call) : list ascii :=
  poke 0 (c_str (cmd c) ++ [NUL]) (buf_alloc c).

Definition buf_submitted (c : Call) : list ascii :=
  poke (strlen (cmd c)) (glue ++ pidfile_name (id c) ++ [NUL]) (buf_copied c).

Definition data_read (c : Call) : list ascii :=
  match f c with Some fl => take READ_MAX (content fl) | None => [] end.

Definition buf_read (c : Call) : list ascii := poke 0 (data_read c) (buf_submitted c).

(** Events of the election and of the wait for it (lines 54-60). *)
Fixpoint polls (k : nat) : list Event :=
  match k with
  | O => []
  | S k => EvPoll 1 :: EvUsleep SLEEP_US :: polls k
  end.

Definition elected_hist (v : Z) : list Event := [EvCas 0; EvInitCS; EvFlag v].

Definition waiter_hist (v : Z) (k : nat) (w : Z) : list Event :=
  EvCas v :: polls k ++ [EvPoll w].

Definition init_hist (p : PC) (pre : list Event) : Prop :=
  match p with
  | PCas => pre = []
  | PInitCS => pre = [EvCas 0]
  | PFlagRead | PFlagWrite => pre = [EvCas 0; EvInitCS]
  | PPoll => exists v k, v <> 0%Z /\ pre = EvCas v :: polls k
  | PSleep => exists v k, v <> 0%Z /\ pre = waiter_hist v k 1
  | _ => (exists v, pre = elected_hist v)
         \/ (exists v k w, v <> 0%Z /\ w <> 1%Z /\ pre = waiter_hist v k w)
  end.

(** The events of lines 69-103 on the path that reaches the wait. *)
Definition path (c : Call) (gone : option File) : list Event :=
  let name := pidfile_name (id c) in
  let aug := augmented (cmd c) (id c) in
  [ EvEnter; EvCount (id c) (wrap_int (id c + 1)); EvStderr (diagnostic aug);
    EvSystem aug (ret c); EvLeave;
    EvFopen name (f c); EvFread name (data_read c); EvFclose name;
    EvRemove name gone;
    EvPidToWinpid (pid c) (winpid c);
    EvOpenProcess SYNCHRONIZE false (winpid c) (h c);
    EvWait (h c) INFINITE; EvCloseHandle (h c); EvReturn (ret c) ].

(** How many events of [path] a call at a program point has performed. *)
Definition stage (p : PC) : nat :=
  match p with
  | PCas | PInitCS | PFlagRead | PFlagWrite | PPoll | PSleep | PAlloca | PEnter => 0
  | PCountRead | PCountWrite => 1
  | PFmtName | PStpcpy | PFmtCmd | PStderr => 2
  | PSystem => 3
  | PLeave => 4
  | PFopen => 5
  | PFread => 6
  | PFclose => 7
  | PRemove => 8
  | PAtoi | PPidToWinpid => 9
  | POpenProcess => 10
  | PWait => 11
  | PCloseHandle => 12
  | PReturn => 13
  | PDone ExWaited _ => 14
  | PDone ExNoPidfile _ => 5
  | PDone ExNoHandle _ => 11
  end.

Definition body (c : Call) (gone : option File) : list Event :=
  take (stage (pc c)) (path c gone) ++
  match pc c with
  | PDone ExNoPidfile _ => [EvFopen (pidfile_name (id c)) None; EvReturn (-1)]
  | PDone ExNoHandle _ => [EvReturn (-1)]
  | _ => []
  end.

Definition locals_ok (c : Call) : Prop :=
  match pc c with
  | PCas | PInitCS | PFlagRead | PFlagWrite | PPoll | PSleep | PAlloca => True
  | PEnter | PCountRead | PCountWrite | PFmtName =>
      pidfilename c = name_alloc c /\ buf c = buf_alloc c
  | PStpcpy => pidfilename c = name_buf c /\ buf c = buf_alloc c
  | PFmtCmd =>
      pidfilename c = name_buf c /\ buf c = buf_copied c /\ ptr c = strlen (cmd c)
  | PStderr | PSystem | PLeave | PFopen =>
      pidfilename c = name_buf c /\ buf c = buf_submitted c
  | PFread =>
      pidfilename c = name_buf c /\ buf c = buf_submitted c /\ is_Some (f c)
  | PFclose | PRemove | PAtoi =>
      pidfilename c = name_buf c /\ buf c = buf_read c /\ is_Some (f c)
  | PPidToWinpid | POpenProcess =>
      pidfilename c = name_buf c /\ buf c = buf_read c /\ is_Some (f c)
      /\ pid c = atoi (buf_read c)
  | PWait | PCloseHandle | PReturn =>
      pidfilename c = name_buf c /\ buf c = buf_read c /\ is_Some (f c)
      /\ pid c = atoi (buf_read c) /\ h c <> INVALID_HANDLE_VALUE
  | PDone ExNoPidfile v =>
      pidfilename c = name_buf c /\ buf c = buf_submitted c /\ v = (-1)%Z
  | PDone ExNoHandle v =>
      pidfilename c = name_buf c /\ buf c = buf_read c /\ is_Some (f c)
      /\ pid c = atoi (buf_read c) /\ h c = INVALID_HANDLE_VALUE /\ v = (-1)%Z
  | PDone ExWaited v =>
      pidfilename c = name_buf c /\ buf c = buf_read c /\ is_Some (f c)
      /\ pid c = atoi (buf_read c) /\ h c <> INVALID_HANDLE_VALUE /\ v = ret c
  end.

Definition call_inv (c : Call) (hist : list Event) : Prop :=
  locals_ok c /\
  exists pre gone, init_hist (pc c) pre /\ hist = pre ++ body c gone.

(** ** Reachable states: definitions *)

(** The two shapes of a step of the system. *)
Definition spawned (cmd j1 j2 : list ascii) (s : State) : State :=
  {| glob := glob s; calls := calls s ++ [enter_call cmd j1 j2]; trace := trace s |}.

Definition stepped (i : nat) (g' : Globals) (c' : Call) (evs : list Event)
    (s : State) : State :=
  {| glob := g'; calls := <[i := c']> (calls s);
     trace := trace s ++ map (pair i) evs |}.

(** ** One-time initialisation (lines 54-60): definitions *)

Definition electing (p : PC) : bool :=
  match p with PInitCS | PFlagRead | PFlagWrite => true | _ => false end.

(** Program points of lines 54-60. *)
Definition in_init (p : PC) : bool :=
  match p with
  | PCas | PInitCS | PFlagRead | PFlagWrite | PPoll | PSleep => true
  | _ => false
  end.

Definition is_init_cs (e : Event) : bool :=
  match e with EvInitCS => true | _ => false end.

Definition is_cas_won (e : Event) : bool :=
  match e with EvCas v => (v =? 0)%Z | _ => false end.

(** How often an event of some kind occurs in a trace. *)
Definition occurrences (k : Event -> bool) (tr : list (nat * Event)) : nat :=
  length (filter (fun p => k (snd p) = true) tr).

Definition flag_ok (g : Globals) : Prop :=
  (initializing g = 0 \/ initializing g = 1 \/ initializing g = 2)%Z
  /\ (initializing g = 0%Z -> systemcrit g = CsRaw)
  /\ (initializing g = 2%Z -> systemcrit g <> CsRaw).

Definition init_call (g : Globals) (c : Call) : Prop :=
  (initializing g = 0%Z -> pc c = PCas)
  /\ (electing (pc c) = true ->
      initializing g = 1%Z
      /\ (pc c = PInitCS <-> systemcrit g = CsRaw)
      /\ (pc c = PFlagWrite -> flag_tmp c = 1%Z))
  /\ (in_init (pc c) = false -> initializing g = 2%Z).

Definition init_inv (s : State) : Prop :=
  flag_ok (glob s)
  /\ (forall i c, calls s !! i = Some c -> init_call (glob s) c)
  /\ occurrences is_init_cs (trace s)
     = match systemcrit (glob s) with CsRaw => 0 | _ => 1 end
  /\ occurrences is_cas_won (trace s)
     = (if decide (initializing (glob s) = 0%Z) then 0 else 1).

(** ** The critical section (lines 69-82): definitions *)

(** Program points between EnterCriticalSection and LeaveCriticalSection. *)
Definition holding (p : PC) : bool :=
  match p with
  | PCountRead | PCountWrite | PFmtName | PStpcpy | PFmtCmd | PStderr
  | PSystem | PLeave => true
  | _ => false
  end.

Definition lock_inv (s : State) : Prop :=
  (forall i c, calls s !! i = Some c ->
               (holding (pc c) = true <-> systemcrit (glob s) = CsOwned i))
  /\ (forall o, systemcrit (glob s) = CsOwned o -> o < length (calls s)).

(** The three program points that write the critical section. *)
Definition writes_lock (p : PC) : bool :=
  match p with PInitCS | PEnter | PLeave => true | _ => false end.

(** ** The submission counter (line 72): definitions *)

Definition draw_of (p : nat * Event) : option (nat * Z) :=
  match snd p with EvCount old _ => Some (fst p, old) | _ => None end.

Definition acquired_of (p : nat * Event) : option nat :=
  match snd p with EvEnter => Some (fst p) | _ => None end.

(** The identifiers drawn so far, with the call that drew each, in the
    order of the trace; and the calls that entered the critical section, in
    the order they entered. *)
Definition draws (tr : list (nat * Event)) : list (nat * Z) := omap draw_of tr.

Definition acquisitions (tr : list (nat * Event)) : list nat := omap acquired_of tr.

(** The counter after [n] increments from 0. *)
Definition nth_id (n : nat) : Z := wrap_int (Z.of_nat n).

(** Program points between the entry into the section and the store of
    the incremented counter. *)
Definition undrawn (p : PC) : bool :=
  match p with PCountRead | PCountWrite => true | _ => false end.

(** Program points of lines 69-72 up to the store. *)
Definition touches_count (p : PC) : bool :=
  match p with PEnter | PCountRead | PCountWrite => true | _ => false end.

Definition count_inv (s : State) : Prop :=
  usecount (glob s) = nth_id (length (draws (trace s)))
  /\ map snd (draws (trace s)) = map nth_id (seq 0 (length (draws (trace s))))
  /\ (forall i c, calls s !! i = Some c -> pc c = PCountWrite ->
                  id c = usecount (glob s))
  /\ ((exists i c, calls s !! i = Some c /\ undrawn (pc c) = true
                   /\ acquisitions (trace s) = map fst (draws (trace s)) ++ [i])
      \/ ((forall i c, calls s !! i = Some c -> undrawn (pc c) = false)
          /\ acquisitions (trace s) = map fst (draws (trace s)))).

(** ** Events and the calls that performed them: definitions *)

Definition is_init_event (e : Event) : bool :=
  match e with
  | EvCas _ | EvInitCS | EvFlag _ | EvPoll _ | EvUsleep _ => true
  | _ => false
  end.

(** ** Identifiers: definitions *)

Definition has_drawn (p : PC) : bool := 2 <=? stage p.

(** ** The pidfile (lines 81-90): definitions *)

(** Program points at which the pidfile written by the call's shell can
    exist: from the return of system() to remove(), and after the early
    return of line 87. *)
Definition has_file (p : PC) : bool :=
  match p with
  | PLeave | PFopen | PFread | PFclose | PRemove | PDone ExNoPidfile _ => true
  | _ => false
  end.

Definition writes_files (p : PC) : bool :=
  match p with PSystem | PRemove => true | _ => false end.

(** A file written by the shell of call [j] carries the name of [j]. *)
Definition files_inv (s : State) : Prop :=
  forall n fl j, files (glob s) !! n = Some fl -> writer fl = Some j ->
    exists c, calls s !! j = Some c /\ n = pidfile_name (id c)
              /\ has_file (pc c) = true.

(** Program points after remove() on the path that found the pidfile. *)
Definition cleaned (p : PC) : bool := 9 <=? stage p.

(** ** Whose file a call opens and removes: definitions *)

Definition file_events_own (s : State) : Prop :=
  forall i n fl j,
    ((i, EvFopen n (Some fl)) ∈ trace s \/ (i, EvRemove n (Some fl)) ∈ trace s) ->
    writer fl = Some j -> j = i.

(** ** The history of one call, by position: definitions *)

Definition is_system (e : Event) : bool :=
  match e with EvSystem _ _ => true | _ => false end.

(** Events that lines 85-103 perform. *)
Definition after_release (e : Event) : bool :=
  match e with
  | EvFopen _ _ | EvFread _ _ | EvFclose _ | EvRemove _ _ | EvPidToWinpid _ _
  | EvOpenProcess _ _ _ _ | EvWait _ _ | EvCloseHandle _ | EvReturn _ => true
  | _ => false
  end.

(** ** Sample runs: definitions *)

Definition demo_answer : Answer :=
  {| a_status := 0; a_shell := Some (cs "1234"); a_fopen := true;
     a_winpid := 5678; a_handle := Some 99%Z |}.

(** The shell creates no pidfile. *)
Definition no_pidfile_answer : Answer :=
  {| a_status := 0; a_shell := None; a_fopen := true;
     a_winpid := 5678; a_handle := Some 99%Z |}.

(** OpenProcess fails. *)
Definition no_handle_answer : Answer :=
  {| a_status := 0; a_shell := Some (cs "1234"); a_fopen := true;
     a_winpid := 5678; a_handle := None |}.

(** One thread calls the function and performs [n] actions. *)
Definition one_call (cmd : list ascii) (a : Answer) (n : nat) : list Action :=
  Spawn cmd [] [] :: repeat (Run 0 a) n.

Definition state_after (acts : list Action) : State :=
  default (initial ∅) (run acts (initial ∅)).

Definition call_after (acts : list Action) : Call :=
  default (enter_call [] [] []) (calls (state_after acts) !! 0).

(** A call that ran to its end: 24 actions from line 54 to line 103. *)
Definition demo_state : State := state_after (one_call (cs "true") demo_answer 24).

Definition demo_call : Call := call_after (one_call (cs "true") demo_answer 24).

(** A call stopped in front of fopen() with no pidfile in the directory. *)
Definition stuck_state : State := state_after (one_call (cs "true") no_pidfile_answer 14).

Definition stuck_call : Call := call_after (one_call (cs "true") no_pidfile_answer 14).

(** ** C3: no pidfile: definitions *)

(** Events of lines 88-101: reading and removing the pidfile, translating
    the pid, opening, waiting on and closing the handle. *)
Definition uses_pidfile_or_handle (e : Event) : bool :=
  match e with
  | EvFread _ _ | EvFclose _ | EvRemove _ _ | EvPidToWinpid _ _
  | EvOpenProcess _ _ _ _ | EvWait _ _ | EvCloseHandle _ => true
  | _ => false
  end.

(** ** C6: the plain build: definitions *)

Definition is_return (e : Event) : bool :=
  match e with EvReturn _ => true | _ => false end.

(** ** C8: one-time initialisation: definitions *)

(** The values of the flag that the events of lines 54-58 can carry. *)
Definition flag_value_ok (e : Event) : Prop :=
  match e with
  | EvCas v => (v = 0 \/ v = 1 \/ v = 2)%Z
  | EvFlag v => v = 2%Z
  | EvPoll v => (v = 1 \/ v = 2)%Z
  | _ => True
  end.

(** Two threads race through lines 54-60: call 0 wins the election, call 1
    finds the flag at 1, sleeps once, then reads 2. *)
Definition race_actions : list Action :=
  [Spawn (cs "true") [] []; Spawn (cs "sleep 2") [] [];
   Run 0 demo_answer; Run 1 demo_answer; Run 1 demo_answer; Run 1 demo_answer;
   Run 0 demo_answer; Run 0 demo_answer; Run 0 demo_answer;
   Run 1 demo_answer; Run 1 demo_answer].

Definition race_state : State := state_after race_actions.

(** ** C9: the pid that is parsed: definitions *)

(** Program points at which [pid] holds the result of atoi. *)
Definition parsed (p : PC) : bool :=
  match p with
  | PPidToWinpid | POpenProcess | PWait | PCloseHandle | PReturn
  | PDone ExNoHandle _ | PDone ExWaited _ => true
  | _ => false
  end.

(** ** Long runs: one call after another: definitions *)

(** All calls are outside lines 54-82 and the section is free. *)
Definition quiescent (s : State) : Prop :=
  initializing (glob s) = 2%Z /\ systemcrit (glob s) = CsFree.

(** The shell creates no pidfile and fopen() is refused. *)
Definition refused_answer : Answer :=
  {| a_status := 0; a_shell := None; a_fopen := false; a_winpid := 0;
     a_handle := None |}.

(** The state after one thread has called the function and returned at
    line 87: fifteen actions. *)
Definition first_state : State := state_after (one_call (cs "true") no_pidfile_answer 15).

(** ** C4: the identifiers: definitions *)

Definition is_count (e : Event) : bool :=
  match e with EvCount _ _ => true | _ => false end.

(** ** The pidfile of a call whose identifier was drawn again: definitions *)

(** A call stopped in front of fopen() after its shell wrote the pidfile. *)
Definition pending_state : State := state_after (one_call (cs "true") demo_answer 14).

Definition pending_call : Call := call_after (one_call (cs "true") demo_answer 14).

(** ** C7: the life of the pidfile: definitions *)

Definition is_fread (e : Event) : bool :=
  match e with EvFread _ _ => true | _ => false end.

Definition is_remove (e : Event) : bool :=
  match e with EvRemove _ _ => true | _ => false end.

(** ** Critical sections in the global order of events: definitions *)

(** Who is inside the critical section according to its state. *)
Definition owner_of (k : CritSec) : option nat :=
  match k with CsOwned i => Some i | _ => None end.

(** Scan a trace: EnterCriticalSection must find the section free, the
    events of lines 72-82 must come from the call that entered last and has
    not left.  The result is the call inside at the end, [None] outside
    [Some] if an event breaks the rule. *)
Fixpoint serial (inside : option nat) (tr : list (nat * Event)) : option (option nat) :=
  match tr with
  | [] => Some inside
  | (i, e) :: rest =>
      match e with
      | EvEnter =>
          match inside with
          | None => serial (Some i) rest
          | Some _ => None
          end
      | EvCount _ _ | EvStderr _ | EvSystem _ _ =>
          if decide (inside = Some i) then serial inside rest else None
      | EvLeave =>
          if decide (inside = Some i) then serial None rest else None
      | _ => serial inside rest
      end
  end.

(** Two threads contend for the critical section: call 1 is inside
    (line 72), call 0 waits at EnterCriticalSection. *)
Definition contended_actions : list Action :=
  race_actions ++ [Run 1 demo_answer; Run 0 demo_answer].

Definition contended_state : State := state_after contended_actions.

(** ** Progress: definitions *)

Definition returned (p : PC) : bool :=
  match p with PDone _ _ => true | _ => false end.

(** ** A call that runs alone: definitions *)

(** The handle value that OpenProcess returns. *)
Definition handle_of (a : Answer) : Z :=
  match a_handle a with Some v => v | None => NULL end.

(** How a call ends and what it returns, from what fopen() finds and what
    the platform answers. *)
Definition outcome (a : Answer) (found : option File) : Exit * Z :=
  match found with
  | Some _ =>
      if a_fopen a
      then if decide (handle_of a = INVALID_HANDLE_VALUE)
           then (ExNoHandle, (-1)%Z) else (ExWaited, a_status a)
      else (ExNoPidfile, (-1)%Z)
  | None => (ExNoPidfile, (-1)%Z)
  end.

(** Number of atomic actions of a call on each path, once the critical
    section is initialised. *)
Definition own_steps (how : Exit) : nat :=
  match how with ExNoPidfile => 13 | ExNoHandle => 19 | ExWaited => 22 end.

(** ** The handle of the spawned task: definitions *)

Definition is_close (e : Event) : bool :=
  match e with EvCloseHandle _ => true | _ => false end.

Definition is_wait_or_close (e : Event) : bool :=
  match e with EvWait _ _ | EvCloseHandle _ => true | _ => false end.

(** ** The working directory: definitions *)

(** A directory with an unrelated file and a pidfile left by an earlier
    process; one call whose shell writes nothing runs to its end. *)
Definition stale_dir : gmap (list ascii) (list ascii) :=
  <[cs "notes.txt" := cs "hello"]> (<[cs "_yafu_system_.0" := cs "77"]> ∅).

Definition stale_state : State :=
  default (initial stale_dir)
          (run (one_call (cs "true") no_pidfile_answer 24) (initial stale_dir)).

(** ** The diagnostic line: definitions *)

Definition is_stderr (e : Event) : bool :=
  match e with EvStderr _ => true | _ => false end.

(** ** The election comes to an end: definitions *)

(** Number of actions that the elected call still needs for line 56. *)
Definition election_steps (p : PC) : nat :=
  match p with PInitCS => 3 | PFlagRead => 2 | PFlagWrite => 1 | _ => 0 end.

(** Call 0 has won the election and stands at line 55; call 1 has found the
    flag at 1 and sleeps. *)
Definition election_actions : list Action :=
  [Spawn (cs "true") [] []; Spawn (cs "sleep 2") [] [];
   Run 0 demo_answer; Run 1 demo_answer; Run 1 demo_answer].

Definition election_state : State := state_after election_actions.

(** ** Two calls that have both drawn an identifier: definitions *)

(** After the race of lines 54-60 call 1 enters the critical section,
    submits and leaves; call 0 then enters and increments the counter. *)
Definition two_draws_actions : list Action :=
  race_actions ++ repeat (Run 1 demo_answer) 9 ++ repeat (Run 0 demo_answer) 4.

Definition two_draws_state : State := state_after two_draws_actions.

(** Number of actions of a call from a program point inside the critical
    section up to and including LeaveCriticalSection. *)
Definition hold_steps (p : PC) : nat :=
  match p with
  | PCountRead => 8 | PCountWrite => 7 | PFmtName => 6 | PStpcpy => 5
  | PFmtCmd => 4 | PStderr => 3 | PSystem => 2 | PLeave => 1
  | _ => 0
  end.

(** The contended state after call 1, which owns the critical section, has
    performed its eight actions up to LeaveCriticalSection. *)
Definition released_state : State :=
  state_after (contended_actions ++ repeat (Run 1 demo_answer) 8).

(** * Properties *)

(** ** C strings and buffers *)

Lemma strlen_le (m : list ascii) : strlen m <= length m.
Proof. induction m as [|c r IH]; simpl; [lia|]. case_decide; lia. Qed.

Lemma length_c_str (m : list ascii) : length (c_str m) = strlen m.
Proof. unfold c_str. rewrite length_take. pose proof (strlen_le m). lia. Qed.

Lemma c_str_no_nul (m : list ascii) : NUL ∉ c_str m.
Proof.
  unfold c_str. induction m as [|c r IH]; simpl.
  - apply not_elem_of_nil.
  - case_decide; simpl; [apply not_elem_of_nil|].
    apply not_elem_of_cons. split; [congruence|exact IH].
Qed.

Lemma strlen_app_nul (s r : list ascii) :
  NUL ∉ s -> strlen (s ++ NUL :: r) = length s.
Proof.
  induction s as [|c s IH]; intros Hs.
  - cbn [app strlen]. by rewrite decide_True.
  - apply not_elem_of_cons in Hs as [Hc Hs]. cbn [app strlen length].
    rewrite decide_False by congruence. by rewrite IH.
Qed.

Lemma c_str_app_nul (s r : list ascii) : NUL ∉ s -> c_str (s ++ NUL :: r) = s.
Proof.
  intros Hs. unfold c_str. rewrite strlen_app_nul by done.
  by rewrite take_app_length.
Qed.

Lemma strlen_no_nul (s : list ascii) : NUL ∉ s -> strlen s = length s.
Proof.
  induction s as [|c s IH]; simpl; intros Hs; [done|].
  apply not_elem_of_cons in Hs as [Hc Hs]. case_decide; [congruence|].
  by rewrite IH.
Qed.

Lemma poke_0 (d b : list ascii) : poke 0 d b = d ++ drop (length d) b.
Proof. unfold poke. by rewrite take_0. Qed.

Lemma length_poke (off : nat) (d b : list ascii) :
  off + length d <= length b -> length (poke off d b) = length b.
Proof.
  intros Hfit. unfold poke.
  rewrite !length_app, length_take, length_drop. lia.
Qed.

Lemma poke_after (s t rest : list ascii) :
  poke (length s) t (s ++ rest) = s ++ t ++ drop (length t) rest.
Proof.
  unfold poke. rewrite take_app_length. do 2 f_equal.
  rewrite drop_app_ge by lia. f_equal. lia.
Qed.

Lemma length_alloca (n : nat) (junk : list ascii) : length (alloca n junk) = n.
Proof. apply length_resize. Qed.

(** ** Decimal output and its inverse *)

Lemma length_utoa_le (fuel : nat) (n : Z) : length (utoa_le fuel n) <= fuel.
Proof.
  revert n. induction fuel as [|fuel IH]; intros n; simpl; [lia|].
  destruct (n / 10 =? 0)%Z; simpl; [lia|]. specialize (IH (n / 10)%Z). lia.
Qed.

Lemma utoa_le_digits (fuel : nat) (n : Z) :
  Forall (fun d => (0 <= d <= 9)%Z) (utoa_le fuel n).
Proof.
  revert n. induction fuel as [|fuel IH]; intros n; simpl; [constructor|].
  constructor.
  - pose proof (Z.mod_pos_bound n 10). lia.
  - destruct (n / 10 =? 0)%Z; [constructor|apply IH].
Qed.

Lemma le_value_utoa_le (fuel : nat) (n : Z) :
  (0 <= n < 10 ^ Z.of_nat fuel)%Z -> le_value (utoa_le fuel n) = n.
Proof.
  revert n. induction fuel as [|fuel IH]; intros n Hn.
  - change (10 ^ Z.of_nat 0)%Z with 1%Z in Hn. cbn. lia.
  - cbn [utoa_le]. pose proof (Z.div_mod n 10 ltac:(lia)) as Hdm.
    destruct (n / 10 =? 0)%Z eqn:Hq.
    + apply Z.eqb_eq in Hq. simpl. lia.
    + cbn [le_value foldr]. fold (le_value (utoa_le fuel (n / 10))).
      rewrite IH; [lia|].
      rewrite Nat2Z.inj_succ, Z.pow_succ_r in Hn by lia.
      split; [apply Z.div_pos; lia|].
      apply Z.div_lt_upper_bound; lia.
Qed.

Lemma digit_char_code (d : Z) :
  (0 <= d <= 9)%Z -> nat_of_ascii (digit_char d) = 48 + Z.to_nat d.
Proof. intros Hd. unfold digit_char. apply nat_ascii_embedding. lia. Qed.

Lemma is_digit_digit_char (d : Z) : (0 <= d <= 9)%Z -> is_digit (digit_char d) = true.
Proof.
  intros Hd. unfold is_digit. rewrite digit_char_code by done.
  apply andb_true_intro. split; apply Nat.leb_le; lia.
Qed.

Lemma digit_val_digit_char (d : Z) : (0 <= d <= 9)%Z -> digit_val (digit_char d) = d.
Proof. intros Hd. unfold digit_val. rewrite digit_char_code by done. lia. Qed.

Lemma digits_value_app (s t : list ascii) (acc : Z) :
  Forall (fun c => is_digit c = true) s ->
  digits_value acc (s ++ t) = digits_value (digits_value acc s) t.
Proof.
  intros Hs. revert acc. induction Hs as [|c s Hc Hs IH]; intros acc; simpl; [done|].
  rewrite Hc. apply IH.
Qed.

Lemma digits_value_stop (s t : list ascii) (acc : Z) :
  Forall (fun c => is_digit c = true) s ->
  head (map is_digit t) <> Some true ->
  digits_value acc (s ++ t) = digits_value acc s.
Proof.
  intros Hs Ht. rewrite digits_value_app by done.
  destruct t as [|c t]; simpl; [done|]. simpl in Ht.
  destruct (is_digit c); congruence.
Qed.

Lemma digit_chars_are_digits (l : list Z) :
  Forall (fun d => (0 <= d <= 9)%Z) l ->
  Forall (fun c => is_digit c = true) (map digit_char l).
Proof.
  intros Hl. apply Forall_map. eapply Forall_impl; [exact Hl|].
  intros d Hd. simpl. by apply is_digit_digit_char.
Qed.

Lemma digits_value_rev (l : list Z) (acc : Z) :
  Forall (fun d => (0 <= d <= 9)%Z) l ->
  digits_value acc (map digit_char (rev l))
  = (acc * 10 ^ Z.of_nat (length l) + le_value l)%Z.
Proof.
  intros Hl. revert acc. induction Hl as [|d l Hd Hl IH]; intros acc.
  - simpl. lia.
  - cbn [rev]. rewrite map_app, digits_value_app.
    + rewrite IH. cbn [map digits_value]. rewrite is_digit_digit_char by done.
      rewrite digit_val_digit_char by done.
      cbn [length le_value foldr]. fold (le_value l).
      rewrite Nat2Z.inj_succ, Z.pow_succ_r by lia. lia.
    + apply digit_chars_are_digits. by apply Forall_rev.
Qed.

Lemma utoa_digits (n : Z) : Forall (fun c => is_digit c = true) (utoa n).
Proof.
  unfold utoa. apply digit_chars_are_digits, Forall_rev, utoa_le_digits.
Qed.

Lemma length_utoa (n : Z) : 1 <= length (utoa n) <= 10.
Proof.
  unfold utoa. rewrite length_map, length_rev.
  split; [simpl; lia|apply length_utoa_le].
Qed.

Lemma digits_value_utoa (n : Z) :
  (0 <= n < 10 ^ 10)%Z -> digits_value 0 (utoa n) = n.
Proof.
  intros Hn. unfold utoa. rewrite digits_value_rev by apply utoa_le_digits.
  rewrite le_value_utoa_le; [lia|]. exact Hn.
Qed.

Lemma is_digit_plain (c : ascii) :
  is_digit c = true ->
  isspace c = false /\ c <> "-"%char /\ c <> "+"%char /\ c <> NUL.
Proof.
  intros Hc. unfold is_digit in Hc. apply andb_prop in Hc as [H1 H2].
  apply Nat.leb_le in H1, H2. unfold isspace.
  repeat split.
  - apply orb_false_intro; [apply Nat.eqb_neq; lia|].
    apply andb_false_intro2, Nat.leb_gt. lia.
  - intros ->. change (nat_of_ascii "-") with 45 in H1. lia.
  - intros ->. change (nat_of_ascii "+") with 43 in H1. lia.
  - intros ->. change (nat_of_ascii NUL) with 0 in H1. lia.
Qed.

Lemma length_fmt_d (v : Z) : 1 <= length (fmt_d v) <= 11.
Proof.
  unfold fmt_d. destruct (v <? 0)%Z; simpl.
  - pose proof (length_utoa (- v)). lia.
  - pose proof (length_utoa v). lia.
Qed.

Lemma fmt_d_no_nul (v : Z) : NUL ∉ fmt_d v.
Proof.
  assert (Hd : forall n, NUL ∉ utoa n).
  { intros n Hin. pose proof (utoa_digits n) as Hall.
    rewrite Forall_forall in Hall. apply Hall in Hin.
    apply is_digit_plain in Hin. tauto. }
  unfold fmt_d. destruct (v <? 0)%Z; [|apply Hd].
  apply not_elem_of_cons. split; [discriminate|apply Hd].
Qed.

Lemma wrap_int_id (v : Z) : is_int v -> wrap_int v = v.
Proof.
  unfold is_int, INT_MIN, INT_MAX, wrap_int. intros Hv.
  rewrite Z.mod_small; lia.
Qed.

Lemma wrap_int_is_int (v : Z) : is_int (wrap_int v).
Proof.
  unfold is_int, INT_MIN, INT_MAX, wrap_int.
  pose proof (Z.mod_pos_bound (v + 2 ^ 31) (2 ^ 32)). lia.
Qed.

Lemma clamp_long_id (v : Z) : (LONG_MIN <= v <= LONG_MAX)%Z -> clamp_long v = v.
Proof. unfold clamp_long. lia. Qed.

(** Reading back what %d printed gives the number printed. *)
Lemma atoi_fmt_d (v : Z) : is_int v -> atoi (fmt_d v) = v.
Proof.
  intros Hv. pose proof Hv as Hw. unfold is_int, INT_MIN, INT_MAX in Hv.
  unfold atoi, strtol, fmt_d. destruct (v <? 0)%Z eqn:Hneg.
  - apply Z.ltb_lt in Hneg. cbn [skip_space].
    replace (isspace "-") with false by reflexivity.
    rewrite decide_True by done.
    rewrite digits_value_utoa by lia.
    rewrite clamp_long_id by (unfold LONG_MIN, LONG_MAX; lia).
    rewrite Z.opp_involutive. by apply wrap_int_id.
  - apply Z.ltb_ge in Hneg.
    pose proof (utoa_digits v) as Hall. pose proof (digits_value_utoa v) as Hval.
    destruct (utoa v) as [|c r] eqn:Hu.
    { pose proof (length_utoa v) as Hl. rewrite Hu in Hl. simpl in Hl. lia. }
    apply Forall_cons in Hall as [Hc _].
    destruct (is_digit_plain c Hc) as (Hsp & Hm & Hp & _).
    cbn [skip_space]. rewrite Hsp.
    rewrite decide_False by done. rewrite decide_False by done.
    rewrite Hval by lia.
    rewrite clamp_long_id by (unfold LONG_MIN, LONG_MAX; lia).
    by apply wrap_int_id.
Qed.

Lemma fmt_d_inj (a b : Z) : is_int a -> is_int b -> fmt_d a = fmt_d b -> a = b.
Proof.
  intros Ha Hb Heq. rewrite <- (atoi_fmt_d a Ha), <- (atoi_fmt_d b Hb).
  by rewrite Heq.
Qed.

Lemma pidfile_name_inj (a b : Z) :
  is_int a -> is_int b -> pidfile_name a = pidfile_name b -> a = b.
Proof.
  unfold pidfile_name. intros Ha Hb Heq.
  apply app_inv_head in Heq. by apply fmt_d_inj.
Qed.

Lemma pidfile_name_no_nul (v : Z) : NUL ∉ pidfile_name v.
Proof.
  unfold pidfile_name. rewrite elem_of_app. intros [Hin|Hin].
  - revert Hin. vm_compute. intros Hin.
    repeat (apply elem_of_cons in Hin as [Hin|Hin]; [discriminate|]).
    by apply elem_of_nil in Hin.
  - by apply fmt_d_no_nul in Hin.
Qed.

Lemma glue_no_nul : NUL ∉ glue.
Proof.
  vm_compute. intros Hin.
  repeat (apply elem_of_cons in Hin as [Hin|Hin]; [discriminate|]).
  by apply elem_of_nil in Hin.
Qed.

Lemma augmented_no_nul (cmd : list ascii) (v : Z) : NUL ∉ augmented cmd v.
Proof.
  unfold augmented. rewrite !elem_of_app. intros [Hin|[Hin|Hin]].
  - by apply c_str_no_nul in Hin.
  - by apply glue_no_nul in Hin.
  - by apply pidfile_name_no_nul in Hin.
Qed.

(** ** One call: its locals and its own events at every program point *)

Lemma c_str_name_buf (c : Call) : c_str (name_buf c) = pidfile_name (id c).
Proof.
  unfold name_buf. rewrite poke_0, (app_assoc pidfile_prefix), <- app_assoc.
  apply c_str_app_nul, pidfile_name_no_nul.
Qed.

(** After line 75 the buffer holds the augmented command, its terminator,
    and what is left of the stack block behind it. *)
Lemma buf_submitted_layout (c : Call) :
  exists rest, buf_submitted c = augmented (cmd c) (id c) ++ NUL :: rest.
Proof.
  unfold buf_submitted, buf_copied. rewrite poke_0, <- app_assoc.
  rewrite <- (length_c_str (cmd c)), poke_after.
  eexists. unfold augmented. rewrite <- !app_assoc. reflexivity.
Qed.

Lemma c_str_buf_submitted (c : Call) :
  c_str (buf_submitted c) = augmented (cmd c) (id c).
Proof.
  destruct (buf_submitted_layout c) as [rest ->].
  apply c_str_app_nul, augmented_no_nul.
Qed.

Lemma polls_snoc (k : nat) :
  polls k ++ [EvPoll 1; EvUsleep SLEEP_US] = polls (S k).
Proof. induction k as [|k IH]; simpl; [done|]. by rewrite IH. Qed.

Lemma call_inv_enter (cmd j1 j2 : list ascii) : call_inv (enter_call cmd j1 j2) [].
Proof. split; [exact I|]. by exists [], None. Qed.

Ltac unfold_bufs :=
  unfold buf_read, data_read, buf_submitted, buf_copied, buf_alloc, name_buf,
    name_alloc in *.

Ltac proj_simpl :=
  cbn [pc cmd junk_name junk_buf flag_tmp pidfilename buf ptr id ret f pid
       winpid h set_pc set_flag_tmp set_pidfilename set_buf set_ptr set_id
       set_ret set_f set_pid set_winpid set_h] in *.

Ltac split_step H :=
  repeat match type of H with
         | context [decide ?P] => destruct (decide P)
         | context [match ?x with _ => _ end] => destruct x eqn:?
         end;
  simplify_eq.

Lemma call_inv_step (a : Answer) (i : nat) (g g' : Globals) (c c' : Call)
    (evs hist : list Event) :
  step_call a i g c = Some (g', c', evs) ->
  call_inv c hist -> call_inv c' (hist ++ evs).
Proof.
  intros Hstep (Hloc & pre & gone & Hpre & ->).
  pose proof (c_str_name_buf c) as Hn. pose proof (c_str_buf_submitted c) as Hb.
  unfold step_call in Hstep. unfold locals_ok in Hloc. unfold body.
  destruct (pc c) eqn:Hpc; simpl in Hpre; split_step Hstep; destruct_and?;
    try match goal with H : pidfilename c = name_buf c |- _ =>
          rewrite <- H in Hn end;
    try match goal with H : buf c = buf_submitted c |- _ =>
          rewrite <- H in Hb end;
    unfold call_inv, locals_ok, body, path; unfold_bufs; proj_simpl;
    cbn [stage take app]; rewrite ?app_nil_r;
    repeat match goal with H : f c = _ |- _ => rewrite !H in * end;
    try rewrite !Hn; try rewrite !Hb;
    try (split; [intuition (eauto; congruence)|];
         first [ exists pre, gone; split; [exact Hpre|];
                 rewrite <- ?app_assoc, ?app_nil_r; cbn [app]; reflexivity
               | eexists pre, _; split; [exact Hpre|];
                 rewrite <- ?app_assoc, ?app_nil_r; cbn [app]; reflexivity ]);
    (split; [exact I|]).
  - rewrite e. by exists [EvCas 0], gone.
  - exists [EvCas (initializing g')], gone. split; [|done].
    by exists (initializing g'), 0.
  - by exists [EvCas 0; EvInitCS], gone.
  - by exists [EvCas 0; EvInitCS], gone.
  - exists (elected_hist (wrap_int (flag_tmp c + 1))), gone.
    split; [|done]. left. by eexists.
  - destruct Hpre as (v & k & Hv & ->).
    exists (waiter_hist v k 1), gone. split; [by exists v, k|].
    rewrite app_nil_r. unfold waiter_hist. by rewrite e.
  - destruct Hpre as (v & k & Hv & ->).
    exists (waiter_hist v k (initializing g')), gone.
    split; [right; by exists v, k, (initializing g')|]. by rewrite app_nil_r.
  - destruct Hpre as (v & k & Hv & ->).
    exists (EvCas v :: polls (S k)), gone. split; [by exists v, (S k)|].
    rewrite app_nil_r, <- polls_snoc. unfold waiter_hist.
    cbn [app]. by rewrite <- app_assoc.
Qed.

Lemma call_inv_blocked (a : Answer) (i : nat) (g : Globals) (c : Call) (hist : list Event) :
  call_inv c hist -> step_call a i g c = None ->
  (pc c = PEnter /\ systemcrit g <> CsFree) \/ exists how v, pc c = PDone how v.
Proof.
  intros (Hloc & _) Hstep. unfold step_call in Hstep. unfold locals_ok in Hloc.
  destruct (pc c) eqn:Hpc; split_step Hstep; destruct_and?;
    try (left; split; [done|congruence]); try (right; by eauto).
Qed.

(** ** Reachable states *)

Lemma run_snoc (acts : list Action) (act : Action) (s : State) :
  run (acts ++ [act]) s = match run acts s with Some s' => exec act s' | None => None end.
Proof.
  revert s. induction acts as [|a0 acts IH]; intros s; simpl.
  - by destruct (exec act s).
  - destruct (exec a0 s); [apply IH|done].
Qed.

Lemma reachable_initial (dir : gmap (list ascii) (list ascii)) : reachable (initial dir).
Proof. by exists dir, []. Qed.

Lemma reachable_exec (s s' : State) (act : Action) :
  reachable s -> exec act s = Some s' -> reachable s'.
Proof.
  intros (dir & acts & Hrun) Hex. exists dir, (acts ++ [act]).
  by rewrite run_snoc, Hrun.
Qed.

Lemma reachable_run (s s' : State) (acts : list Action) :
  reachable s -> run acts s = Some s' -> reachable s'.
Proof.
  revert s. induction acts as [|act acts IH]; intros s Hs Hrun; simpl in Hrun.
  - by simplify_eq.
  - destruct (exec act s) as [s1|] eqn:Hex; [|done].
    eapply IH; [|exact Hrun]. by eapply reachable_exec.
Qed.

(** Induction over the actions that lead to a reachable state. *)
Lemma reachable_ind (P : State -> Prop) :
  (forall dir, P (initial dir)) ->
  (forall s act s', reachable s -> P s -> exec act s = Some s' -> P s') ->
  forall s, reachable s -> P s.
Proof.
  intros Hinit Hstep s (dir & acts & Hrun). revert s Hrun.
  induction acts as [|act acts IH] using rev_ind; intros s Hrun.
  - simpl in Hrun. simplify_eq. apply Hinit.
  - rewrite run_snoc in Hrun. destruct (run acts (initial dir)) as [s0|] eqn:H0; [|done].
    eapply Hstep; [|by apply IH|exact Hrun]. by exists dir, acts.
Qed.

Lemma exec_inv (act : Action) (s s' : State) :
  exec act s = Some s' ->
  (exists cmd j1 j2, act = Spawn cmd j1 j2 /\ s' = spawned cmd j1 j2 s)
  \/ (exists i a c g' c' evs,
        act = Run i a /\ calls s !! i = Some c
        /\ step_call a i (glob s) c = Some (g', c', evs)
        /\ s' = stepped i g' c' evs s).
Proof.
  destruct act as [cmd j1 j2|i a]; simpl; intros Hex.
  - left. exists cmd, j1, j2. by simplify_eq.
  - right. destruct (calls s !! i) as [c|] eqn:Hc; [|done].
    destruct (step_call a i (glob s) c) as [[[g' c'] evs]|] eqn:Hs; [|done].
    exists i, a, c, g', c', evs. by simplify_eq.
Qed.

(** A call of the state after a step is the one that moved or one that was
    there unchanged. *)
Lemma stepped_lookup (l : list Call) (i j : nat) (c c' cj : Call) :
  l !! i = Some c ->
  <[i := c']> l !! j = Some cj ->
  (j = i /\ cj = c') \/ (j <> i /\ l !! j = Some cj).
Proof.
  intros Hi. destruct (decide (j = i)) as [->|Hne].
  - rewrite list_lookup_insert_eq by (by eapply lookup_lt_Some).
    intros; simplify_eq. by left.
  - rewrite list_lookup_insert_ne by done. by right.
Qed.

Lemma spawned_lookup (cmd j1 j2 : list ascii) (j : nat) (cj : Call) (s : State) :
  calls (spawned cmd j1 j2 s) !! j = Some cj ->
  (j = length (calls s) /\ cj = enter_call cmd j1 j2) \/ calls s !! j = Some cj.
Proof.
  simpl. intros Hj. apply lookup_app_Some in Hj as [Hj|[Hge Hj]]; [by right|].
  left. apply list_lookup_singleton_Some in Hj as [Hz ->]. split; [lia|done].
Qed.

Lemma events_of_app (i : nat) (t1 t2 : list (nat * Event)) :
  events_of i (t1 ++ t2) = events_of i t1 ++ events_of i t2.
Proof. unfold events_of. by rewrite filter_app, map_app. Qed.

Lemma events_of_own (i : nat) (evs : list Event) :
  events_of i (map (pair i) evs) = evs.
Proof.
  unfold events_of. induction evs as [|e evs IH]; [done|].
  cbn [map]. rewrite filter_cons_True by done. cbn [map snd]. by rewrite IH.
Qed.

Lemma events_of_other (i j : nat) (evs : list Event) :
  i <> j -> events_of i (map (pair j) evs) = [].
Proof.
  intros Hne. unfold events_of. induction evs as [|e evs IH]; [done|].
  cbn [map]. rewrite filter_cons_False by (simpl; congruence). exact IH.
Qed.

Lemma events_of_fresh (s : State) :
  reachable s -> forall j e, (j, e) ∈ trace s -> j < length (calls s).
Proof.
  intros Hs. induction Hs as [dir|s act s' Hs IH Hex] using reachable_ind.
  - intros j e Hin. by apply elem_of_nil in Hin.
  - intros j e Hin. apply exec_inv in Hex as [(cmd & j1 & j2 & -> & ->)|
      (i & a & c & g' & c' & evs & -> & Hc & Hstep & ->)]; simpl in *.
    + rewrite length_app. simpl. apply IH in Hin. lia.
    + rewrite length_insert. apply elem_of_app in Hin as [Hin|Hin]; [by eapply IH|].
      apply list_elem_of_fmap in Hin as (e' & Heq & _). simplify_eq.
      by eapply lookup_lt_Some.
Qed.

(** Every call of a reachable state satisfies the invariant of its program
    point, with its own events as history. *)
Lemma reachable_call_inv (s : State) :
  reachable s ->
  forall i c, calls s !! i = Some c -> call_inv c (events_of i (trace s)).
Proof.
  intros Hs. induction Hs as [dir|s act s' Hs IH Hex] using reachable_ind.
  - intros i c Hc. simpl in Hc. by rewrite lookup_nil in Hc.
  - intros j cj Hj. apply exec_inv in Hex as [(cmd & j1 & j2 & -> & ->)|
      (i & a & c & g' & c' & evs & -> & Hc & Hstep & ->)].
    + apply spawned_lookup in Hj as [[-> ->]|Hj]; [|by apply IH].
      simpl. replace (events_of (length (calls s)) (trace s)) with (@nil Event).
      { apply call_inv_enter. }
      symmetry. unfold events_of.
      destruct (filter _ (trace s)) as [|[k e] l] eqn:Hf; [done|].
      assert (Hin : (k, e) ∈ filter (fun p => p.1 = length (calls s)) (trace s))
        by (rewrite Hf; apply list_elem_of_here).
      apply list_elem_of_filter in Hin as [Hk Hin]. simpl in Hk.
      apply (events_of_fresh s Hs) in Hin. lia.
    + destruct (stepped_lookup _ _ _ _ _ _ Hc Hj) as [[-> ->]|[Hne Hj']].
      * simpl. rewrite events_of_app, events_of_own.
        eapply call_inv_step; [exact Hstep|by apply IH].
      * simpl. rewrite events_of_app, events_of_other, app_nil_r by done.
        by apply IH.
Qed.

(** ** One-time initialisation (lines 54-60) *)

Lemma occurrences_app (k : Event -> bool) (t1 t2 : list (nat * Event)) :
  occurrences k (t1 ++ t2) = occurrences k t1 + occurrences k t2.
Proof. unfold occurrences. by rewrite filter_app, length_app. Qed.

Lemma occurrences_cons (k : Event -> bool) (i : nat) (e : Event) (t : list (nat * Event)) :
  occurrences k ((i, e) :: t) = (if k e then 1 else 0) + occurrences k t.
Proof.
  unfold occurrences. destruct (k e) eqn:Hk.
  - by rewrite filter_cons_True.
  - rewrite filter_cons_False; [done|]. simpl. congruence.
Qed.

Lemma occurrences_nil (k : Event -> bool) : occurrences k [] = 0.
Proof. done. Qed.

Lemma occurrences_unique (k : Event -> bool) (tr : list (nat * Event)) (p q : nat * Event) :
  occurrences k tr <= 1 -> p ∈ tr -> q ∈ tr ->
  k (snd p) = true -> k (snd q) = true -> p = q.
Proof.
  unfold occurrences. intros Hle Hp Hq Hkp Hkq.
  assert (Hp' : p ∈ filter (fun p => k (snd p) = true) tr)
    by (by apply list_elem_of_filter).
  assert (Hq' : q ∈ filter (fun p => k (snd p) = true) tr)
    by (by apply list_elem_of_filter).
  destruct (filter _ tr) as [|x [|y l]]; simpl in Hle; [|..|lia].
  - by apply elem_of_nil in Hp'.
  - apply list_elem_of_singleton in Hp', Hq'. congruence.
Qed.

Ltac glob_simpl :=
  cbn [initializing systemcrit usecount files set_initializing set_systemcrit
       set_usecount set_files glob calls trace stepped spawned] in *.

Ltac count_simpl :=
  rewrite ?occurrences_app; cbn [map];
  rewrite ?occurrences_cons, ?occurrences_nil.

Lemma events_of_elem (i : nat) (e : Event) (tr : list (nat * Event)) :
  e ∈ events_of i tr <-> (i, e) ∈ tr.
Proof.
  unfold events_of. rewrite list_elem_of_fmap. split.
  - intros ([j e'] & -> & Hin). apply list_elem_of_filter in Hin as [Hj Hin].
    simpl in Hj. by subst.
  - intros Hin. exists (i, e). split; [done|]. by apply list_elem_of_filter.
Qed.

(** A call on lines 55-56 is the one whose compare-and-exchange found 0. *)
Lemma electing_won (s : State) (i : nat) (c : Call) :
  reachable s -> calls s !! i = Some c -> electing (pc c) = true ->
  (i, EvCas 0) ∈ trace s.
Proof.
  intros Hs Hc Hel. destruct (reachable_call_inv s Hs i c Hc) as (_ & pre & gone & Hpre & Hev).
  apply events_of_elem. rewrite Hev. apply elem_of_app. left.
  destruct (pc c); try discriminate; simpl in Hpre; subst pre; apply list_elem_of_here.
Qed.

(** What one step has to establish for the initialisation invariant. *)
Lemma init_inv_stepped (s : State) (i : nat) (c c' : Call) (g' : Globals)
    (evs : list Event) :
  reachable s -> init_inv s -> calls s !! i = Some c ->
  flag_ok g' ->
  init_call g' c' ->
  (forall cj, init_call (glob s) cj ->
              (electing (pc c) = true -> electing (pc cj) = false) ->
              init_call g' cj) ->
  occurrences is_init_cs (trace s ++ map (pair i) evs)
    = match systemcrit g' with CsRaw => 0 | _ => 1 end ->
  occurrences is_cas_won (trace s ++ map (pair i) evs)
    = (if decide (initializing g' = 0%Z) then 0 else 1) ->
  init_inv (stepped i g' c' evs s).
Proof.
  intros Hs (Hflag & Hcalls & Hcs & Hcas) Hc Hflag' Hc' Hothers Hcs' Hcas'.
  split; [exact Hflag'|]. split; [|by split].
  intros j cj Hj. simpl in Hj.
  destruct (stepped_lookup _ _ _ _ _ _ Hc Hj) as [[-> ->]|[Hne Hj']]; [exact Hc'|].
  apply Hothers; [by eapply Hcalls|].
  intros Hel. destruct (electing (pc cj)) eqn:Hej; [|done].
  exfalso. apply Hne.
  pose proof (electing_won s i c Hs Hc Hel) as Hi.
  pose proof (electing_won s j cj Hs Hj' Hej) as Hjw.
  assert (Hle : occurrences is_cas_won (trace s) <= 1) by (rewrite Hcas; destruct (decide (initializing (glob s) = 0%Z)); lia).
  by injection (occurrences_unique _ _ _ _ Hle Hjw Hi eq_refl eq_refl).
Qed.

Lemma electing_in_init (p : PC) : electing p = true -> in_init p = true.
Proof. by destruct p. Qed.

(** Past line 60 a step leaves the flag alone and the critical section
    initialised. *)
Lemma step_past_init (a : Answer) (i : nat) (g g' : Globals) (c c' : Call)
    (evs : list Event) :
  step_call a i g c = Some (g', c', evs) -> in_init (pc c) = false ->
  in_init (pc c') = false /\ initializing g' = initializing g
  /\ (systemcrit g <> CsRaw -> systemcrit g' <> CsRaw)
  /\ forall tr, occurrences is_init_cs (tr ++ map (pair i) evs) = occurrences is_init_cs tr
             /\ occurrences is_cas_won (tr ++ map (pair i) evs) = occurrences is_cas_won tr.
Proof.
  intros Hstep Hin. unfold step_call in Hstep.
  destruct (pc c) eqn:Hpc; try discriminate; split_step Hstep;
    glob_simpl; proj_simpl; (split; [done|]); (split; [done|]);
    (split; [done|]); intros tr; count_simpl; cbn [is_init_cs is_cas_won]; lia.
Qed.

Lemma reachable_init_inv (s : State) : reachable s -> init_inv s.
Proof.
  intros Hs. induction Hs as [dir|s act s' Hs IH Hex] using reachable_ind.
  - repeat split; simpl; try done; try (intros; by simplify_list_eq); auto.
  - apply exec_inv in Hex as [(cmd & j1 & j2 & -> & ->)|
      (i & a & c & g' & c' & evs & -> & Hc & Hstep & ->)].
    + destruct IH as (Hflag & Hcalls & Hcs & Hcas).
      split; [exact Hflag|]. split; [|by split].
      intros j cj Hj. apply spawned_lookup in Hj as [[-> ->]|Hj]; [|by eapply Hcalls].
      repeat split; simpl; try done.
    + pose proof IH as (Hflag & Hcalls & Hcs & Hcas).
      pose proof (Hcalls i c Hc) as Hic. clear Hcalls.
      destruct (in_init (pc c)) eqn:Hin.
      * unfold step_call in Hstep.
        destruct (pc c) eqn:Hpc; try discriminate; split_step Hstep;
        (eapply init_inv_stepped; [exact Hs|exact IH|exact Hc|..]); clear IH Hs Hc;
        unfold flag_ok, init_call in *; rewrite Hpc in *; glob_simpl; proj_simpl;
        count_simpl; cbn [electing in_init is_init_cs is_cas_won] in *;
        try (assert (Hft : flag_tmp c = 1%Z) by (by apply Hic);
             rewrite Hft; change (wrap_int (1 + 1)) with 2%Z);
        try (intros cj Hcj Hel);
        try (destruct (initializing (glob s) =? 0)%Z eqn:Hz;
             [apply Z.eqb_eq in Hz|apply Z.eqb_neq in Hz]);
        repeat case_decide;
        try (destruct (systemcrit (glob s)) eqn:Hsc);
        try (intuition (first [lia | congruence])).
      * destruct (step_past_init _ _ _ _ _ _ _ Hstep Hin) as (Hin' & Hfl & Hraw & Hocc).
        destruct Hic as (_ & _ & H2). specialize (H2 Hin).
        destruct Hflag as (_ & _ & Hnr). specialize (Hnr H2). specialize (Hraw Hnr).
        eapply init_inv_stepped; [exact Hs|exact IH|exact Hc|..].
        -- unfold flag_ok. rewrite Hfl, H2. split; [lia|]. split; [lia|done].
        -- unfold init_call. rewrite Hfl, H2. split; [lia|]. split; [|done].
           intros Hel. apply electing_in_init in Hel. congruence.
        -- intros cj (Ha & Hb & Hd) _. unfold init_call. rewrite Hfl.
           split; [exact Ha|]. split; [|exact Hd].
           intros Hel. destruct (Hb Hel) as [Hone _]. lia.
        -- rewrite (proj1 (Hocc _)), Hcs.
           destruct (systemcrit (glob s)), (systemcrit g'); done.
        -- rewrite (proj2 (Hocc _)), Hcas, Hfl. done.
Qed.

(** ** The critical section (lines 69-82) *)

Lemma holding_past_init (p : PC) : holding p = true -> in_init p = false.
Proof. by destruct p. Qed.

Lemma step_lock_frame (a : Answer) (i : nat) (g g' : Globals) (c c' : Call)
    (evs : list Event) :
  step_call a i g c = Some (g', c', evs) -> writes_lock (pc c) = false ->
  systemcrit g' = systemcrit g /\ holding (pc c') = holding (pc c).
Proof.
  intros Hstep Hw. unfold step_call in Hstep.
  destruct (pc c) eqn:Hpc; try done; split_step Hstep; by glob_simpl.
Qed.

Lemma reachable_lock_inv (s : State) : reachable s -> lock_inv s.
Proof.
  intros Hs. induction Hs as [dir|s act s' Hs IH Hex] using reachable_ind.
  - split; [|done]. intros i c Hc. simpl in Hc. by rewrite lookup_nil in Hc.
  - destruct IH as [IH Hown].
    apply exec_inv in Hex as [(cmd & j1 & j2 & -> & ->)|
      (i & a & c & g' & c' & evs & -> & Hc & Hstep & ->)].
    + split.
      * intros j cj Hj. apply spawned_lookup in Hj as [[-> ->]|Hj]; [|by apply IH].
        simpl. split; [done|]. intros Ho. apply Hown in Ho. lia.
      * intros o Ho. simpl in *. rewrite length_app. apply Hown in Ho. lia.
    + pose proof (IH i c Hc) as Hic.
      pose proof (lookup_lt_Some _ _ _ Hc) as Hlt.
      destruct (writes_lock (pc c)) eqn:Hw.
      * destruct (reachable_init_inv s Hs) as (_ & Hcalls & _).
        pose proof (Hcalls i c Hc) as (_ & Hel & _).
        unfold step_call in Hstep.
        destruct (pc c) eqn:Hpc; try discriminate; split_step Hstep;
          glob_simpl; (split; [|intros o Ho; simpl; rewrite length_insert;
                                 first [discriminate|injection Ho as <-; exact Hlt]]);
          intros j cj Hj;
          destruct (stepped_lookup _ _ _ _ _ _ Hc Hj) as [[-> ->]|[Hne Hj']];
          proj_simpl; cbn [holding]; try (split; intros; simplify_eq; done).
        -- (* InitializeCriticalSection: nobody holds the section yet *)
           split; [|done]. intros Hh. apply holding_past_init in Hh.
           destruct (Hcalls j cj Hj') as (_ & _ & H2). specialize (H2 Hh).
           destruct (Hel eq_refl) as [H1 _]. lia.
        -- (* EnterCriticalSection *)
           pose proof (IH j cj Hj') as Hjc. split.
           ++ intros Hh. apply Hjc in Hh. congruence.
           ++ intros Ho. simpl in Ho. congruence.
        -- (* LeaveCriticalSection *)
           pose proof (IH j cj Hj') as Hjc. split; [|done].
           intros Hh. apply Hjc in Hh.
           assert (Hi : systemcrit (glob s) = CsOwned i) by (by apply Hic).
           congruence.
      * destruct (step_lock_frame _ _ _ _ _ _ _ Hstep Hw) as [Hsc Hh].
        split.
        -- intros j cj Hj. simpl in *. rewrite Hsc.
           destruct (stepped_lookup _ _ _ _ _ _ Hc Hj) as [[-> ->]|[Hne Hj']].
           ++ rewrite Hh. exact Hic.
           ++ by apply IH.
        -- intros o Ho. simpl in *. rewrite length_insert. rewrite Hsc in Ho. by apply Hown.
Qed.

(** Mutual exclusion: two calls between Enter and Leave are the same call. *)
Lemma holders_equal (s : State) (i j : nat) (ci cj : Call) :
  reachable s -> calls s !! i = Some ci -> calls s !! j = Some cj ->
  holding (pc ci) = true -> holding (pc cj) = true -> i = j.
Proof.
  intros Hs Hi Hj Hhi Hhj. destruct (reachable_lock_inv s Hs) as [Hl _].
  apply (Hl i ci Hi) in Hhi. apply (Hl j cj Hj) in Hhj. congruence.
Qed.

(** ** The submission counter (line 72) *)

Lemma wrap_int_succ (z : Z) : wrap_int (wrap_int z + 1) = wrap_int (z + 1).
Proof.
  unfold wrap_int.
  replace ((z + 2 ^ 31) mod 2 ^ 32 - 2 ^ 31 + 1 + 2 ^ 31)%Z
    with ((z + 2 ^ 31) mod 2 ^ 32 + 1)%Z by lia.
  replace (z + 1 + 2 ^ 31)%Z with ((z + 2 ^ 31) + 1)%Z by lia.
  by rewrite Zplus_mod_idemp_l.
Qed.

Lemma nth_id_succ (n : nat) : wrap_int (nth_id n + 1) = nth_id (S n).
Proof. unfold nth_id. rewrite wrap_int_succ. f_equal. lia. Qed.

Lemma undrawn_holding (p : PC) : undrawn p = true -> holding p = true.
Proof. by destruct p. Qed.

Lemma step_count_frame (a : Answer) (i : nat) (g g' : Globals) (c c' : Call)
    (evs : list Event) :
  step_call a i g c = Some (g', c', evs) -> touches_count (pc c) = false ->
  usecount g' = usecount g /\ undrawn (pc c') = false /\ undrawn (pc c) = false
  /\ draws (map (pair i) evs) = [] /\ acquisitions (map (pair i) evs) = [].
Proof.
  intros Hstep Hw. unfold step_call in Hstep.
  destruct (pc c) eqn:Hpc; try done; split_step Hstep; by glob_simpl.
Qed.

Lemma draws_app (t1 t2 : list (nat * Event)) : draws (t1 ++ t2) = draws t1 ++ draws t2.
Proof. apply omap_app. Qed.

Lemma acquisitions_app (t1 t2 : list (nat * Event)) :
  acquisitions (t1 ++ t2) = acquisitions t1 ++ acquisitions t2.
Proof. apply omap_app. Qed.

Lemma reachable_count_inv (s : State) : reachable s -> count_inv s.
Proof.
  intros Hs. induction Hs as [dir|s act s' Hs IH Hex] using reachable_ind.
  - repeat split; try done. right. split; [|done]. intros i c Hc. simpl in Hc.
    by rewrite lookup_nil in Hc.
  - destruct IH as (Huse & Hids & Hw & Hacq).
    apply exec_inv in Hex as [(cmd & j1 & j2 & -> & ->)|
      (i & a & c & g' & c' & evs & -> & Hc & Hstep & ->)].
    + split; [done|]. split; [done|]. split.
      * intros j cj Hj. apply spawned_lookup in Hj as [[-> ->]|Hj]; [done|by eapply Hw].
      * destruct Hacq as [(j & cj & Hj & Hu & Ha)|[Hall Ha]].
        -- left. exists j, cj. split; [|done]. simpl. by apply lookup_app_l_Some.
        -- right. split; [|done]. intros j cj Hj.
           apply spawned_lookup in Hj as [[-> ->]|Hj]; [done|by eapply Hall].
    + assert (Hmutex : forall j cj, calls s !! j = Some cj -> holding (pc c) = true ->
                                    holding (pc cj) = true -> j = i).
      { intros j cj Hj H1 H2. by eapply (holders_equal s j i cj c). }
      destruct (touches_count (pc c)) eqn:Ht.
      * unfold step_call in Hstep.
        destruct (pc c) eqn:Hpc; try discriminate; split_step Hstep;
          unfold count_inv; glob_simpl; rewrite draws_app, acquisitions_app; simpl;
          rewrite ?app_nil_r.
        -- (* EnterCriticalSection *)
           split; [done|]. split; [done|]. split.
           ++ intros j cj Hj Hpcj.
              destruct (stepped_lookup _ _ _ _ _ _ Hc Hj) as [[-> ->]|[Hne Hj']];
                [done|by eapply Hw].
           ++ left. exists i, (set_pc PCountRead c).
              split; [apply list_lookup_insert_eq; by eapply lookup_lt_Some|].
              split; [done|].
              destruct Hacq as [(j & cj & Hj & Hu & _)|[_ ->]]; [|done].
              apply undrawn_holding in Hu.
              destruct (reachable_lock_inv s Hs) as [Hl _].
              apply (Hl j cj Hj) in Hu. congruence.
        -- (* load of usecount *)
           split; [done|]. split; [done|]. split.
           ++ intros j cj Hj Hpcj.
              destruct (stepped_lookup _ _ _ _ _ _ Hc Hj) as [[-> ->]|[Hne Hj']];
                [done|by eapply Hw].
           ++ left. exists i, (set_pc PCountWrite (set_id (usecount (glob s)) c)).
              split; [apply list_lookup_insert_eq; by eapply lookup_lt_Some|].
              split; [done|].
              destruct Hacq as [(j & cj & Hj & Hu & Ha)|[Hall _]].
              ** apply undrawn_holding in Hu.
                 by rewrite <- (Hmutex j cj Hj eq_refl Hu).
              ** specialize (Hall i c Hc). by rewrite Hpc in Hall.
        -- (* store of usecount *)
           rewrite length_app, Nat.add_1_r, map_app, seq_S, map_app. cbn [map snd fst].
           rewrite (Hw i c Hc Hpc), Huse, nth_id_succ, <- Hids, Nat.add_0_l.
           split; [done|]. split; [done|]. split.
           ++ intros j cj Hj Hpcj.
              destruct (stepped_lookup _ _ _ _ _ _ Hc Hj) as [[-> ->]|[Hne Hj']]; [done|].
              exfalso. apply Hne. apply (Hmutex j cj Hj' eq_refl). by rewrite Hpcj.
           ++ right. split.
              ** intros j cj Hj.
                 destruct (stepped_lookup _ _ _ _ _ _ Hc Hj) as [[-> ->]|[Hne Hj']]; [done|].
                 destruct (undrawn (pc cj)) eqn:Hu; [|done].
                 exfalso. apply Hne. apply (Hmutex j cj Hj' eq_refl).
                 by apply undrawn_holding.
              ** destruct Hacq as [(j & cj & Hj & Hu & Ha)|[Hall _]].
                 --- apply undrawn_holding in Hu.
                     rewrite map_app. cbn [map fst].
                     by rewrite <- (Hmutex j cj Hj eq_refl Hu).
                 --- specialize (Hall i c Hc). by rewrite Hpc in Hall.
      * destruct (step_count_frame _ _ _ _ _ _ _ Hstep Ht) as (Hu & Hc1 & Hc0 & Hd & Ha).
        unfold count_inv. simpl. rewrite draws_app, acquisitions_app, Hd, Ha, !app_nil_r, Hu.
        split; [done|]. split; [done|]. split.
        -- intros j cj Hj Hpc.
           destruct (stepped_lookup _ _ _ _ _ _ Hc Hj) as [[-> ->]|[Hne Hj']].
           ++ by rewrite Hpc in Hc1.
           ++ by eapply Hw.
        -- destruct Hacq as [(j & cj & Hj & Hud & Hacq)|[Hall Hacq]].
           ++ left. exists j, cj. split; [|done].
              rewrite list_lookup_insert_ne; [done|]. intros ->. simplify_eq. congruence.
           ++ right. split; [|done]. intros j cj Hj.
              destruct (stepped_lookup _ _ _ _ _ _ Hc Hj) as [[-> ->]|[Hne Hj']]; [done|].
              by eapply Hall.
Qed.

(** ** Events and the calls that performed them *)

Lemma polls_init (k : nat) : Forall (fun e => is_init_event e = true) (polls k).
Proof. induction k as [|k IH]; simpl; [constructor|]. by repeat constructor. Qed.

Lemma init_hist_init (p : PC) (pre : list Event) :
  init_hist p pre -> Forall (fun e => is_init_event e = true) pre.
Proof.
  assert (Hw : forall v k w, Forall (fun e => is_init_event e = true) (waiter_hist v k w)).
  { intros v k w. unfold waiter_hist. constructor; [done|].
    apply Forall_app. split; [apply polls_init|by repeat constructor]. }
  unfold init_hist.
  destruct p; intros H; subst; try (by repeat constructor);
    try (destruct H as [(? & ->)|(? & ? & ? & _ & _ & ->)];
         [by repeat constructor|apply Hw]).
  - destruct H as (v & k & _ & ->). constructor; [done|apply polls_init].
  - destruct H as (v & k & _ & ->). apply Hw.
Qed.

(** An event of the trace belongs to a call, whose history holds it. *)
Lemma event_in_history (s : State) (i : nat) (e : Event) :
  reachable s -> (i, e) ∈ trace s ->
  exists c pre gone, calls s !! i = Some c /\ init_hist (pc c) pre
                     /\ events_of i (trace s) = pre ++ body c gone
                     /\ (e ∈ pre \/ e ∈ body c gone).
Proof.
  intros Hs Hin. pose proof (events_of_fresh s Hs i e Hin) as Hlt.
  apply lookup_lt_is_Some_2 in Hlt as [c Hc].
  destruct (reachable_call_inv s Hs i c Hc) as (_ & pre & gone & Hpre & Hev).
  exists c, pre, gone. repeat split; try done.
  apply events_of_elem in Hin. rewrite Hev in Hin. by apply elem_of_app in Hin.
Qed.

(** An event of lines 69-103 in the history of a call is one of [path],
    within the stage the call has reached, or one of the early returns. *)
Lemma body_event (c : Call) (gone : option File) (e : Event) :
  e ∈ body c gone ->
  (exists k, k < stage (pc c) /\ path c gone !! k = Some e)
  \/ (exists v, pc c = PDone ExNoPidfile v
                /\ (e = EvFopen (pidfile_name (id c)) None \/ e = EvReturn (-1)))
  \/ (exists v, pc c = PDone ExNoHandle v /\ e = EvReturn (-1)).
Proof.
  unfold body. intros Hin. apply elem_of_app in Hin as [Hin|Hin].
  - left. apply elem_of_take in Hin as (k & Hk & Hlt). by exists k.
  - right. destruct (pc c) as [| | | | | | | | | | | | | | | | | | | | | | | | | |[] v];
      try (by apply elem_of_nil in Hin).
    + left. exists v. split; [done|].
      apply elem_of_cons in Hin as [->|Hin]; [by left|].
      apply list_elem_of_singleton in Hin. by right.
    + right. exists v. split; [done|]. by apply list_elem_of_singleton in Hin.
Qed.

Lemma path_lookup_inv (c : Call) (gone : option File) (k : nat) (e : Event) :
  path c gone !! k = Some e ->
  match k with
  | 0 => e = EvEnter
  | 1 => e = EvCount (id c) (wrap_int (id c + 1))
  | 2 => e = EvStderr (diagnostic (augmented (cmd c) (id c)))
  | 3 => e = EvSystem (augmented (cmd c) (id c)) (ret c)
  | 4 => e = EvLeave
  | 5 => e = EvFopen (pidfile_name (id c)) (f c)
  | 6 => e = EvFread (pidfile_name (id c)) (data_read c)
  | 7 => e = EvFclose (pidfile_name (id c))
  | 8 => e = EvRemove (pidfile_name (id c)) gone
  | 9 => e = EvPidToWinpid (pid c) (winpid c)
  | 10 => e = EvOpenProcess SYNCHRONIZE false (winpid c) (h c)
  | 11 => e = EvWait (h c) INFINITE
  | 12 => e = EvCloseHandle (h c)
  | 13 => e = EvReturn (ret c)
  | _ => False
  end.
Proof.
  unfold path. intros Hk.
  do 14 (destruct k as [|k]; [simpl in Hk; by simplify_eq|]).
  by simpl in Hk.
Qed.

(** ** Identifiers *)

Lemma drawn_in_draws (s : State) (i : nat) (c : Call) :
  reachable s -> calls s !! i = Some c -> has_drawn (pc c) = true ->
  (i, id c) ∈ draws (trace s).
Proof.
  intros Hs Hc Hd. apply Nat.leb_le in Hd.
  destruct (reachable_call_inv s Hs i c Hc) as (_ & pre & gone & Hpre & Hev).
  apply list_elem_of_omap. exists (i, EvCount (id c) (wrap_int (id c + 1))).
  split; [|done]. apply events_of_elem. rewrite Hev. apply elem_of_app. right.
  unfold body. apply elem_of_app. left. apply elem_of_take. exists 1. split; [done|lia].
Qed.

Lemma draws_origin (s : State) (i : nat) (v : Z) :
  reachable s -> (i, v) ∈ draws (trace s) ->
  exists c, calls s !! i = Some c /\ has_drawn (pc c) = true /\ id c = v.
Proof.
  intros Hs Hin. apply list_elem_of_omap in Hin as ([j e] & Hin & Hd).
  unfold draw_of in Hd. simpl in Hd. destruct e; try discriminate. simplify_eq.
  destruct (event_in_history s i _ Hs Hin) as (c & pre & gone & Hc & Hpre & _ & [He|He]).
  - apply init_hist_init in Hpre. rewrite Forall_forall in Hpre. by apply Hpre in He.
  - exists c. split; [done|].
    apply body_event in He as [(k & Hk & Hp)|[(w & _ & [?|?])|(w & _ & ?)]]; try done.
    apply path_lookup_inv in Hp.
    destruct k as [|k]; [discriminate Hp|].
    destruct k as [|k];
      [|do 12 (destruct k as [|k]; [discriminate Hp|]); done].
    simplify_eq. split; [|done]. apply Nat.leb_le. lia.
Qed.

Lemma draws_lookup_id (s : State) (p i : nat) (v : Z) :
  reachable s -> draws (trace s) !! p = Some (i, v) -> v = nth_id p.
Proof.
  intros Hs Hp. destruct (reachable_count_inv s Hs) as (_ & Hids & _).
  assert (Hv : map snd (draws (trace s)) !! p = Some v)
    by (by rewrite list_lookup_fmap, Hp).
  rewrite Hids, list_lookup_fmap in Hv.
  pose proof (lookup_lt_Some _ _ _ Hp) as Hlt.
  rewrite lookup_seq_lt in Hv by done. simpl in Hv. by simplify_eq.
Qed.

Lemma nth_id_small (n : nat) : (Z.of_nat n <= INT_MAX)%Z -> nth_id n = Z.of_nat n.
Proof. intros Hn. apply wrap_int_id. unfold is_int, INT_MIN. lia. Qed.

Lemma nth_id_inj (p q : nat) :
  (Z.of_nat p < 2 ^ 32)%Z -> (Z.of_nat q < 2 ^ 32)%Z ->
  nth_id p = nth_id q -> p = q.
Proof.
  unfold nth_id, wrap_int. intros Hp Hq Heq.
  assert (Hm : ((Z.of_nat p + 2 ^ 31) mod 2 ^ 32 = (Z.of_nat q + 2 ^ 31) mod 2 ^ 32)%Z) by lia.
  clear Heq.
  destruct (Z_lt_le_dec (Z.of_nat p) (2 ^ 31)) as [Hp1|Hp1];
    destruct (Z_lt_le_dec (Z.of_nat q) (2 ^ 31)) as [Hq1|Hq1].
  - rewrite !Z.mod_small in Hm by lia. lia.
  - rewrite (Z.mod_small (Z.of_nat p + _)) in Hm by lia.
    replace (Z.of_nat q + 2 ^ 31)%Z with ((Z.of_nat q - 2 ^ 31) + 1 * 2 ^ 32)%Z in Hm by lia.
    rewrite Z_mod_plus_full, Z.mod_small in Hm by lia. lia.
  - rewrite (Z.mod_small (Z.of_nat q + _)) in Hm by lia.
    replace (Z.of_nat p + 2 ^ 31)%Z with ((Z.of_nat p - 2 ^ 31) + 1 * 2 ^ 32)%Z in Hm by lia.
    rewrite Z_mod_plus_full, Z.mod_small in Hm by lia. lia.
  - replace (Z.of_nat q + 2 ^ 31)%Z with ((Z.of_nat q - 2 ^ 31) + 1 * 2 ^ 32)%Z in Hm by lia.
    replace (Z.of_nat p + 2 ^ 31)%Z with ((Z.of_nat p - 2 ^ 31) + 1 * 2 ^ 32)%Z in Hm by lia.
    rewrite !Z_mod_plus_full, !Z.mod_small in Hm by lia. lia.
Qed.

(** As long as the counter has not come round, two calls hold different
    identifiers and so different pidfile names. *)
Lemma distinct_ids (s : State) (i j : nat) (ci cj : Call) :
  reachable s -> (Z.of_nat (length (draws (trace s))) <= 2 ^ 32)%Z ->
  calls s !! i = Some ci -> calls s !! j = Some cj -> i <> j ->
  has_drawn (pc ci) = true -> has_drawn (pc cj) = true ->
  id ci <> id cj /\ pidfile_name (id ci) <> pidfile_name (id cj).
Proof.
  intros Hs Hk Hi Hj Hne Hdi Hdj.
  pose proof (drawn_in_draws s i ci Hs Hi Hdi) as Hin1.
  pose proof (drawn_in_draws s j cj Hs Hj Hdj) as Hin2.
  apply list_elem_of_lookup_1 in Hin1 as [p Hp], Hin2 as [q Hq].
  pose proof (draws_lookup_id s p i _ Hs Hp) as Hvp.
  pose proof (draws_lookup_id s q j _ Hs Hq) as Hvq.
  pose proof (lookup_lt_Some _ _ _ Hp) as Hlp.
  pose proof (lookup_lt_Some _ _ _ Hq) as Hlq.
  assert (Hids : id ci <> id cj).
  { rewrite Hvp, Hvq. intros Heq. apply nth_id_inj in Heq; [|lia|lia].
    subst q. rewrite Hp in Hq. by simplify_eq. }
  split; [done|]. intros Heq. apply Hids.
  apply pidfile_name_inj; [| |done].
  - rewrite Hvp. apply wrap_int_is_int.
  - rewrite Hvq. apply wrap_int_is_int.
Qed.

(** ** The pidfile (lines 81-90) *)

Lemma step_files_frame (a : Answer) (i : nat) (g g' : Globals) (c c' : Call)
    (evs : list Event) :
  step_call a i g c = Some (g', c', evs) -> writes_files (pc c) = false ->
  files g' = files g
  /\ (has_file (pc c) = true -> has_file (pc c') = true /\ id c' = id c).
Proof.
  intros Hstep Hw. unfold step_call in Hstep.
  destruct (pc c) eqn:Hpc; try done; split_step Hstep; by glob_simpl.
Qed.

Lemma named_c_str (s : State) (i : nat) (c : Call) :
  reachable s -> calls s !! i = Some c -> (3 <=? stage (pc c)) = true ->
  c_str (pidfilename c) = pidfile_name (id c).
Proof.
  intros Hs Hc Hp. destruct (reachable_call_inv s Hs i c Hc) as (Hloc & _).
  unfold locals_ok in Hloc.
  destruct (pc c) as [| | | | | | | | | | | | | | | | | | | | | | | | | |[] v];
    try discriminate; destruct_and?;
    match goal with H : pidfilename c = _ |- _ => rewrite H end;
    apply c_str_name_buf.
Qed.

Lemma reachable_files_inv (s : State) : reachable s -> files_inv s.
Proof.
  intros Hs. induction Hs as [dir|s act s' Hs IH Hex] using reachable_ind.
  - intros n fl j Hn Hw. simpl in Hn. rewrite lookup_fmap in Hn.
    destruct (dir !! n); simpl in Hn; simplify_eq.
  - apply exec_inv in Hex as [(cmd & j1 & j2 & -> & ->)|
      (i & a & c & g' & c' & evs & -> & Hc & Hstep & ->)].
    + intros n fl j Hn Hw. destruct (IH n fl j Hn Hw) as (c & Hc & Hnm & Hf).
      exists c. split; [|done]. simpl. by apply lookup_app_l_Some.
    + pose proof (lookup_lt_Some _ _ _ Hc) as Hlt.
      destruct (writes_files (pc c)) eqn:Hwf.
      * assert (Hname : c_str (pidfilename c) = pidfile_name (id c)).
        { eapply named_c_str; [exact Hs|exact Hc|]. by destruct (pc c). }
        unfold step_call in Hstep.
        destruct (pc c) eqn:Hpc; try discriminate; split_step Hstep;
          intros n fl j Hn Hw; simpl in Hn; rewrite Hname in Hn.
        -- (* system(): the shell may write the pidfile *)
           unfold shell_effect in Hn. destruct (a_shell a) as [bytes|].
           ++ destruct (decide (n = pidfile_name (id c))) as [->|Hne].
              ** rewrite lookup_insert_eq in Hn. simplify_eq. simpl in Hw. simplify_eq.
                 eexists. split; [by apply list_lookup_insert_eq|]. done.
              ** rewrite lookup_insert_ne in Hn by done.
                 destruct (IH n fl j Hn Hw) as (cj & Hj & Hnm & Hf).
                 exists cj. split; [|done]. simpl.
                 rewrite list_lookup_insert_ne; [done|].
                 intros ->; simplify_eq; try (by rewrite Hpc in Hf).
           ++ destruct (IH n fl j Hn Hw) as (cj & Hj & Hnm & Hf).
              exists cj. split; [|done]. simpl.
              rewrite list_lookup_insert_ne; [done|].
              intros ->; simplify_eq; try (by rewrite Hpc in Hf).
        -- (* remove() *)
           destruct (decide (n = pidfile_name (id c))) as [->|Hne].
           ++ by rewrite lookup_delete_eq in Hn.
           ++ rewrite lookup_delete_ne in Hn by done.
              destruct (IH n fl j Hn Hw) as (cj & Hj & Hnm & Hf).
              exists cj. split; [|done]. simpl.
              rewrite list_lookup_insert_ne; [done|]. intros ->. by simplify_eq.
      * destruct (step_files_frame _ _ _ _ _ _ _ Hstep Hwf) as [Hfs Hkeep].
        intros n fl j Hn Hw. simpl in Hn. rewrite Hfs in Hn.
        destruct (IH n fl j Hn Hw) as (cj & Hj & Hnm & Hf). simpl.
        destruct (decide (j = i)) as [->|Hne].
        -- simplify_eq. destruct (Hkeep Hf) as [Hf' Hid].
           exists c'. split; [by apply list_lookup_insert_eq|]. by rewrite Hid.
        -- exists cj. by rewrite list_lookup_insert_ne.
Qed.

(** After remove(), no file written by the call's shell is left. *)
Lemma no_residue (s : State) (i : nat) (c : Call) :
  reachable s -> calls s !! i = Some c -> cleaned (pc c) = true ->
  forall n fl, files (glob s) !! n = Some fl -> writer fl <> Some i.
Proof.
  intros Hs Hc Hcl n fl Hn Hw.
  destruct (reachable_files_inv s Hs n fl i Hn Hw) as (c0 & Hc0 & _ & Hf).
  rewrite Hc in Hc0. injection Hc0 as <-.
  destruct (pc c) as [| | | | | | | | | | | | | | | | | | | | | | | | | |[] v]; done.
Qed.

(** ** Whose file a call opens and removes *)

Lemma has_file_drawn (p : PC) : has_file p = true -> has_drawn p = true.
Proof. destruct p as [| | | | | | | | | | | | | | | | | | | | | | | | | |[] v]; done. Qed.

Lemma draws_grow (s s' : State) (act : Action) :
  exec act s = Some s' -> length (draws (trace s)) <= length (draws (trace s')).
Proof.
  intros Hex. apply exec_inv in Hex as [(cmd & j1 & j2 & -> & ->)|
      (i & a & c & g' & c' & evs & -> & Hc & Hstep & ->)]; simpl; [done|].
  rewrite draws_app, length_app. lia.
Qed.

Lemma reachable_file_events_own (s : State) :
  reachable s -> (Z.of_nat (length (draws (trace s))) <= 2 ^ 32)%Z ->
  file_events_own s.
Proof.
  intros Hs. induction Hs as [dir|s act s' Hs IH Hex] using reachable_ind.
  - intros _ i n fl j [Hin|Hin]; by apply elem_of_nil in Hin.
  - intros Hk. pose proof (draws_grow _ _ _ Hex) as Hgrow.
    assert (Hk0 : (Z.of_nat (length (draws (trace s))) <= 2 ^ 32)%Z) by lia.
    specialize (IH Hk0).
    apply exec_inv in Hex as [(cmd & j1 & j2 & -> & ->)|
      (i & a & c & g' & c' & evs & -> & Hc & Hstep & ->)]; [exact IH|].
    assert (Hfound : forall fl j, files (glob s) !! c_str (pidfilename c) = Some fl ->
              has_drawn (pc c) = true -> (3 <=? stage (pc c)) = true ->
              writer fl = Some j -> j = i).
    { intros fl j Hfl Hd H3 Hw.
      rewrite (named_c_str s i c Hs Hc H3) in Hfl.
      destruct (reachable_files_inv s Hs _ fl j Hfl Hw) as (cj & Hj & Hnm & Hf).
      destruct (decide (j = i)) as [|Hne]; [done|]. exfalso.
      apply has_file_drawn in Hf.
      by destruct (distinct_ids s j i cj c Hs Hk0 Hj Hc Hne Hf Hd) as [_ Hnn]. }
    intros i0 n fl j Hin Hw. simpl in Hin.
    rewrite !elem_of_app in Hin.
    destruct Hin as [[Hin|Hin]|[Hin|Hin]]; try (by eapply IH; eauto).
    + apply list_elem_of_fmap in Hin as (e & Heq & Hin). simplify_eq.
      unfold step_call in Hstep.
      destruct (pc c) eqn:Hpc; split_step Hstep;
        repeat (apply elem_of_cons in Hin as [Hin|Hin]; [try discriminate|]);
        try (by apply elem_of_nil in Hin).
      simplify_eq. by eapply Hfound.
    + apply list_elem_of_fmap in Hin as (e & Heq & Hin). simplify_eq.
      unfold step_call in Hstep.
      destruct (pc c) eqn:Hpc; split_step Hstep;
        repeat (apply elem_of_cons in Hin as [Hin|Hin]; [try discriminate|]);
        try (by apply elem_of_nil in Hin).
      simplify_eq. by eapply Hfound.
Qed.

(** ** The history of one call, by position *)

Lemma own_history (s : State) (i : nat) (c : Call) :
  reachable s -> calls s !! i = Some c ->
  exists pre gone, Forall (fun e => is_init_event e = true) pre
                   /\ events_of i (trace s) = pre ++ body c gone.
Proof.
  intros Hs Hc. destruct (reachable_call_inv s Hs i c Hc) as (_ & pre & gone & Hpre & Hev).
  exists pre, gone. split; [by eapply init_hist_init|done].
Qed.

Lemma history_split (s : State) (i : nat) (c : Call) (k : nat) (e : Event) :
  reachable s -> calls s !! i = Some c ->
  events_of i (trace s) !! k = Some e -> is_init_event e = false ->
  exists pre gone m, events_of i (trace s) = pre ++ body c gone
                     /\ k = length pre + m /\ body c gone !! m = Some e.
Proof.
  intros Hs Hc Hk He. destruct (own_history s i c Hs Hc) as (pre & gone & Hpre & Hev).
  exists pre, gone, (k - length pre). split; [done|].
  rewrite Hev in Hk. apply lookup_app_Some in Hk as [Hk|[Hge Hk]].
  - apply list_elem_of_lookup_2 in Hk. rewrite Forall_forall in Hpre.
    apply Hpre in Hk. congruence.
  - split; [lia|done].
Qed.

(** The events of lines 69-103 of a call, spelled out per program point. *)
Ltac body_cases c :=
  unfold body, path in *;
  destruct (pc c) as [| | | | | | | | | | | | | | | | | | | | | | | | | |[] ?];
  cbn [stage take app] in *.

Ltac index_cases m H :=
  repeat (destruct m as [|m]; cbn in H; [try discriminate H|try discriminate H]).

Lemma body_system_then_leave (c : Call) (gone : option File) (m : nat)
    (command : list ascii) (status : Z) :
  body c gone !! m = Some (EvSystem command status) ->
  m = 3 /\ command = augmented (cmd c) (id c) /\ status = ret c
  /\ (body c gone !! 4 = Some EvLeave \/ (pc c = PLeave /\ body c gone !! 4 = None)).
Proof.
  intros Hm. body_cases c; index_cases m Hm; simplify_eq;
    (split; [done|]); (split; [done|]); (split; [done|]);
    first [by left | by right].
Qed.

Lemma body_leave_first (c : Call) (gone : option File) (m : nat) (e : Event) :
  body c gone !! m = Some e -> after_release e = true ->
  4 < m /\ body c gone !! 4 = Some EvLeave.
Proof.
  intros Hm He. body_cases c; index_cases m Hm; simplify_eq; try discriminate He;
    (split; [lia|done]).
Qed.


Lemma filter_init_nil (k : Event -> bool) (pre : list Event) :
  (forall e, is_init_event e = true -> k e = false) ->
  Forall (fun e => is_init_event e = true) pre ->
  filter (fun e => k e = true) pre = [].
Proof.
  intros Hk Hpre. induction Hpre as [|e pre He Hpre IH]; [done|].
  rewrite filter_cons_False; [done|]. rewrite (Hk e He). done.
Qed.

(** ** Sample runs *)

Ltac by_run acts := exists ∅, acts; vm_compute; reflexivity.

(** ** C1: the submission *)



(** ** C3: no pidfile *)

(** C3. When fopen() cannot open the call's pidfile (there is none under
    its name, or the open is refused), the call returns -1 at once: its
    last two events are the failed fopen and the return of -1, it moves
    from line 85 straight to the return without reaching lines 88-101
    (no read, no atoi, no pid translation, no OpenProcess, no wait), it
    leaves the globals as they are, and it performs no further action. *)
Theorem no_pidfile_aborts (s : State) (i : nat) (c : Call) (a : Answer) :
  reachable s -> calls s !! i = Some c -> pc c = PFopen ->
  (files (glob s) !! (cs "_yafu_system_." ++ fmt_d (id c)) = None \/ a_fopen a = false) ->
  exists s',
    exec (Run i a) s = Some s'
    /\ calls s' !! i = Some (set_pc (PDone ExNoPidfile (-1)) c)
    /\ glob s' = glob s
    /\ events_of i (trace s')
       = events_of i (trace s)
         ++ [EvFopen (cs "_yafu_system_." ++ fmt_d (id c)) None; EvReturn (-1)]
    /\ Forall (fun e => uses_pidfile_or_handle e = false) (events_of i (trace s'))
    /\ (forall a', exec (Run i a') s' = None).
Proof.
  intros Hs Hc Hpc Hno.
  assert (Hname : c_str (pidfilename c) = pidfile_name (id c)).
  { eapply named_c_str; [exact Hs|exact Hc|]. by rewrite Hpc. }
  assert (Hstep : step_call a i (glob s) c
                  = Some (glob s, set_pc (PDone ExNoPidfile (-1)) c,
                          [EvFopen (pidfile_name (id c)) None; EvReturn (-1)])).
  { unfold step_call. rewrite Hpc, Hname. cbn zeta.
    destruct Hno as [Hno|Hno].
    - unfold pidfile_name, pidfile_prefix. by rewrite Hno.
    - rewrite Hno. by destruct (files (glob s) !! pidfile_name (id c)). }
  pose proof (lookup_lt_Some _ _ _ Hc) as Hlt.
  exists (stepped i (glob s) (set_pc (PDone ExNoPidfile (-1)) c)
            [EvFopen (pidfile_name (id c)) None; EvReturn (-1)] s).
  split; [simpl; by rewrite Hc, Hstep|].
  split; [simpl; by apply list_lookup_insert_eq|]. split; [done|].
  unfold stepped; cbn [trace calls].
  assert (Hev : events_of i (trace s ++ map (pair i)
                  [EvFopen (pidfile_name (id c)) None; EvReturn (-1)])
                = events_of i (trace s)
                  ++ [EvFopen (pidfile_name (id c)) None; EvReturn (-1)])
    by (by rewrite events_of_app, events_of_own).
  split; [exact Hev|]. split.
  - rewrite Hev. apply Forall_app. split; [|by repeat constructor].
    destruct (own_history s i c Hs Hc) as (pre & gone & Hpre & ->).
    apply Forall_app. split.
    + eapply Forall_impl; [exact Hpre|]. by intros [].
    + unfold body, path. rewrite Hpc. cbn [stage take app]. by repeat constructor.
  - intros a'. simpl. rewrite list_lookup_insert_eq by done. done.
Qed.

Lemma no_pidfile_aborts_witness :
  reachable stuck_state /\ calls stuck_state !! 0 = Some stuck_call
  /\ pc stuck_call = PFopen
  /\ exists s', exec (Run 0 no_pidfile_answer) stuck_state = Some s'
                /\ calls s' !! 0 = Some (set_pc (PDone ExNoPidfile (-1)) stuck_call).
Proof.
  assert (Hr : reachable stuck_state)
    by (by_run (one_call (cs "true") no_pidfile_answer 14)).
  assert (Hl : calls stuck_state !! 0 = Some stuck_call) by (vm_compute; reflexivity).
  assert (Hp : pc stuck_call = PFopen) by (vm_compute; reflexivity).
  split; [exact Hr|]. split; [exact Hl|]. split; [exact Hp|].
  destruct (no_pidfile_aborts stuck_state 0 stuck_call no_pidfile_answer Hr Hl Hp)
    as (s' & Hex & Hc' & _); [left; vm_compute; reflexivity|].
  exists s'. by split.
Defined.

(** ** C5: the extent of the critical section *)

Lemma holding_steps (p : PC) : holding p = true -> 1 <= hold_steps p.
Proof. destruct p; simpl; try discriminate; lia. Qed.

(** One action of a call inside the critical section: it is never blocked,
    performs no event of lines 85-103, and either stays inside, one action
    nearer to the release, or is the release. *)
Lemma hold_step (s : State) (i : nat) (c : Call) (a : Answer) :
  calls s !! i = Some c -> holding (pc c) = true ->
  exists g' c' evs,
    exec (Run i a) s = Some (stepped i g' c' evs s)
    /\ Forall (fun e => after_release e = false) evs
    /\ ((holding (pc c') = true /\ S (hold_steps (pc c')) = hold_steps (pc c))
        \/ (pc c = PLeave /\ pc c' = PFopen /\ systemcrit g' = CsFree
            /\ evs = [EvLeave])).
Proof.
  intros Hc Hh. unfold exec. rewrite Hc. unfold step_call.
  destruct (pc c) eqn:Hpc; try discriminate Hh;
    eexists; eexists; eexists; (split; [reflexivity|]);
    (split; [by repeat constructor|]);
    first [by left | by right].
Qed.

(** From any program point inside the critical section the call reaches
    LeaveCriticalSection by its own actions alone. *)
Lemma hold_run (i : nat) (a : Answer) (n : nat) :
  forall s c, calls s !! i = Some c -> holding (pc c) = true ->
    hold_steps (pc c) = S n ->
    exists s' c' evs,
      run (repeat (Run i a) (S n)) s = Some s'
      /\ calls s' !! i = Some c' /\ pc c' = PFopen
      /\ systemcrit (glob s') = CsFree
      /\ trace s' = trace s ++ map (pair i) evs
      /\ Forall (fun e => after_release e = false) evs
      /\ last evs = Some EvLeave.
Proof.
  induction n as [|n IH]; intros s c Hc Hh Hn;
    pose proof (lookup_lt_Some _ _ _ Hc) as Hlt;
    destruct (hold_step s i c a Hc Hh) as (g' & c' & evs & Hex & Hev & Hnext);
    cbn [repeat run]; rewrite Hex.
  - destruct Hnext as [[Hh' Hs']|(_ & Hpc' & Hfree & ->)].
    { pose proof (holding_steps _ Hh'). lia. }
    exists (stepped i g' c' [EvLeave] s), c', [EvLeave].
    split; [done|]. split; [by apply list_lookup_insert_eq|]. by repeat split.
  - destruct Hnext as [[Hh' Hs']|(Hpc & _)].
    + assert (Hc' : calls (stepped i g' c' evs s) !! i = Some c')
        by (by apply list_lookup_insert_eq).
      destruct (IH _ c' Hc' Hh' ltac:(lia))
        as (s2 & c2 & evs2 & Hrun & Hc2 & Hpc2 & Hfree2 & Htr2 & Hev2 & Hlast2).
      exists s2, c2, (evs ++ evs2).
      split; [exact Hrun|]. split; [exact Hc2|]. split; [exact Hpc2|].
      split; [exact Hfree2|]. split.
      { rewrite Htr2. cbn [stepped trace]. by rewrite map_app, app_assoc. }
      split; [by apply Forall_app|].
      destruct evs2 as [|e2 evs2]; [done|]. by rewrite last_app, Hlast2.
    + rewrite Hpc in Hn. discriminate Hn.
Qed.

Lemma body_released (c : Call) (gone : option File) :
  (5 <=? stage (pc c)) = true ->
  body c gone !! 3 = Some (EvSystem (augmented (cmd c) (id c)) (ret c))
  /\ body c gone !! 4 = Some EvLeave.
Proof. intros Hst. by body_cases c. Qed.

(** C5. A call owns the critical section exactly at the program points
    from line 72 to line 82, so not when it opens or reads the pidfile or
    waits on the handle.  From every such point the call reaches
    LeaveCriticalSection by at most eight actions of its own, whatever the
    environment answers: it is never blocked inside, it performs no event
    of lines 85-103 there, and the last of these actions is the release,
    which leaves the section free and the call in front of fopen().  In the
    history of a call the submission by system() is followed at once by
    LeaveCriticalSection, every event of lines 85-103 comes after that
    release, and a call that has reached line 85 has made that submission
    and that release. *)
Theorem lock_covers_submission_only (s : State) (i : nat) (c : Call) :
  reachable s -> calls s !! i = Some c ->
  (systemcrit (glob s) = CsOwned i <-> holding (pc c) = true)
  /\ (pc c = PFopen \/ pc c = PFread \/ pc c = PWait -> systemcrit (glob s) <> CsOwned i)
  /\ (forall k command status,
        events_of i (trace s) !! k = Some (EvSystem command status) ->
        events_of i (trace s) !! S k = Some EvLeave
        \/ (pc c = PLeave /\ events_of i (trace s) !! S k = None))
  /\ (forall k e, events_of i (trace s) !! k = Some e -> after_release e = true ->
        exists k', k' < k /\ events_of i (trace s) !! k' = Some EvLeave)
  /\ (forall a, pc c = PLeave ->
        step_call a i (glob s) c
        = Some (set_systemcrit CsFree (glob s), set_pc PFopen c, [EvLeave]))
  /\ (forall a, holding (pc c) = true ->
        exists s' c' evs,
          run (repeat (Run i a) (hold_steps (pc c))) s = Some s'
          /\ hold_steps (pc c) <= 8
          /\ calls s' !! i = Some c' /\ pc c' = PFopen
          /\ systemcrit (glob s') = CsFree
          /\ trace s' = trace s ++ map (pair i) evs
          /\ Forall (fun e => after_release e = false) evs
          /\ last evs = Some EvLeave)
  /\ ((5 <=? stage (pc c)) = true ->
        systemcrit (glob s) <> CsOwned i
        /\ exists k,
             events_of i (trace s) !! k
             = Some (EvSystem (c_str (cmd c) ++ cs " & echo -n $! > "
                               ++ cs "_yafu_system_." ++ fmt_d (id c)) (ret c))
             /\ events_of i (trace s) !! S k = Some EvLeave).
Proof.
  intros Hs Hc. destruct (reachable_lock_inv s Hs) as [Hl _].
  pose proof (Hl i c Hc) as Hic.
  split; [by symmetry|]. split; [|split; [|split; [|split; [|split]]]].
  - intros Hpc Ho. apply Hic in Ho.
    destruct Hpc as [E|[E|E]]; rewrite E in Ho; discriminate.
  - intros k command status Hk.
    destruct (history_split s i c k _ Hs Hc Hk eq_refl) as (pre & gone & m & E & -> & Hm).
    apply body_system_then_leave in Hm as (-> & _ & _ & Hnext).
    rewrite E. replace (S (length pre + 3)) with (length pre + 4) by lia.
    rewrite lookup_app_r by lia. replace (length pre + 4 - length pre) with 4 by lia.
    destruct Hnext as [Hn|[Hpc Hn]]; [by left|by right].
  - intros k e Hk He.
    destruct (history_split s i c k e Hs Hc Hk) as (pre & gone & m & E & -> & Hm).
    { by destruct e. }
    apply body_leave_first in Hm as [Hlt Hfour]; [|done].
    exists (length pre + 4). split; [lia|]. rewrite E, lookup_app_r by lia.
    by replace (length pre + 4 - length pre) with 4 by lia.
  - intros a Hpc. unfold step_call. by rewrite Hpc.
  - intros a Hh. pose proof (holding_steps _ Hh) as Hge.
    destruct (hold_steps (pc c)) as [|n] eqn:Hn; [lia|].
    destruct (hold_run i a n s c Hc Hh Hn)
      as (s' & c' & evs & Hrun & Hc' & Hpc' & Hfree & Htr & Hev & Hlast).
    exists s', c', evs. split; [exact Hrun|]. split.
    { rewrite <- Hn. clear. destruct (pc c); simpl; lia. }
    by repeat split.
  - intros Hst. split.
    + intros Ho. apply Hic in Ho. by destruct (pc c) as [| | | | | | | | | | | | | | | | | | | | | | | | | |[] ?].
    + destruct (own_history s i c Hs Hc) as (pre & gone & Hpre & Hev).
      destruct (body_released c gone Hst) as [H3 H4].
      exists (length pre + 3). rewrite Hev. split.
      * rewrite lookup_app_r by lia.
        by replace (length pre + 3 - length pre) with 3 by lia.
      * replace (S (length pre + 3)) with (length pre + 4) by lia.
        rewrite lookup_app_r by lia.
        by replace (length pre + 4 - length pre) with 4 by lia.
Qed.

Lemma lock_covers_submission_only_witness :
  reachable contended_state
  /\ systemcrit (glob contended_state) = CsOwned 1
  /\ run (repeat (Run 1 demo_answer) 8) contended_state = Some released_state
  /\ systemcrit (glob released_state) = CsFree
  /\ events_of 1 (trace released_state)
     = [EvCas 1; EvPoll 1; EvUsleep 10000; EvPoll 2; EvEnter; EvCount 0 1;
        EvStderr (cs "*SYSTEM* >>sleep 2 & echo -n $! > _yafu_system_.0<<" ++ ["010"%char]);
        EvSystem (cs "sleep 2 & echo -n $! > _yafu_system_.0") 0; EvLeave].
Proof.
  assert (Hr : reachable contended_state) by (by_run contended_actions).
  pose (c1 := default (enter_call [] [] []) (calls contended_state !! 1)).
  assert (Hc : calls contended_state !! 1 = Some c1) by (vm_compute; reflexivity).
  assert (Hh : holding (pc c1) = true) by (vm_compute; reflexivity).
  assert (Hn : hold_steps (pc c1) = 8) by (vm_compute; reflexivity).
  destruct (lock_covers_submission_only contended_state 1 c1 Hr Hc)
    as (Hown & _ & _ & _ & _ & Hrun & _).
  destruct (Hrun demo_answer Hh) as (s' & c' & evs & Hrun' & _ & _ & _ & Hfree & _).
  rewrite Hn in Hrun'.
  assert (Hs' : run (repeat (Run 1 demo_answer) 8) contended_state = Some released_state)
    by (vm_compute; reflexivity).
  assert (Heq : s' = released_state) by congruence. subst s'.
  split; [exact Hr|]. split; [by apply Hown|]. split; [exact Hrun'|].
  split; [exact Hfree|]. vm_compute. reflexivity.
Defined.

(** ** C6: the plain build *)

(** C6. Without the hazard, safe_system(cmd) is system(cmd): the result is
    the status of the native call, the only events are that call with the
    caller's string as it is and the return, and the globals (flag,
    critical section, counter, directory) are not touched. *)
Theorem plain_build_passthrough (a : Answer) (g : Globals) (cmd : list ascii) :
  let '(g', r, evs) := safe_system_plain a g cmd in
  r = a_status a /\ g' = g
  /\ evs = [EvSystem (c_str cmd) r; EvReturn r]
  /\ Forall (fun e => is_system e || is_return e = true) evs.
Proof. simpl. repeat split. by repeat constructor. Qed.

(** ** C2: OpenProcess fails *)

(** What line 97-99 do with the value OpenProcess returns. *)
Lemma open_process_step (a : Answer) (i : nat) (g : Globals) (c : Call) :
  pc c = POpenProcess ->
  let hv := match a_handle a with Some v => v | None => NULL end in
  step_call a i g c
  = if decide (hv = INVALID_HANDLE_VALUE)
    then Some (g, set_pc (PDone ExNoHandle (-1)) (set_h hv c),
               [EvOpenProcess SYNCHRONIZE false (winpid c) hv; EvReturn (-1)])
    else Some (g, set_pc PWait (set_h hv c),
               [EvOpenProcess SYNCHRONIZE false (winpid c) hv]).
Proof. intros Hpc. unfold step_call. by rewrite Hpc. Qed.

(** C2. The handle is requested with SYNCHRONIZE only; but when
    OpenProcess fails (it returns NULL), the comparison with
    INVALID_HANDLE_VALUE of line 98 does not hold, so the call goes on to
    WaitForSingleObject and CloseHandle on the NULL handle and returns the
    status of system() (here 0), not -1. *)
Theorem open_failure_not_reported :
  exists s c,
    run (one_call (cs "true") no_handle_answer 24) (initial ∅) = Some s
    /\ calls s !! 0 = Some c
    /\ pc c = PDone ExWaited 0
    /\ skipn 12 (events_of 0 (trace s))
       = [EvPidToWinpid 1234 5678;
          EvOpenProcess SYNCHRONIZE false 5678 NULL;
          EvWait NULL INFINITE; EvCloseHandle NULL; EvReturn 0].
Proof.
  eexists _, _. split; [vm_compute; reflexivity|].
  split; [vm_compute; reflexivity|]. split; vm_compute; reflexivity.
Qed.

(** ** C8: one-time initialisation *)

Lemma reachable_flag_values (s : State) :
  reachable s -> forall i e, (i, e) ∈ trace s -> flag_value_ok e.
Proof.
  intros Hs. induction Hs as [dir|s act s' Hs IH Hex] using reachable_ind.
  - intros i e Hin. by apply elem_of_nil in Hin.
  - apply exec_inv in Hex as [(cmd & j1 & j2 & -> & ->)|
      (i & a & c & g' & c' & evs & -> & Hc & Hstep & ->)]; [exact IH|].
    intros j e Hin. simpl in Hin. apply elem_of_app in Hin as [Hin|Hin]; [by eapply IH|].
    apply list_elem_of_fmap in Hin as (e' & Heq & Hin). simplify_eq.
    destruct (reachable_init_inv s Hs) as (Hflag & Hcalls & _).
    destruct (Hcalls i c Hc) as (H0 & Hel & _). destruct Hflag as (Hrange & _).
    unfold step_call in Hstep.
    destruct (pc c) eqn:Hpc; split_step Hstep;
      repeat (apply elem_of_cons in Hin as [->|Hin]; [|]);
      try (by apply elem_of_nil in Hin); try exact I; simpl; try lia.
    + destruct (Hel eq_refl) as (_ & _ & Hft). rewrite (Hft eq_refl). done.
    + assert (initializing (glob s) <> 0%Z) by (intros Hz; by specialize (H0 Hz)). lia.
Qed.

Lemma polls_elem (k : nat) (e : Event) :
  e ∈ polls k -> e = EvPoll 1 \/ e = EvUsleep SLEEP_US.
Proof.
  induction k as [|k IH]; simpl; intros Hin; [by apply elem_of_nil in Hin|].
  apply elem_of_cons in Hin as [->|Hin]; [by left|].
  apply elem_of_cons in Hin as [->|Hin]; [by right|by apply IH].
Qed.

Lemma waiter_hist_elem (v : Z) (k : nat) (w : Z) (e : Event) :
  e ∈ waiter_hist v k w ->
  e = EvCas v \/ e = EvPoll 1 \/ e = EvUsleep SLEEP_US \/ e = EvPoll w.
Proof.
  unfold waiter_hist. intros Hin. apply elem_of_cons in Hin as [->|Hin]; [by left|].
  apply elem_of_app in Hin as [Hin|Hin].
  - apply polls_elem in Hin as [->| ->]; auto.
  - apply list_elem_of_singleton in Hin. auto.
Qed.

(** The events a call performs on lines 54-60. *)
Lemma init_hist_elem (p : PC) (pre : list Event) (e : Event) :
  init_hist p pre -> e ∈ pre ->
  (e = EvCas 0 /\ EvCas 0 ∈ pre) \/ (e = EvInitCS /\ EvCas 0 ∈ pre)
  \/ (exists v, e = EvFlag v /\ EvCas 0 ∈ pre)
  \/ (exists v, e = EvCas v) \/ (exists w, e = EvPoll w) \/ e = EvUsleep SLEEP_US.
Proof.
  assert (Hw : forall v k w, e ∈ waiter_hist v k w ->
            (exists v, e = EvCas v) \/ (exists w, e = EvPoll w) \/ e = EvUsleep SLEEP_US).
  { intros v k w Hin. apply waiter_hist_elem in Hin as [->|[->|[->| ->]]]; eauto. }
  assert (He : forall v, e ∈ elected_hist v ->
            (e = EvCas 0 /\ EvCas 0 ∈ elected_hist v) \/ (e = EvInitCS /\ EvCas 0 ∈ elected_hist v)
            \/ (exists v0, e = EvFlag v0 /\ EvCas 0 ∈ elected_hist v)).
  { intros v Hin. unfold elected_hist in *.
    repeat (apply elem_of_cons in Hin as [->|Hin]);
      [left|right; left|right; right; exists v|by apply elem_of_nil in Hin];
      (split; [done|apply list_elem_of_here]). }
  unfold init_hist. intros Hpre Hin.
  destruct p; subst;
    try (destruct Hpre as [(v0 & ->)|(v0 & k0 & w0 & _ & _ & ->)];
         [apply He in Hin; tauto|apply Hw in Hin; tauto]).
  - by apply elem_of_nil in Hin.
  - apply list_elem_of_singleton in Hin as ->. left. split; [done|apply list_elem_of_here].
  - repeat (apply elem_of_cons in Hin as [->|Hin]); [| |by apply elem_of_nil in Hin];
      [left|right; left]; (split; [done|apply list_elem_of_here]).
  - repeat (apply elem_of_cons in Hin as [->|Hin]); [| |by apply elem_of_nil in Hin];
      [left|right; left]; (split; [done|apply list_elem_of_here]).
  - destruct Hpre as (v & k & _ & ->).
    apply elem_of_cons in Hin as [->|Hin];
      [right; right; right; left; by eexists|].
    apply polls_elem in Hin as [->| ->];
      [right; right; right; right; left; by eexists|by repeat right].
  - destruct Hpre as (v & k & _ & ->). apply Hw in Hin. tauto.
Qed.

Lemma body_no_init_event (c : Call) (gone : option File) :
  Forall (fun e => is_init_event e = false) (body c gone).
Proof. body_cases c; by repeat constructor. Qed.

(** C8. The flag takes the values 0, 1, 2 only; InitializeCriticalSection
    is called at most once, and only by the call whose compare-and-exchange
    found 0, of which there is at most one; whenever a call is past lines
    54-60 the flag is 2, the critical section is initialised, and it has
    been initialised exactly once; a call that is past those lines either
    performed the initialisation and stored 2, or found the flag set, slept
    10000 microseconds each time it read 1, and went on when it read 2. *)
Theorem one_time_initialisation (s : State) :
  reachable s ->
  (initializing (glob s) = 0 \/ initializing (glob s) = 1 \/ initializing (glob s) = 2)%Z
  /\ occurrences is_init_cs (trace s) <= 1
  /\ (forall i j, (i, EvCas 0) ∈ trace s -> (j, EvCas 0) ∈ trace s -> i = j)
  /\ (forall i, (i, EvInitCS) ∈ trace s -> (i, EvCas 0) ∈ trace s)
  /\ (forall i c, calls s !! i = Some c -> in_init (pc c) = false ->
        initializing (glob s) = 2%Z /\ systemcrit (glob s) <> CsRaw
        /\ occurrences is_init_cs (trace s) = 1
        /\ exists pre rest,
             events_of i (trace s) = pre ++ rest
             /\ Forall (fun e => is_init_event e = false) rest
             /\ (pre = [EvCas 0; EvInitCS; EvFlag 2]
                 \/ exists v k, (v = 1 \/ v = 2)%Z
                      /\ pre = EvCas v :: polls k ++ [EvPoll 2]))
  /\ (forall i c, calls s !! i = Some c -> pc c = PSleep ->
        last (events_of i (trace s)) = Some (EvPoll 1))
  /\ (forall i us, (i, EvUsleep us) ∈ trace s -> us = 10000%Z).
Proof.
  intros Hs. destruct (reachable_init_inv s Hs) as (Hflag & Hcalls & Hcs & Hcas).
  destruct Hflag as (Hrange & Hraw0 & Hraw2).
  split; [exact Hrange|]. split; [rewrite Hcs; destruct (systemcrit (glob s)); lia|].
  split; [|split; [|split; [|split]]].
  - intros i j Hi Hj.
    assert (Hle : occurrences is_cas_won (trace s) <= 1)
      by (rewrite Hcas; destruct (decide (initializing (glob s) = 0%Z)); lia).
    by injection (occurrences_unique _ _ _ _ Hle Hi Hj eq_refl eq_refl).
  - intros i Hin.
    destruct (event_in_history s i _ Hs Hin) as (c & pre & gone & Hc & Hpre & Hev & [He|He]).
    + apply events_of_elem. rewrite Hev. apply elem_of_app. left.
      destruct (init_hist_elem _ _ _ Hpre He)
        as [[_ ?]|[[_ ?]|[(? & _ & ?)|[(? & ?)|[(? & ?)|?]]]]]; done.
    + pose proof (body_no_init_event c gone) as Hb. rewrite Forall_forall in Hb.
      by apply Hb in He.
  - intros i c Hc Hin. destruct (Hcalls i c Hc) as (_ & _ & H2). specialize (H2 Hin).
    split; [done|]. split; [by apply Hraw2|].
    split; [rewrite Hcs; specialize (Hraw2 H2); by destruct (systemcrit (glob s))|].
    destruct (reachable_call_inv s Hs i c Hc) as (_ & pre & gone & Hpre & Hev).
    exists pre, (body c gone). split; [done|]. split.
    { apply body_no_init_event. }
    assert (Hvals : forall e, e ∈ pre -> flag_value_ok e).
    { intros e He. eapply (reachable_flag_values s Hs i). apply events_of_elem.
      rewrite Hev. apply elem_of_app. by left. }
    unfold init_hist in Hpre.
    destruct (pc c); try discriminate Hin;
      (destruct Hpre as [(v0 & ->)|(v0 & k0 & w0 & Hv & Hw & ->)];
       [left;
        assert (Hx : flag_value_ok (EvFlag v0))
          by (apply Hvals; unfold elected_hist; by repeat constructor);
        simpl in Hx; by subst v0
       |right; exists v0, k0;
        assert (Hx : flag_value_ok (EvCas v0)) by (apply Hvals; apply list_elem_of_here);
        assert (Hy : flag_value_ok (EvPoll w0))
          by (apply Hvals; unfold waiter_hist; apply elem_of_cons; right;
              apply elem_of_app; right; apply list_elem_of_here);
        simpl in Hx, Hy; (split; [lia|]); unfold waiter_hist;
        by replace w0 with 2%Z by lia]).
  - intros i c Hc Hpc.
    destruct (reachable_call_inv s Hs i c Hc) as (_ & pre & gone & Hpre & Hev).
    rewrite Hpc in Hpre. simpl in Hpre. destruct Hpre as (v & k & _ & ->).
    rewrite Hev. unfold body. rewrite Hpc. cbn [stage take app]. rewrite app_nil_r.
    unfold waiter_hist. by rewrite app_comm_cons, last_snoc.
  - intros i us Hin.
    destruct (event_in_history s i _ Hs Hin) as (c & pre & gone & Hc & Hpre & Hev & [He|He]).
    + destruct (init_hist_elem _ _ _ Hpre He)
        as [[? _]|[[? _]|[(? & ? & _)|[(? & ?)|[(? & ?)|?]]]]]; try done.
      by simplify_eq.
    + pose proof (body_no_init_event c gone) as Hb. rewrite Forall_forall in Hb.
      by apply Hb in He.
Qed.

Lemma one_time_initialisation_witness :
  reachable race_state
  /\ occurrences is_init_cs (trace race_state) <= 1
  /\ events_of 1 (trace race_state) = [EvCas 1; EvPoll 1; EvUsleep 10000; EvPoll 2].
Proof.
  assert (Hr : reachable race_state) by (by_run race_actions).
  split; [exact Hr|]. split.
  - by destruct (one_time_initialisation race_state Hr) as (_ & H2 & _).
  - vm_compute. reflexivity.
Defined.

(** ** C10: buffer sizes *)

Lemma length_pidfile_prefix : length pidfile_prefix = 14.
Proof. reflexivity. Qed.

Lemma length_glue : length glue = 16.
Proof. reflexivity. Qed.

Lemma length_pidfile_name (v : Z) : 15 <= length (pidfile_name v) <= 25.
Proof.
  unfold pidfile_name. rewrite length_app, length_pidfile_prefix.
  pose proof (length_fmt_d v). lia.
Qed.

Lemma length_augmented (cmd : list ascii) (v : Z) :
  strlen cmd + 31 <= length (augmented cmd v) <= strlen cmd + 41.
Proof.
  unfold augmented. rewrite !length_app, length_c_str, length_glue.
  pose proof (length_pidfile_name v). lia.
Qed.

Lemma buf_size_fits (cmd : list ascii) :
  (Z.of_nat (strlen cmd) + 128 < 2 ^ 64)%Z -> buf_size cmd = strlen cmd + 128.
Proof.
  intros Hfit. unfold buf_size, wrap_size. rewrite Z.mod_small by lia. lia.
Qed.

(** C10. For a command that fits the address space (so that
    strlen(cmd) + 128 does not wrap in size_t) and an int counter value:
    the pidfile name with its terminator is shorter than the 64 bytes of
    its buffer, the augmented command with its terminator is shorter than
    the strlen(cmd) + 128 bytes of the command buffer, the 80 bytes that
    fread may store fit, and each of the four stores of lines 72, 73, 75
    and 88 leaves the length of its buffer as allocated. *)
Theorem buffers_fit (cmd : list ascii) (v : Z) :
  is_int v -> (Z.of_nat (strlen cmd) + 128 < 2 ^ 64)%Z ->
  length (cs "_yafu_system_." ++ fmt_d v ++ [NUL]) < PIDFILENAME_SIZE
  /\ length (augmented cmd v ++ [NUL]) < buf_size cmd
  /\ READ_MAX <= buf_size cmd
  /\ forall junk1 junk2 data,
       length data <= READ_MAX ->
       let name := poke 0 (cs "_yafu_system_." ++ fmt_d v ++ [NUL])
                     (alloca PIDFILENAME_SIZE junk1) in
       let copied := poke 0 (c_str cmd ++ [NUL]) (alloca (buf_size cmd) junk2) in
       let submitted :=
         poke (strlen cmd) (cs " & echo -n $! > " ++ c_str name ++ [NUL]) copied in
       let read := poke 0 data submitted in
       length name = PIDFILENAME_SIZE
       /\ length copied = buf_size cmd
       /\ length submitted = buf_size cmd
       /\ length read = buf_size cmd
       /\ c_str submitted = augmented cmd v.
Proof.
  intros Hv Hfit. pose proof (length_fmt_d v) as Hd.
  pose proof (length_augmented cmd v) as Ha.
  pose proof (length_pidfile_name v) as Hn.
  rewrite (buf_size_fits cmd Hfit). unfold PIDFILENAME_SIZE, READ_MAX.
  split; [|split; [|split]].
  - change (cs "_yafu_system_.") with pidfile_prefix.
    rewrite !length_app, length_pidfile_prefix. simpl. lia.
  - rewrite length_app. simpl. lia.
  - lia.
  - intros junk1 junk2 data Hdata. cbn zeta.
    change (cs "_yafu_system_.") with pidfile_prefix.
    change (cs " & echo -n $! > ") with glue.
    assert (Hname : c_str (poke 0 (pidfile_prefix ++ fmt_d v ++ [NUL]) (alloca 64 junk1))
                    = pidfile_name v).
    { rewrite poke_0, (app_assoc pidfile_prefix), <- app_assoc.
      apply c_str_app_nul, pidfile_name_no_nul. }
    rewrite Hname.
    assert (L1 : length (poke 0 (c_str cmd ++ [NUL]) (alloca (strlen cmd + 128) junk2))
                 = strlen cmd + 128).
    { rewrite length_poke; rewrite length_alloca; [done|].
      rewrite length_app, length_c_str. simpl. lia. }
    assert (L2 : length (poke (strlen cmd) (glue ++ pidfile_name v ++ [NUL])
                           (poke 0 (c_str cmd ++ [NUL]) (alloca (strlen cmd + 128) junk2)))
                 = strlen cmd + 128).
    { rewrite length_poke; rewrite L1; [done|].
      rewrite !length_app, length_glue. simpl. lia. }
    split; [|split; [exact L1|split; [exact L2|split]]].
    + rewrite length_poke; rewrite length_alloca; [done|].
      rewrite !length_app, length_pidfile_prefix. simpl. lia.
    + rewrite length_poke; rewrite L2; [done|]. lia.
    + rewrite poke_0, <- app_assoc.
      rewrite <- (length_c_str cmd), poke_after.
      unfold augmented. rewrite !app_assoc, <- (app_assoc _ [NUL]).
      rewrite <- !app_assoc. rewrite !app_assoc.
      rewrite <- (app_assoc ((c_str cmd ++ glue) ++ pidfile_name v)).
      apply c_str_app_nul. rewrite <- app_assoc. apply (augmented_no_nul cmd v).
Qed.

Lemma buffers_fit_witness :
  is_int 7 /\ (Z.of_nat (strlen (cs "true")) + 128 < 2 ^ 64)%Z
  /\ length (augmented (cs "true") 7 ++ [NUL]) < buf_size (cs "true").
Proof.
  assert (H1 : is_int 7) by (unfold is_int, INT_MIN, INT_MAX; lia).
  assert (H2 : (Z.of_nat (strlen (cs "true")) + 128 < 2 ^ 64)%Z) by (vm_compute; reflexivity).
  split; [exact H1|]. split; [exact H2|].
  by destruct (buffers_fit (cs "true") 7 H1 H2) as (_ & H & _).
Defined.

(** ** C9: the pid that is parsed *)

Lemma digit_val_nonneg (c : ascii) : (0 <= digit_val c)%Z.
Proof. unfold digit_val. lia. Qed.

Lemma digits_value_ge (s : list ascii) (acc : Z) :
  (0 <= acc)%Z -> (acc <= digits_value acc s)%Z.
Proof.
  revert acc. induction s as [|c s IH]; intros acc Hacc; simpl; [lia|].
  destruct (is_digit c); [|lia].
  pose proof (digit_val_nonneg c). specialize (IH (acc * 10 + digit_val c)%Z). lia.
Qed.

Lemma digits_value_grows (c : ascii) (s : list ascii) (acc : Z) :
  is_digit c = true -> (0 <= acc)%Z -> (acc * 10 <= digits_value acc (c :: s))%Z.
Proof.
  intros Hc Hacc. simpl. rewrite Hc. pose proof (digit_val_nonneg c).
  pose proof (digits_value_ge s (acc * 10 + digit_val c)%Z). lia.
Qed.

Lemma atoi_digits (c : ascii) (r : list ascii) :
  is_digit c = true ->
  atoi (c :: r) = wrap_int (clamp_long (digits_value 0 (c :: r))).
Proof.
  intros Hc. destruct (is_digit_plain c Hc) as (Hsp & Hm & Hp & _).
  unfold atoi, strtol. cbn [skip_space]. rewrite Hsp.
  by rewrite decide_False, decide_False.
Qed.

Lemma atoi_in_range (c : ascii) (r : list ascii) :
  is_digit c = true -> (digits_value 0 (c :: r) <= INT_MAX)%Z ->
  atoi (c :: r) = digits_value 0 (c :: r).
Proof.
  intros Hc Hmax. rewrite atoi_digits by done.
  pose proof (digits_value_ge (c :: r) 0 ltac:(lia)) as Hge.
  unfold INT_MAX in Hmax.
  rewrite clamp_long_id by (unfold LONG_MIN, LONG_MAX; lia).
  apply wrap_int_id. unfold is_int, INT_MIN, INT_MAX. lia.
Qed.

(** Reading a file of digits over the start of a longer text: the number
    read back is the number of the file exactly when the next byte of the
    text is no digit. *)
Lemma overlay_iff (fc : list ascii) (x : ascii) (tail : list ascii) :
  Forall (fun b => is_digit b = true) fc ->
  (0 < digits_value 0 fc)%Z ->
  (digits_value 0 (fc ++ x :: tail) <= INT_MAX)%Z ->
  atoi (fc ++ x :: tail) = atoi fc <-> is_digit x = false.
Proof.
  intros Hfc Hpos Hmax.
  destruct fc as [|c r]; [simpl in Hpos; lia|].
  pose proof Hfc as Hall. apply Forall_cons in Hfc as [Hc Hr].
  destruct (is_digit x) eqn:Hx.
  - split; [|done]. intros Heq. exfalso.
    rewrite digits_value_app in Hmax by done.
    assert (Hgrow : (digits_value 0 (c :: r) * 10
                     <= digits_value (digits_value 0 (c :: r)) (x :: tail))%Z)
      by (apply digits_value_grows; [done|lia]).
    assert (Hsmall : (digits_value 0 (c :: r) <= INT_MAX)%Z) by lia.
    change ((c :: r) ++ x :: tail) with (c :: (r ++ x :: tail)) in Heq.
    rewrite atoi_in_range in Heq; [|done|].
    + rewrite atoi_in_range in Heq by done.
      change (c :: r ++ x :: tail) with ((c :: r) ++ x :: tail) in Heq.
      rewrite digits_value_app in Heq by done. lia.
    + change (c :: r ++ x :: tail) with ((c :: r) ++ x :: tail).
      by rewrite digits_value_app.
  - split; [done|]. intros _.
    change ((c :: r) ++ x :: tail) with (c :: (r ++ x :: tail)).
    rewrite !atoi_digits by done.
    change (c :: r ++ x :: tail) with ((c :: r) ++ x :: tail).
    rewrite digits_value_stop; [done|done|]. simpl. by rewrite Hx.
Qed.

Lemma parsed_locals (s : State) (i : nat) (c : Call) :
  reachable s -> calls s !! i = Some c -> parsed (pc c) = true ->
  exists fl, f c = Some fl /\ buf c = buf_read c /\ pid c = atoi (buf_read c).
Proof.
  intros Hs Hc Hp. destruct (reachable_call_inv s Hs i c Hc) as (Hloc & _).
  unfold locals_ok in Hloc.
  destruct (pc c) as [| | | | | | | | | | | | | | | | | | | | | | | | | |[] v];
    try discriminate; destruct_and?;
    match goal with H : is_Some (f c) |- _ => destruct H as [fl Hfl] end;
    by exists fl.
Qed.

(** C9 (amended). Once the pidfile has been read, the pid handed to
    cygwin_internal is atoi of the command buffer, whose first bytes are the
    at most 80 bytes read from the file, without terminator, and whose
    following bytes are still those of the augmented command and its
    terminator.  If the file holds only decimal digits, not more than 80 nor
    more than the augmented command is long, that denote a positive number,
    and the digits at the start of the buffer denote a value that an int
    can hold, then the parsed pid is the number of the file if and only if
    the byte of the augmented command (or its terminator) at the offset of
    the file's length is no digit.  For some commands the parsed pid is not
    the number of the file. *)
Theorem parsed_pid :
  (forall s i c,
     reachable s -> calls s !! i = Some c -> parsed (pc c) = true ->
     exists fl rest,
       f c = Some fl
       /\ let aug := augmented (cmd c) (id c) in
          let data := take READ_MAX (content fl) in
          let buffer := data ++ drop (length data) (aug ++ NUL :: rest) in
          buf c = buffer /\ pid c = atoi buffer
          /\ (forall p w, EvPidToWinpid p w ∈ events_of i (trace s) -> p = pid c)
          /\ (Forall (fun b => is_digit b = true) (content fl) ->
              (0 < digits_value 0 (content fl))%Z ->
              length (content fl) <= READ_MAX ->
              length (content fl) <= length aug ->
              (digits_value 0 buffer <= INT_MAX)%Z ->
              (pid c = atoi (content fl)
               <-> is_digit (nth (length (content fl)) aug NUL) = false)))
  /\ (exists s c fl,
        reachable s /\ calls s !! 0 = Some c /\ parsed (pc c) = true
        /\ f c = Some fl /\ content fl = cs "1234" /\ cmd c = cs "12345678"
        /\ pid c = 12345678%Z /\ atoi (content fl) = 1234%Z).
Proof.
  split.
  - intros s i c Hs Hc Hp.
    destruct (parsed_locals s i c Hs Hc Hp) as (fl & Hfl & Hbuf & Hpid).
    destruct (buf_submitted_layout c) as [rest Hlay].
    exists fl, rest. split; [done|]. cbn zeta.
    assert (Hb : buf_read c = take READ_MAX (content fl)
                   ++ drop (length (take READ_MAX (content fl)))
                        (augmented (cmd c) (id c) ++ NUL :: rest)).
    { unfold buf_read, data_read. by rewrite Hfl, poke_0, Hlay. }
    rewrite Hbuf, Hpid, Hb. split; [done|]. split; [done|]. split.
    + intros p w Hin.
      destruct (own_history s i c Hs Hc) as (pre & gone & Hpre & Hev).
      rewrite Hev in Hin. apply elem_of_app in Hin as [Hin|Hin].
      * rewrite Forall_forall in Hpre. by apply Hpre in Hin.
      * apply body_event in Hin as [(k & Hk & Hpath)|[(? & _ & [?|?])|(? & _ & ?)]];
          try done.
        apply path_lookup_inv in Hpath.
        do 9 (destruct k as [|k]; [discriminate Hpath|]).
        destruct k as [|k]; [by simplify_eq; rewrite Hpid, Hb|].
        do 4 (destruct k as [|k]; [discriminate Hpath|]). done.
    + intros Hdig Hpos Hlen Hlen' Hmax.
      rewrite take_ge in * by done.
      set (aug := augmented (cmd c) (id c)) in *.
      set (n := length (content fl)) in *.
      assert (Hx : (aug ++ NUL :: rest) !! n = Some (nth n aug NUL)).
      { rewrite nth_lookup. destruct (decide (n < length aug)) as [Hlt|Hge].
        - rewrite lookup_app_l by done.
          destruct (lookup_lt_is_Some_2 aug n Hlt) as [x Hx]. by rewrite Hx.
        - assert (Hn : n = length aug) by lia.
          rewrite (lookup_ge_None_2 aug n) by lia. simpl.
          rewrite Hn. by apply list_lookup_middle. }
      rewrite (drop_S _ _ _ Hx) in Hmax |- *.
      by apply overlay_iff.
  - exists (state_after (one_call (cs "12345678") demo_answer 24)),
           (call_after (one_call (cs "12345678") demo_answer 24)),
           {| writer := Some 0; content := cs "1234" |}.
    split; [by_run (one_call (cs "12345678") demo_answer 24)|].
    split; [vm_compute; reflexivity|]. split; [vm_compute; reflexivity|].
    split; [vm_compute; reflexivity|]. split; [vm_compute; reflexivity|].
    split; [vm_compute; reflexivity|]. split; vm_compute; reflexivity.
Qed.

Lemma parsed_pid_witness :
  reachable demo_state /\ calls demo_state !! 0 = Some demo_call
  /\ parsed (pc demo_call) = true
  /\ exists fl, f demo_call = Some fl /\ pid demo_call = atoi (content fl).
Proof.
  assert (Hr : reachable demo_state)
    by (by_run (one_call (cs "true") demo_answer 24)).
  assert (Hl : calls demo_state !! 0 = Some demo_call) by (vm_compute; reflexivity).
  assert (Hp : parsed (pc demo_call) = true) by (vm_compute; reflexivity).
  split; [exact Hr|]. split; [exact Hl|]. split; [exact Hp|].
  destruct (proj1 parsed_pid demo_state 0 demo_call Hr Hl Hp)
    as (fl & rest & Hfl & Hrest).
  cbn zeta in Hrest. destruct Hrest as (Hbuf & _ & _ & Hiff).
  exists fl. split; [exact Hfl|].
  assert (Hf : f demo_call = Some {| writer := Some 0; content := cs "1234" |})
    by (vm_compute; reflexivity).
  rewrite Hf in Hfl. injection Hfl as <-. cbn [content] in *.
  apply Hiff.
  - vm_compute. repeat constructor.
  - vm_compute. reflexivity.
  - vm_compute. lia.
  - vm_compute. lia.
  - rewrite <- Hbuf.
    assert (E : digits_value 0 (buf demo_call) = 1234%Z) by (vm_compute; reflexivity).
    rewrite E. unfold INT_MAX. lia.
  - vm_compute. reflexivity.
Defined.

(** Without those conditions the equivalence fails: the file holds "0",
    the byte at offset 1 of the augmented command "a0 & ..." is the digit 0,
    and the parsed pid is the number of the file all the same. *)
Lemma parsed_pid_counterexample :
  exists s c fl,
    reachable s /\ calls s !! 0 = Some c /\ parsed (pc c) = true
    /\ f c = Some fl
    /\ ~ (pid c = atoi (content fl)
          <-> is_digit (nth (length (content fl)) (augmented (cmd c) (id c)) NUL) = false).
Proof.
  pose (a := {| a_status := 0; a_shell := Some (cs "0"); a_fopen := true;
                a_winpid := 5678; a_handle := Some 99%Z |}).
  exists (state_after (one_call (cs "a0") a 24)),
         (call_after (one_call (cs "a0") a 24)),
         {| writer := Some 0; content := cs "0" |}.
  split; [by_run (one_call (cs "a0") a 24)|].
  split; [vm_compute; reflexivity|]. split; [vm_compute; reflexivity|].
  split; [vm_compute; reflexivity|].
  intros [Hto _]. assert (Heq : pid (call_after (one_call (cs "a0") a 24))
                               = atoi (content {| writer := Some 0; content := cs "0" |}))
    by (vm_compute; reflexivity).
  apply Hto in Heq. vm_compute in Heq. discriminate Heq.
Qed.

(** ** Long runs: one call after another *)

Lemma exec_last (s : State) (l : list Call) (c c' : Call) (a : Answer)
    (g' : Globals) (evs : list Event) :
  calls s = l ++ [c] ->
  step_call a (length l) (glob s) c = Some (g', c', evs) ->
  exec (Run (length l) a) s
  = Some {| glob := g'; calls := l ++ [c'];
            trace := trace s ++ map (pair (length l)) evs |}.
Proof.
  intros Hl Hstep. unfold exec. rewrite Hl, list_lookup_middle by done.
  rewrite Hstep. do 2 f_equal.
  rewrite insert_app_r_alt by lia. by rewrite Nat.sub_diag.
Qed.

Lemma run_last_step (s : State) (l : list Call) (c c' : Call) (a : Answer)
    (g' : Globals) (evs : list Event) (rest : list Action) :
  calls s = l ++ [c] ->
  step_call a (length l) (glob s) c = Some (g', c', evs) ->
  run (Run (length l) a :: rest) s
  = run rest {| glob := g'; calls := l ++ [c'];
                trace := trace s ++ map (pair (length l)) evs |}.
Proof. intros Hl Hstep. cbn [run]. by rewrite (exec_last s l c c' a g' evs). Qed.

(** Perform the next action of the last call of the list. *)
Ltac last_call_steps_with tac :=
  erewrite run_last_step;
  [|cbn [calls]; reflexivity
   |unfold step_call; cbn [glob enter_call]; proj_simpl; glob_simpl; tac; reflexivity].

Ltac last_call_steps := last_call_steps_with idtac.

Lemma c_str_name_poke (v : Z) (b : list ascii) :
  c_str (poke 0 (pidfile_prefix ++ fmt_d v ++ [NUL]) b) = pidfile_name v.
Proof.
  rewrite poke_0, (app_assoc pidfile_prefix), <- app_assoc.
  apply c_str_app_nul, pidfile_name_no_nul.
Qed.

(** A thread enters and submits its command while nobody else moves: twelve
    actions take it from line 54 to line 85. *)
Lemma submit_run (s : State) (cmd : list ascii) (a : Answer) :
  quiescent s ->
  let n := length (calls s) in
  let u := usecount (glob s) in
  exists s',
    run (Spawn cmd [] [] :: repeat (Run n a) 12) s = Some s'
    /\ quiescent s'
    /\ usecount (glob s') = wrap_int (u + 1)
    /\ files (glob s') = shell_effect n (pidfile_name u) (a_shell a) (files (glob s))
    /\ (exists c', calls s' = calls s ++ [c'] /\ pc c' = PFopen /\ id c' = u
                   /\ c_str (pidfilename c') = pidfile_name u)
    /\ (exists evs, trace s' = trace s ++ map (pair n) evs
                    /\ draws (map (pair n) evs) = [(n, u)]).
Proof.
  intros [Hflag Hfree] n u. eexists. split.
  - subst n. change (run (Spawn cmd [] [] :: ?r) s) with (run r (spawned cmd [] [] s)).
    unfold spawned. cbn [repeat].
    last_call_steps_with ltac:(rewrite Hflag, decide_False by lia).
    last_call_steps_with ltac:(rewrite Hflag, decide_False by lia).
    last_call_steps.
    last_call_steps_with ltac:(rewrite Hfree).
    do 8 last_call_steps.
    cbn [run]. reflexivity.
  - cbn [glob calls trace]; proj_simpl; glob_simpl. rewrite !c_str_name_poke.
    split; [by split|]. split; [done|]. split; [done|]. split.
    + eexists. split; [reflexivity|]. proj_simpl. rewrite c_str_name_poke. done.
    + rewrite <- !app_assoc, <- !map_app. eexists. split; [reflexivity|]. done.
Qed.

(** The same thread then fails to open its pidfile and returns. *)
Lemma quick_call (s : State) (cmd : list ascii) :
  reachable s -> quiescent s ->
  exists s', reachable s' /\ quiescent s'
             /\ length (draws (trace s')) = S (length (draws (trace s)))
             /\ files (glob s') = files (glob s)
             /\ exists c', calls s' = calls s ++ [c'].
Proof.
  intros Hs Hq.
  destruct (submit_run s cmd refused_answer Hq)
    as (s1 & Hrun & Hq1 & _ & Hfiles & (c1 & Hcalls & Hpc & _) & (evs & Htr & Hdr)).
  assert (Hs1 : reachable s1) by (by eapply reachable_run).
  assert (Hstep : step_call refused_answer (length (calls s)) (glob s1) c1
                  = Some (glob s1, set_pc (PDone ExNoPidfile (-1)) c1,
                          [EvFopen (c_str (pidfilename c1)) None; EvReturn (-1)])).
  { unfold step_call. rewrite Hpc. cbn zeta.
    by destruct (files (glob s1) !! c_str (pidfilename c1)). }
  pose proof (exec_last s1 _ _ _ _ _ _ Hcalls Hstep) as Hex.
  eexists. split; [eapply reachable_exec; [exact Hs1|exact Hex]|].
  cbn [glob calls trace]. split; [done|]. split.
  - rewrite Htr, !draws_app, Hdr, !length_app. simpl. lia.
  - split; [done|]. by eexists.
Qed.

Lemma many_calls (k : nat) (s : State) :
  reachable s -> quiescent s ->
  exists s', reachable s' /\ quiescent s'
             /\ length (draws (trace s')) = length (draws (trace s)) + k
             /\ files (glob s') = files (glob s)
             /\ exists l, calls s' = calls s ++ l.
Proof.
  revert s. induction k as [|k IH]; intros s Hs Hq.
  - exists s. split; [done|]. split; [done|]. split; [lia|]. split; [done|].
    exists []. by rewrite app_nil_r.
  - destruct (quick_call s [] Hs Hq) as (s1 & Hs1 & Hq1 & Hd1 & Hf1 & c1 & Hc1).
    destruct (IH s1 Hs1 Hq1) as (s2 & Hs2 & Hq2 & Hd2 & Hf2 & l & Hc2).
    exists s2. split; [done|]. split; [done|]. split; [lia|]. split; [congruence|].
    exists (c1 :: l). rewrite Hc2, Hc1, <- app_assoc. done.
Qed.

Lemma first_state_facts :
  reachable first_state /\ quiescent first_state
  /\ length (draws (trace first_state)) = 1.
Proof.
  split; [by_run (one_call (cs "true") no_pidfile_answer 15)|].
  split; [split; vm_compute; reflexivity|vm_compute; reflexivity].
Qed.

(** Any number of calls can have drawn an identifier. *)
Lemma calls_reach (k : nat) :
  exists s, reachable s /\ quiescent s /\ length (draws (trace s)) = S k.
Proof.
  destruct first_state_facts as (Hr & Hq & Hd).
  destruct (many_calls k first_state Hr Hq) as (s & Hs & Hqs & Hlen & _).
  exists s. split; [exact Hs|]. split; [exact Hqs|].
  exact (eq_trans Hlen (f_equal (fun n => n + k) Hd)).
Qed.

(** ** C4: the identifiers *)

Lemma wrapped_identifiers (K : nat) :
  Z.of_nat K = 2147483647%Z ->
  exists s i j,
    reachable s
    /\ draws (trace s) !! K = Some (i, 2147483647%Z)
    /\ draws (trace s) !! S K = Some (j, (-2147483648)%Z).
Proof.
  intros HK.
  destruct (calls_reach (S K)) as (s & Hs & _ & Hlen).
  destruct (lookup_lt_is_Some_2 (draws (trace s)) K) as [[i v] Hp]; [lia|].
  destruct (lookup_lt_is_Some_2 (draws (trace s)) (S K)) as [[j w] Hq]; [lia|].
  exists s, i, j. split; [exact Hs|].
  pose proof (draws_lookup_id s K i v Hs Hp) as Hv.
  pose proof (draws_lookup_id s (S K) j w Hs Hq) as Hw.
  unfold nth_id in Hv, Hw. rewrite Nat2Z.inj_succ, HK in Hw. rewrite HK in Hv.
  change (wrap_int 2147483647) with 2147483647%Z in Hv.
  change (wrap_int (Z.succ 2147483647)) with (-2147483648)%Z in Hw.
  subst v w. by split.
Qed.

(** Without a bound on the number of calls the identifiers do not increase:
    the call that draws after 2147483647 others gets 2147483647, the next
    one gets -2147483648. *)
Lemma identifiers_counterexample :
  exists s p i j,
    reachable s
    /\ draws (trace s) !! p = Some (i, 2147483647%Z)
    /\ draws (trace s) !! S p = Some (j, (-2147483648)%Z)
    /\ ~ (2147483647 < -2147483648)%Z.
Proof.
  destruct (wrapped_identifiers (Z.to_nat 2147483647)) as (s & i & j & Hs & Hp & Hq).
  { apply Z2Nat.id. lia. }
  exists s, (Z.to_nat 2147483647), i, j.
  split; [exact Hs|]. split; [exact Hp|]. split; [exact Hq|]. lia.
Qed.

Lemma body_filter_count (c : Call) (gone : option File) :
  filter (fun e => is_count e = true) (body c gone)
  = if has_drawn (pc c) then [EvCount (id c) (wrap_int (id c + 1))] else [].
Proof. by body_cases c. Qed.

Lemma body_count_after_enter (c : Call) (gone : option File) (m : nat) (old new : Z) :
  body c gone !! m = Some (EvCount old new) ->
  m = 1 /\ body c gone !! 0 = Some EvEnter.
Proof. intros Hm. by body_cases c; index_cases m Hm. Qed.

(** The counter moves only by the store of line 72, done by the owner of
    the critical section, and then by one. *)
Lemma usecount_step (s s' : State) (act : Action) :
  reachable s -> exec act s = Some s' ->
  usecount (glob s') <> usecount (glob s) ->
  exists i a, act = Run i a /\ systemcrit (glob s) = CsOwned i
              /\ usecount (glob s') = wrap_int (usecount (glob s) + 1).
Proof.
  intros Hs Hex Hne.
  apply exec_inv in Hex as [(cmd & j1 & j2 & -> & ->)|
      (i & a & c & g' & c' & evs & -> & Hc & Hstep & ->)]; [done|].
  exists i, a. split; [done|]. simpl in Hne.
  destruct (reachable_count_inv s Hs) as (_ & _ & Hw & _).
  destruct (reachable_lock_inv s Hs) as [Hl _].
  unfold step_call in Hstep.
  destruct (pc c) eqn:Hpc; split_step Hstep; try done.
  simpl. split.
  - apply (Hl i c Hc). by rewrite Hpc.
  - by rewrite (Hw i c Hc Hpc).
Qed.

(** C4 (amended). A call that has passed line 72 holds the value it drew,
    and its pidfile name is "_yafu_system_." followed by that value in
    decimal; the p-th draw (from 0) yields p wrapped to an int; the draws
    follow the order in which the calls entered the critical section; each
    call increments the counter exactly once, right after
    EnterCriticalSection; and the counter changes only by a step of the
    owner of the critical section, by one.  As long as at most 2^32
    identifiers have been drawn, two calls hold different identifiers and
    different pidfile names.  As long as at most 2^31 identifiers have been
    drawn, the p-th draw yields p itself, so the identifiers increase
    strictly in the order of the draws. *)
Theorem counter_identifiers (s : State) :
  reachable s ->
  (forall i c, calls s !! i = Some c -> has_drawn (pc c) = true ->
     (i, id c) ∈ draws (trace s)
     /\ ((3 <=? stage (pc c)) = true ->
         c_str (pidfilename c) = cs "_yafu_system_." ++ fmt_d (id c)))
  /\ (forall p i v, draws (trace s) !! p = Some (i, v) ->
        v = wrap_int (Z.of_nat p) /\ exists c, calls s !! i = Some c /\ id c = v)
  /\ map fst (draws (trace s)) `prefix_of` acquisitions (trace s)
  /\ (forall i c, calls s !! i = Some c ->
        filter (fun e => is_count e = true) (events_of i (trace s))
        = (if has_drawn (pc c) then [EvCount (id c) (wrap_int (id c + 1))] else [])
        /\ forall k old new,
             events_of i (trace s) !! S k = Some (EvCount old new) ->
             events_of i (trace s) !! k = Some EvEnter)
  /\ usecount (glob s) = wrap_int (Z.of_nat (length (draws (trace s))))
  /\ (forall act s', exec act s = Some s' ->
        usecount (glob s') <> usecount (glob s) ->
        exists i a, act = Run i a /\ systemcrit (glob s) = CsOwned i
                    /\ usecount (glob s') = wrap_int (usecount (glob s) + 1))
  /\ ((Z.of_nat (length (draws (trace s))) <= 2 ^ 32)%Z ->
      (forall i j ci cj, calls s !! i = Some ci -> calls s !! j = Some cj -> i <> j ->
         has_drawn (pc ci) = true -> has_drawn (pc cj) = true ->
         id ci <> id cj
         /\ cs "_yafu_system_." ++ fmt_d (id ci) <> cs "_yafu_system_." ++ fmt_d (id cj))
      /\ (forall p q i j u v, p <> q ->
            draws (trace s) !! p = Some (i, u) -> draws (trace s) !! q = Some (j, v) ->
            u <> v))
  /\ ((Z.of_nat (length (draws (trace s))) <= 2 ^ 31)%Z ->
      (forall p i v, draws (trace s) !! p = Some (i, v) -> v = Z.of_nat p)
      /\ (forall p q i j u v, p < q ->
            draws (trace s) !! p = Some (i, u) -> draws (trace s) !! q = Some (j, v) ->
            (u < v)%Z)).
Proof.
  intros Hs. destruct (reachable_count_inv s Hs) as (Huse & Hids & Hw & Hacq).
  assert (Hsmall : (Z.of_nat (length (draws (trace s))) <= 2 ^ 31)%Z ->
            forall p i v, draws (trace s) !! p = Some (i, v) -> v = Z.of_nat p).
  { intros Hk p i v Hp. pose proof (lookup_lt_Some _ _ _ Hp) as Hlt.
    rewrite (draws_lookup_id s p i v Hs Hp). apply nth_id_small.
    unfold INT_MAX. lia. }
  split; [|split; [|split; [|split; [|split; [|split; [|split]]]]]].
  - intros i c Hc Hd. split; [by apply drawn_in_draws|].
    intros H3. by apply (named_c_str s i c).
  - intros p i v Hp. split; [exact (draws_lookup_id s p i v Hs Hp)|].
    apply list_elem_of_lookup_2 in Hp.
    destruct (draws_origin s i v Hs Hp) as (c & Hc & _ & Hid). by exists c.
  - destruct Hacq as [(i & c & _ & _ & ->)|[_ ->]]; [by apply prefix_app_r|done].
  - intros i c Hc. destruct (own_history s i c Hs Hc) as (pre & gone & Hpre & Hev).
    split.
    + rewrite Hev, filter_app, body_filter_count.
      rewrite (filter_init_nil is_count); [done| |done]. by intros [].
    + intros k old new Hk'.
      destruct (history_split s i c (S k) _ Hs Hc Hk' eq_refl)
        as (p1 & g1 & m & E1 & Hkm & Hm).
      apply body_count_after_enter in Hm as [-> H0].
      assert (k = length p1) by lia. subst k.
      rewrite E1, lookup_app_r by lia. by rewrite Nat.sub_diag.
  - exact Huse.
  - intros act s' Hex Hne. by eapply usecount_step.
  - intros Hk. split.
    + intros i j ci cj Hi Hj Hne Hdi Hdj. by apply (distinct_ids s i j ci cj).
    + intros p q i j u v Hne Hp Hq Heq.
      pose proof (lookup_lt_Some _ _ _ Hp) as Hlp.
      pose proof (lookup_lt_Some _ _ _ Hq) as Hlq.
      rewrite (draws_lookup_id s p i u Hs Hp), (draws_lookup_id s q j v Hs Hq) in Heq.
      apply nth_id_inj in Heq; [done|lia|lia].
  - intros Hk. split; [by apply Hsmall|].
    intros p q i j u v Hlt Hp Hq.
    rewrite (Hsmall Hk p i u Hp), (Hsmall Hk q j v Hq). lia.
Qed.

Lemma counter_identifiers_witness :
  reachable two_draws_state
  /\ draws (trace two_draws_state) = [(1, 0%Z); (0, 1%Z)]
  /\ usecount (glob two_draws_state) = 2%Z
  /\ (exists c0 c1,
        calls two_draws_state !! 0 = Some c0 /\ calls two_draws_state !! 1 = Some c1
        /\ id c0 <> id c1
        /\ cs "_yafu_system_." ++ fmt_d (id c0) <> cs "_yafu_system_." ++ fmt_d (id c1))
  /\ (forall i j u v,
        draws (trace two_draws_state) !! 0 = Some (i, u) ->
        draws (trace two_draws_state) !! 1 = Some (j, v) -> (u < v)%Z).
Proof.
  assert (Hr : reachable two_draws_state) by (by_run two_draws_actions).
  assert (Hd : draws (trace two_draws_state) = [(1, 0%Z); (0, 1%Z)])
    by (vm_compute; reflexivity).
  assert (Hlen : length (draws (trace two_draws_state)) = 2) by (by rewrite Hd).
  destruct (counter_identifiers two_draws_state Hr)
    as (_ & _ & _ & _ & Hu & _ & Hdist & Hincr).
  split; [exact Hr|]. split; [exact Hd|]. split.
  { rewrite Hu, Hlen. vm_compute. reflexivity. }
  split.
  - pose (c0 := default (enter_call [] [] []) (calls two_draws_state !! 0)).
    pose (c1 := default (enter_call [] [] []) (calls two_draws_state !! 1)).
    assert (H0 : calls two_draws_state !! 0 = Some c0) by (vm_compute; reflexivity).
    assert (H1 : calls two_draws_state !! 1 = Some c1) by (vm_compute; reflexivity).
    exists c0, c1. split; [exact H0|]. split; [exact H1|].
    destruct Hdist as [Hdist _]; [rewrite Hlen; lia|].
    apply (Hdist 0 1 c0 c1 H0 H1); [lia|vm_compute; reflexivity|vm_compute; reflexivity].
  - intros i j u v Hp Hq. destruct Hincr as [_ Hincr]; [rewrite Hlen; lia|].
    apply (Hincr 0 1 i j u v); [lia|exact Hp|exact Hq].
Defined.

(** ** The pidfile of a call whose identifier was drawn again *)

Lemma exec_at (s : State) (i : nat) (a : Answer) (c c' : Call) (g' : Globals)
    (evs : list Event) :
  calls s !! i = Some c -> step_call a i (glob s) c = Some (g', c', evs) ->
  exec (Run i a) s = Some (stepped i g' c' evs s).
Proof. intros Hc Hst. unfold exec. by rewrite Hc, Hst. Qed.

(** Lines 88-90 run whatever the environment answers: from the return of
    fopen() three actions read, close and delete the file. *)
Lemma file_steps (s : State) (i : nat) (c : Call) (fl : File) (a1 a2 a3 : Answer) :
  calls s !! i = Some c -> pc c = PFread -> f c = Some fl ->
  let n := c_str (pidfilename c) in
  exists s' c',
    run [Run i a1; Run i a2; Run i a3] s = Some s'
    /\ calls s' !! i = Some c' /\ pc c' = PAtoi /\ id c' = id c
    /\ files (glob s') = delete n (files (glob s))
    /\ trace s' = trace s ++ map (pair i)
         [EvFread n (take READ_MAX (content fl)); EvFclose n;
          EvRemove n (files (glob s) !! n)].
Proof.
  intros Hc Hpc Hf n. pose proof (lookup_lt_Some _ _ _ Hc) as Hlt.
  eexists. eexists. split.
  - cbn [run].
    erewrite exec_at; [|exact Hc|unfold step_call; rewrite Hpc, Hf; reflexivity].
    cbn [mbind option_bind].
    erewrite exec_at;
      [|unfold stepped; cbn [calls]; by apply list_lookup_insert_eq
       |unfold step_call; proj_simpl; reflexivity].
    cbn [mbind option_bind].
    erewrite exec_at;
      [|unfold stepped; cbn [calls]; apply list_lookup_insert_eq;
        by rewrite length_insert
       |unfold step_call; proj_simpl; reflexivity].
    reflexivity.
  - unfold stepped; cbn [calls glob trace]; proj_simpl; glob_simpl.
    split; [apply list_lookup_insert_eq; by rewrite !length_insert|].
    split; [done|]. split; [done|]. split; [done|].
    by rewrite <- !app_assoc.
Qed.

(** While a call waits in front of fopen(), 2^32 - 1 other calls come and
    go; the next call draws the waiting call's identifier and its shell
    writes the pidfile that the waiting call then opens, reads and deletes. *)
Lemma foreign_open (s0 : State) (c0 : Call) (K : nat) :
  reachable s0 -> quiescent s0 -> length (draws (trace s0)) = 1 ->
  calls s0 !! 0 = Some c0 -> pc c0 = PFopen ->
  c_str (pidfilename c0) = pidfile_name 0 ->
  Z.of_nat K = (2 ^ 32 - 1)%Z ->
  exists s j fl, reachable s /\ 0 <> j /\ writer fl = Some j
    /\ (0, EvFopen (pidfile_name 0) (Some fl)) ∈ trace s
    /\ (0, EvFread (pidfile_name 0) (take READ_MAX (content fl))) ∈ trace s
    /\ (0, EvRemove (pidfile_name 0) (Some fl)) ∈ trace s.
Proof.
  intros Hr Hq Hd Hc0 Hpc Hname HK.
  destruct (many_calls K s0 Hr Hq) as (s1 & Hs1 & Hq1 & Hlen & _ & l & Hcalls).
  assert (Hu : usecount (glob s1) = 0%Z).
  { destruct (reachable_count_inv s1 Hs1) as (-> & _).
    rewrite Hlen, Hd. unfold nth_id. rewrite Nat2Z.inj_add, HK. reflexivity. }
  destruct (submit_run s1 [] demo_answer Hq1)
    as (s2 & Hrun & _ & _ & Hfiles & (c' & Hcalls2 & _) & _).
  assert (Hs2 : reachable s2) by (by eapply reachable_run).
  rewrite Hu in Hfiles. unfold shell_effect in Hfiles. cbn [a_shell demo_answer] in Hfiles.
  set (j := length (calls s1)) in *.
  set (fl := {| writer := Some j; content := cs "1234" |}) in *.
  assert (Hj : 0 <> j).
  { subst j. rewrite Hcalls, length_app.
    apply lookup_lt_Some in Hc0. lia. }
  assert (Hc2 : calls s2 !! 0 = Some c0).
  { rewrite Hcalls2, Hcalls. by do 2 apply lookup_app_l_Some. }
  assert (Hfl : files (glob s2) !! pidfile_name 0 = Some fl).
  { rewrite Hfiles. apply lookup_insert_eq. }
  assert (Hstep : step_call demo_answer 0 (glob s2) c0
                  = Some (glob s2, set_pc PFread (set_f (Some fl) c0),
                          [EvFopen (pidfile_name 0) (Some fl)])).
  { unfold step_call. rewrite Hpc. cbn zeta. rewrite Hname, Hfl. reflexivity. }
  pose proof (exec_at s2 0 demo_answer _ _ _ _ Hc2 Hstep) as Hex.
  set (c1 := set_pc PFread (set_f (Some fl) c0)) in *.
  set (s3 := stepped 0 (glob s2) c1 [EvFopen (pidfile_name 0) (Some fl)] s2) in *.
  assert (Hs3 : reachable s3) by (by eapply reachable_exec).
  assert (Hc3 : calls s3 !! 0 = Some c1).
  { subst s3. unfold stepped. cbn [calls]. apply list_lookup_insert_eq.
    by eapply lookup_lt_Some. }
  destruct (file_steps s3 0 c1 fl demo_answer demo_answer demo_answer Hc3 eq_refl eq_refl)
    as (s4 & c4 & Hrun4 & _ & _ & _ & _ & Htr).
  assert (Hs4 : reachable s4) by (by eapply reachable_run).
  assert (Hn1 : c_str (pidfilename c1) = pidfile_name 0) by (subst c1; by proj_simpl).
  rewrite Hn1 in Htr.
  assert (Hg3 : files (glob s3) !! pidfile_name 0 = Some fl) by exact Hfl.
  rewrite Hg3 in Htr.
  exists s4, j, fl. split; [done|]. split; [done|]. split; [done|].
  rewrite Htr. subst s3. unfold stepped. cbn [trace].
  split; [|split].
  - apply elem_of_app. left. apply elem_of_app. right. apply list_elem_of_here.
  - apply elem_of_app. right. apply list_elem_of_here.
  - apply elem_of_app. right. cbn [map]. do 2 apply list_elem_of_further.
    apply list_elem_of_here.
Qed.

Lemma pending_state_facts :
  reachable pending_state /\ quiescent pending_state
  /\ length (draws (trace pending_state)) = 1
  /\ calls pending_state !! 0 = Some pending_call
  /\ pc pending_call = PFopen
  /\ c_str (pidfilename pending_call) = pidfile_name 0.
Proof.
  split; [by_run (one_call (cs "true") demo_answer 14)|].
  split; [split; vm_compute; reflexivity|].
  split; [vm_compute; reflexivity|].
  split; [vm_compute; reflexivity|].
  split; [vm_compute; reflexivity|vm_compute; reflexivity].
Qed.

(** Without a bound on the number of calls a call opens, reads and removes
    a pidfile that the shell of another call wrote: call 0 stands in front
    of fopen() while 2^32 - 1 calls come and go, and the next call draws
    identifier 0 again. *)
Lemma foreign_pidfile_counterexample :
  exists s i j n fl, reachable s /\ i <> j /\ writer fl = Some j
    /\ (i, EvFopen n (Some fl)) ∈ trace s
    /\ (i, EvFread n (take READ_MAX (content fl))) ∈ trace s
    /\ (i, EvRemove n (Some fl)) ∈ trace s.
Proof.
  destruct pending_state_facts as (Hr & Hq & Hd & Hc & Hpc & Hn).
  destruct (foreign_open pending_state pending_call (Z.to_nat (2 ^ 32 - 1))
              Hr Hq Hd Hc Hpc Hn) as (s & j & fl & H).
  { apply Z2Nat.id. lia. }
  exists s, 0, j, (pidfile_name 0), fl. exact H.
Qed.

(** ** C7: the life of the pidfile *)

Lemma body_fopen_sequel (c : Call) (gone : option File) (m : nat)
    (n : list ascii) (fl : File) :
  body c gone !! m = Some (EvFopen n (Some fl)) ->
  m = 5 /\ n = pidfile_name (id c)
  /\ (forall e, body c gone !! 6 = Some e -> e = EvFread n (take READ_MAX (content fl)))
  /\ (forall e, body c gone !! 7 = Some e -> e = EvFclose n)
  /\ (forall e, body c gone !! 8 = Some e -> e = EvRemove n gone).
Proof.
  intros Hm. body_cases c; index_cases m Hm; injection Hm as <- Hf;
    (split; [done|]); (split; [done|]); unfold data_read; rewrite Hf;
    (split; [|split]); intros e He; cbn in He; by simplify_eq.
Qed.

Lemma body_wait_sequel (c : Call) (gone : option File) (m : nat) (hd t : Z) :
  body c gone !! m = Some (EvWait hd t) ->
  m = 11
  /\ body c gone !! 5 = Some (EvFopen (pidfile_name (id c)) (f c))
  /\ body c gone !! 6 = Some (EvFread (pidfile_name (id c)) (data_read c))
  /\ body c gone !! 7 = Some (EvFclose (pidfile_name (id c)))
  /\ body c gone !! 8 = Some (EvRemove (pidfile_name (id c)) gone).
Proof. intros Hm. by body_cases c; index_cases m Hm. Qed.

Lemma body_filter_fread (c : Call) (gone : option File) :
  filter (fun e => is_fread e = true) (body c gone)
  = if 7 <=? stage (pc c) then [EvFread (pidfile_name (id c)) (data_read c)] else [].
Proof. by body_cases c. Qed.

Lemma body_filter_remove (c : Call) (gone : option File) :
  filter (fun e => is_remove e = true) (body c gone)
  = if cleaned (pc c) then [EvRemove (pidfile_name (id c)) gone] else [].
Proof. by body_cases c. Qed.

Lemma body_file_names (c : Call) (gone : option File) (e : Event) :
  e ∈ body c gone ->
  match e with
  | EvFopen n _ | EvFread n _ | EvFclose n | EvRemove n _ => n = pidfile_name (id c)
  | _ => True
  end.
Proof.
  intros He. apply list_elem_of_lookup_1 in He as [m Hm].
  by body_cases c; index_cases m Hm; simplify_eq.
Qed.

Lemma lookup_history (pre bdy : list Event) (m : nat) :
  (pre ++ bdy) !! (length pre + m) = bdy !! m.
Proof. rewrite lookup_app_r by lia. f_equal. lia. Qed.

Lemma body_cleaned (c : Call) (gone : option File) :
  cleaned (pc c) = true ->
  body c gone !! 5 = Some (EvFopen (pidfile_name (id c)) (f c))
  /\ body c gone !! 6 = Some (EvFread (pidfile_name (id c)) (data_read c))
  /\ body c gone !! 7 = Some (EvFclose (pidfile_name (id c)))
  /\ body c gone !! 8 = Some (EvRemove (pidfile_name (id c)) gone).
Proof. intros Hcl. by body_cases c. Qed.

Lemma cleaned_has_file (c : Call) :
  locals_ok c -> cleaned (pc c) = true -> is_Some (f c).
Proof.
  unfold locals_ok.
  destruct (pc c) as [| | | | | | | | | | | | | | | | | | | | | | | | | |[] ?];
    try discriminate; intros Hloc _; by destruct_and?.
Qed.

(** C7 (amended). A call that opened its pidfile next reads it (at most 80
    bytes), closes it and removes it, whatever the environment answers; it
    reads and removes at most once, under its own name
    ["_yafu_system_." ++ id]; every WaitForSingleObject comes after these
    four events; a call that is past remove() has performed the four events
    in a row, exactly one read and one remove, and no file written by its
    shell exists any more.  As long as at most 2^32 identifiers have been
    drawn, a file that a call opens or removes was never written by the
    shell of another call. *)
Theorem pidfile_lifecycle (s : State) (i : nat) (c : Call) :
  reachable s -> calls s !! i = Some c ->
  let hist := events_of i (trace s) in
  let name := cs "_yafu_system_." ++ fmt_d (id c) in
  (forall k n fl, hist !! k = Some (EvFopen n (Some fl)) ->
     n = name
     /\ (forall e, hist !! (k + 1) = Some e ->
           e = EvFread name (take READ_MAX (content fl)))
     /\ (forall e, hist !! (k + 2) = Some e -> e = EvFclose name)
     /\ (forall e, hist !! (k + 3) = Some e -> exists gone, e = EvRemove name gone))
  /\ (forall k hd t, hist !! k = Some (EvWait hd t) ->
        exists k0 found data gone,
          k = k0 + 6
          /\ hist !! k0 = Some (EvFopen name found)
          /\ hist !! (k0 + 1) = Some (EvFread name data)
          /\ hist !! (k0 + 2) = Some (EvFclose name)
          /\ hist !! (k0 + 3) = Some (EvRemove name gone))
  /\ length (filter (fun e => is_fread e = true) hist) <= 1
  /\ length (filter (fun e => is_remove e = true) hist) <= 1
  /\ (forall e, e ∈ hist ->
        match e with
        | EvFopen n _ | EvFread n _ | EvFclose n | EvRemove n _ => n = name
        | _ => True
        end)
  /\ (cleaned (pc c) = true ->
        (forall n fl, files (glob s) !! n = Some fl -> writer fl <> Some i)
        /\ exists k0 fl gone,
             hist !! k0 = Some (EvFopen name (Some fl))
             /\ hist !! (k0 + 1) = Some (EvFread name (take READ_MAX (content fl)))
             /\ hist !! (k0 + 2) = Some (EvFclose name)
             /\ hist !! (k0 + 3) = Some (EvRemove name gone)
             /\ filter (fun e => is_fread e = true) hist
                = [EvFread name (take READ_MAX (content fl))]
             /\ filter (fun e => is_remove e = true) hist = [EvRemove name gone])
  /\ (pc c = PFread ->
        exists fl, f c = Some fl /\
        forall a1 a2 a3, exists s' c',
          run [Run i a1; Run i a2; Run i a3] s = Some s'
          /\ calls s' !! i = Some c' /\ pc c' = PAtoi /\ cleaned (pc c') = true
          /\ files (glob s') !! name = None
          /\ events_of i (trace s')
             = hist ++ [EvFread name (take READ_MAX (content fl)); EvFclose name;
                        EvRemove name (files (glob s) !! name)])
  /\ ((Z.of_nat (length (draws (trace s))) <= 2 ^ 32)%Z ->
      forall e, e ∈ hist ->
        match e with
        | EvFopen _ (Some fl) | EvRemove _ (Some fl) =>
            forall j, writer fl = Some j -> j = i
        | _ => True
        end).
Proof.
  intros Hs Hc hist name.
  change name with (pidfile_name (id c)). clear name.
  destruct (reachable_call_inv s Hs i c Hc) as (Hloc & _).
  destruct (own_history s i c Hs Hc) as (pre & gone & Hpre & Hev).
  split; [|split; [|split; [|split; [|split; [|split; [|split]]]]]].
  - intros k n fl Hk0.
    destruct (history_split s i c k _ Hs Hc Hk0 eq_refl) as (p1 & g1 & m & E1 & -> & Hm).
    destruct (body_fopen_sequel c g1 m n fl Hm) as (-> & -> & H6 & H7 & H8).
    split; [done|].
    subst hist. rewrite E1, <- !Nat.add_assoc, !lookup_history. cbn [Nat.add].
    split; [exact H6|]. split; [exact H7|].
    intros e He. exists g1. by apply H8.
  - intros k hd t Hk0.
    destruct (history_split s i c k _ Hs Hc Hk0 eq_refl) as (p1 & g1 & m & E1 & -> & Hm).
    destruct (body_wait_sequel c g1 m hd t Hm) as (-> & H5 & H6 & H7 & H8).
    exists (length p1 + 5), (f c), (data_read c), g1.
    split; [lia|]. subst hist.
    rewrite E1, <- !Nat.add_assoc, !lookup_history. cbn [Nat.add]. done.
  - subst hist. rewrite Hev, filter_app, body_filter_fread.
    rewrite (filter_init_nil is_fread); [|by intros []|done].
    by destruct (7 <=? stage (pc c)); simpl; lia.
  - subst hist. rewrite Hev, filter_app, body_filter_remove.
    rewrite (filter_init_nil is_remove); [|by intros []|done].
    by destruct (cleaned (pc c)); simpl; lia.
  - intros e He.
    assert (Hb : match e with
                 | EvFopen _ _ | EvFread _ _ | EvFclose _ | EvRemove _ _ => e ∈ body c gone
                 | _ => True
                 end).
    { subst hist. rewrite Hev in He. apply elem_of_app in He as [He|He].
      - rewrite Forall_forall in Hpre. apply Hpre in He. by destruct e.
      - by destruct e. }
    destruct e; try done; by apply (body_file_names c gone _ Hb).
  - intros Hcl. split; [exact (no_residue s i c Hs Hc Hcl)|].
    destruct (cleaned_has_file c Hloc Hcl) as [fl Hf].
    destruct (body_cleaned c gone Hcl) as (H5 & H6 & H7 & H8).
    assert (Hd : data_read c = take READ_MAX (content fl))
      by (unfold data_read; by rewrite Hf).
    rewrite Hf in H5. rewrite Hd in H6.
    exists (length pre + 5), fl, gone. subst hist.
    rewrite Hev, <- !Nat.add_assoc, !lookup_history. cbn [Nat.add].
    split; [done|]. split; [done|]. split; [done|]. split; [done|].
    rewrite !filter_app, body_filter_fread, body_filter_remove, Hcl, Hd.
    rewrite (filter_init_nil is_fread), (filter_init_nil is_remove);
      [|by intros []|done|by intros []|done].
    assert (H7' : (7 <=? stage (pc c)) = true).
    { unfold cleaned in Hcl. apply Nat.leb_le in Hcl. apply Nat.leb_le. lia. }
    by rewrite H7'.
  - intros Hpc. unfold locals_ok in Hloc. rewrite Hpc in Hloc.
    destruct Hloc as (_ & _ & [fl Hf]). exists fl. split; [done|].
    intros a1 a2 a3.
    destruct (file_steps s i c fl a1 a2 a3 Hc Hpc Hf)
      as (s' & c' & Hrun & Hc' & Hpc' & Hid & Hfiles & Htr).
    assert (Hn : c_str (pidfilename c) = pidfile_name (id c)).
    { apply (named_c_str s i c Hs Hc). by rewrite Hpc. }
    rewrite Hn in Hfiles, Htr.
    exists s', c'. split; [done|]. split; [done|]. split; [done|].
    split; [by rewrite Hpc'|]. split.
    + rewrite Hfiles. apply lookup_delete_eq.
    + rewrite Htr, events_of_app, events_of_own. done.
  - intros Hk e He.
    pose proof (reachable_file_events_own s Hs Hk) as Hown.
    apply events_of_elem in He.
    destruct e as [| | | | | | | | | |n [fl|]| | |n [fl|]| | | | |]; try done;
      intros j Hw; eapply (Hown i); eauto.
Qed.

Lemma pidfile_lifecycle_witness :
  reachable demo_state /\ calls demo_state !! 0 = Some demo_call
  /\ (forall n fl, files (glob demo_state) !! n = Some fl -> writer fl <> Some 0)
  /\ (exists fl gone,
        events_of 0 (trace demo_state) !! 8
        = Some (EvFopen (cs "_yafu_system_.0") (Some fl))
        /\ events_of 0 (trace demo_state) !! 9
           = Some (EvFread (cs "_yafu_system_.0") (take READ_MAX (content fl)))
        /\ events_of 0 (trace demo_state) !! 10 = Some (EvFclose (cs "_yafu_system_.0"))
        /\ events_of 0 (trace demo_state) !! 11
           = Some (EvRemove (cs "_yafu_system_.0") gone)
        /\ filter (fun e => is_remove e = true) (events_of 0 (trace demo_state))
           = [EvRemove (cs "_yafu_system_.0") gone]
        /\ forall j, writer fl = Some j -> j = 0).
Proof.
  assert (Hr : reachable demo_state)
    by (by_run (one_call (cs "true") demo_answer 24)).
  assert (Hc : calls demo_state !! 0 = Some demo_call) by (vm_compute; reflexivity).
  assert (Hcl : cleaned (pc demo_call) = true) by (vm_compute; reflexivity).
  assert (Hn : cs "_yafu_system_." ++ fmt_d (id demo_call) = cs "_yafu_system_.0")
    by (vm_compute; reflexivity).
  assert (Hk : (Z.of_nat (length (draws (trace demo_state))) <= 2 ^ 32)%Z).
  { assert (E : length (draws (trace demo_state)) = 1) by (vm_compute; reflexivity).
    rewrite E. lia. }
  pose proof (pidfile_lifecycle demo_state 0 demo_call Hr Hc) as H.
  cbv zeta in H. rewrite Hn in H.
  destruct H as (Hseq & _ & _ & _ & _ & Hclean & _ & Hown).
  destruct (Hclean Hcl) as (Hres & _ & _ & gone & _ & _ & _ & _ & _ & Hrem).
  split; [exact Hr|]. split; [exact Hc|]. split; [exact Hres|].
  pose (fl := {| writer := Some 0; content := cs "1234" |}).
  assert (Hat : events_of 0 (trace demo_state) !! 8
                = Some (EvFopen (cs "_yafu_system_.0") (Some fl)))
    by (vm_compute; reflexivity).
  destruct (Hseq 8 _ _ Hat) as (_ & Hread & Hclose & Hremove).
  assert (H9 : exists x, events_of 0 (trace demo_state) !! 9 = Some x)
    by (eexists; vm_compute; reflexivity).
  assert (H10 : exists x, events_of 0 (trace demo_state) !! 10 = Some x)
    by (eexists; vm_compute; reflexivity).
  assert (H11 : exists x, events_of 0 (trace demo_state) !! 11 = Some x)
    by (eexists; vm_compute; reflexivity).
  destruct H9 as [x9 H9], H10 as [x10 H10], H11 as [x11 H11].
  exists fl, gone. split; [exact Hat|].
  split; [exact (eq_trans H9 (f_equal Some (Hread x9 H9)))|].
  split; [exact (eq_trans H10 (f_equal Some (Hclose x10 H10)))|].
  destruct (Hremove x11 H11) as [g Hg].
  assert (Hin : EvRemove (cs "_yafu_system_.0") g
                ∈ filter (fun e => is_remove e = true) (events_of 0 (trace demo_state))).
  { apply list_elem_of_filter. split; [reflexivity|].
    apply (list_elem_of_lookup_2 _ 11). exact (eq_trans H11 (f_equal Some Hg)). }
  rewrite Hrem in Hin. apply list_elem_of_singleton in Hin.
  injection Hin as Hgg.
  split; [exact (eq_trans H11 (f_equal Some (eq_trans Hg (f_equal _ Hgg))))|].
  split; [exact Hrem|].
  exact (Hown Hk (EvFopen (cs "_yafu_system_.0") (Some fl))
           (list_elem_of_lookup_2 _ 8 _ Hat)).
Defined.

(** ** Critical sections in the global order of events *)

Lemma serial_app (o : option nat) (t1 t2 : list (nat * Event)) :
  serial o (t1 ++ t2) = match serial o t1 with Some o' => serial o' t2 | None => None end.
Proof.
  revert o. induction t1 as [|[i e] t1 IH]; intros o; [done|].
  cbn [app serial]. destruct e; try apply IH;
    try (destruct (decide (o = Some i)); [apply IH|done]).
  destruct o; [done|apply IH].
Qed.

(** X1. In the global order of events the critical sections of different
    calls do not overlap: EnterCriticalSection succeeds only when no call is
    inside, and every counter update, diagnostic line, system() call and
    LeaveCriticalSection comes from the call that entered last; the call
    inside at the end is the owner recorded in the critical section, and no
    two calls are between lines 72 and 82 at the same time. *)
Theorem critical_sections_serial (s : State) :
  reachable s ->
  serial None (trace s) = Some (owner_of (systemcrit (glob s)))
  /\ (forall i j ci cj, calls s !! i = Some ci -> calls s !! j = Some cj ->
        holding (pc ci) = true -> holding (pc cj) = true -> i = j).
Proof.
  intros Hs. split; [|intros i j ci cj; by apply holders_equal].
  induction Hs as [dir|s act s' Hs IH Hex] using reachable_ind; [done|].
  destruct (reachable_lock_inv s Hs) as [Hl _].
  apply exec_inv in Hex as [(cmd & j1 & j2 & -> & ->)|
      (i & a & c & g' & c' & evs & -> & Hc & Hstep & ->)]; [exact IH|].
  unfold stepped. cbn [trace glob]. rewrite serial_app, IH.
  specialize (Hl i c Hc).
  unfold step_call in Hstep.
  destruct (pc c) eqn:Hpc; split_step Hstep; cbn [map serial]; glob_simpl;
    try done;
    try (destruct Hl as [Hl _]; rewrite (Hl eq_refl); cbn [owner_of];
         by rewrite decide_True by done).
  all: try by destruct (systemcrit (glob s)).
  destruct (reachable_init_inv s Hs) as (_ & Hinit & _).
  destruct (Hinit i c Hc) as (_ & He & _). rewrite Hpc in He.
  destruct (He eq_refl) as (_ & [Hraw _] & _). by rewrite (Hraw eq_refl).
Qed.

Lemma critical_sections_serial_witness :
  reachable contended_state
  /\ serial None (trace contended_state) = Some (Some 1).
Proof.
  assert (Hr : reachable contended_state) by (by_run contended_actions).
  split; [exact Hr|].
  destruct (critical_sections_serial contended_state Hr) as [H _].
  rewrite H. vm_compute. reflexivity.
Defined.

(** ** Progress *)

(** Outside EnterCriticalSection and fread a call that has not returned
    can always perform its next action. *)
Lemma step_enabled (a : Answer) (i : nat) (g : Globals) (c : Call) :
  returned (pc c) = false -> pc c <> PEnter -> pc c <> PFread ->
  is_Some (step_call a i g c).
Proof.
  intros Hr He Hf. unfold step_call.
  destruct (pc c); try done; try (by eexists).
  - by destruct (decide (initializing g = 0%Z)).
  - by destruct (decide (initializing g = 1%Z)).
  - destruct (files g !! c_str (pidfilename c)); [destruct (a_fopen a)|]; by eexists.
  - by destruct (decide _).
Qed.

Lemma exec_enabled (s : State) (i : nat) (c : Call) (a : Answer) :
  calls s !! i = Some c -> is_Some (step_call a i (glob s) c) ->
  is_Some (exec (Run i a) s).
Proof.
  intros Hc [[[g' c'] evs] Hst]. unfold exec. rewrite Hc, Hst. by eexists.
Qed.

(** X2. The function cannot deadlock.  A call that has not returned can
    perform its next action whatever the environment answers, unless it
    stands at EnterCriticalSection while another call owns the critical
    section; that owner is then between lines 72 and 82 and can itself
    perform its next action. *)
Theorem no_deadlock (s : State) (i : nat) (c : Call) :
  reachable s -> calls s !! i = Some c -> returned (pc c) = false ->
  (forall a, is_Some (exec (Run i a) s))
  \/ (pc c = PEnter
      /\ exists o co, o <> i /\ systemcrit (glob s) = CsOwned o
           /\ calls s !! o = Some co /\ holding (pc co) = true
           /\ forall a, is_Some (exec (Run o a) s)).
Proof.
  intros Hs Hc Hr.
  destruct (reachable_lock_inv s Hs) as [Hl Hown].
  assert (Hcase : pc c = PEnter \/ pc c = PFread
                  \/ (pc c <> PEnter /\ pc c <> PFread))
    by (destruct (pc c); auto).
  destruct Hcase as [He|[Hf|[He Hf]]].
  - destruct (systemcrit (glob s)) as [| |o] eqn:Hcs.
    + destruct (reachable_init_inv s Hs) as ((_ & _ & Hraw) & Hinit & _).
      destruct (Hinit i c Hc) as (_ & _ & Hpast).
      rewrite He in Hpast. by destruct (Hraw (Hpast eq_refl)).
    + left. intros a. apply (exec_enabled s i c a Hc).
      unfold step_call. rewrite He, Hcs. by eexists.
    + right. split; [done|].
      destruct (lookup_lt_is_Some_2 (calls s) o (Hown o eq_refl)) as [co Hco].
      pose proof (proj2 (Hl o co Hco) eq_refl) as Hho.
      exists o, co. split.
      { intros ->. rewrite Hc in Hco. injection Hco as <-. by rewrite He in Hho. }
      split; [done|]. split; [done|]. split; [done|].
      intros a. apply (exec_enabled s o co a Hco), step_enabled;
        by destruct (pc co).
  - left. intros a. apply (exec_enabled s i c a Hc).
    destruct (reachable_call_inv s Hs i c Hc) as (Hloc & _).
    unfold locals_ok in Hloc. rewrite Hf in Hloc. destruct Hloc as (_ & _ & [fl Hfl]).
    unfold step_call. rewrite Hf, Hfl. by eexists.
  - left. intros a. apply (exec_enabled s i c a Hc). by apply step_enabled.
Qed.

Lemma no_deadlock_witness :
  exists c o, reachable contended_state
    /\ calls contended_state !! 0 = Some c /\ pc c = PEnter
    /\ systemcrit (glob contended_state) = CsOwned o
    /\ forall a, is_Some (exec (Run o a) contended_state).
Proof.
  assert (Hr : reachable contended_state) by (by_run contended_actions).
  pose (c := default (enter_call [] [] []) (calls contended_state !! 0)).
  assert (Hc : calls contended_state !! 0 = Some c) by (vm_compute; reflexivity).
  assert (Hp : pc c = PEnter) by (vm_compute; reflexivity).
  assert (Hn : returned (pc c) = false) by (rewrite Hp; reflexivity).
  destruct (no_deadlock contended_state 0 c Hr Hc Hn) as [Hfree|(_ & o & co & _ & Ho & _ & _ & Hen)].
  - exfalso. destruct (Hfree demo_answer) as [s' Hs'].
    vm_compute in Hs'. discriminate Hs'.
  - exists c, o. split; [exact Hr|]. split; [exact Hc|]. split; [exact Hp|].
    split; [exact Ho|exact Hen].
Defined.

(** ** A call that runs alone *)

Lemma run_app (l1 l2 : list Action) (s : State) :
  run (l1 ++ l2) s = match run l1 s with Some s' => run l2 s' | None => None end.
Proof.
  revert s. induction l1 as [|a0 l1 IH]; intros s; simpl; [done|].
  destruct (exec a0 s); [apply IH|done].
Qed.

(** Lines 54-82 of a call that runs alone, with any stack contents. *)
Lemma solo_submit (s : State) (cmd j1 j2 : list ascii) (a : Answer) :
  quiescent s ->
  let n := length (calls s) in
  let u := usecount (glob s) in
  exists s' c',
    run (Spawn cmd j1 j2 :: repeat (Run n a) 12) s = Some s'
    /\ calls s' = calls s ++ [c'] /\ pc c' = PFopen
    /\ c_str (pidfilename c') = pidfile_name u /\ ret c' = a_status a
    /\ initializing (glob s') = 2%Z /\ systemcrit (glob s') = CsFree
    /\ usecount (glob s') = wrap_int (u + 1)
    /\ files (glob s') = shell_effect n (pidfile_name u) (a_shell a) (files (glob s)).
Proof.
  intros [Hflag Hfree] n u. eexists. eexists. split.
  - subst n. change (run (Spawn cmd j1 j2 :: ?r) s) with (run r (spawned cmd j1 j2 s)).
    unfold spawned. cbn [repeat].
    last_call_steps_with ltac:(rewrite Hflag, decide_False by lia).
    last_call_steps_with ltac:(rewrite Hflag, decide_False by lia).
    last_call_steps.
    last_call_steps_with ltac:(rewrite Hfree).
    do 8 last_call_steps.
    cbn [run]. reflexivity.
  - cbn [glob calls trace]. split; [reflexivity|].
    proj_simpl; glob_simpl. rewrite !c_str_name_poke.
    split; [reflexivity|]. split; [reflexivity|].
    split; [reflexivity|]. split; [exact Hflag|]. split; [reflexivity|].
    split; reflexivity.
Qed.

(** Lines 85-103 of a call that runs alone. *)
Lemma solo_finish (s : State) (l : list Call) (c : Call) (a : Answer)
    (name : list ascii) :
  calls s = l ++ [c] -> pc c = PFopen -> c_str (pidfilename c) = name ->
  let found := files (glob s) !! name in
  let how := (outcome a found).1 in
  exists s' c',
    run (repeat (Run (length l) a) (own_steps how - 12)) s = Some s'
    /\ calls s' = l ++ [c']
    /\ pc c' = PDone how (match how with ExWaited => ret c | _ => (-1)%Z end)
    /\ glob s' = match how with
                 | ExNoPidfile => glob s
                 | _ => set_files (delete name (files (glob s))) (glob s)
                 end.
Proof.
  intros Hl Hpc Hname found how. subst found how. unfold outcome.
  destruct s as [g cl tr]. cbn [calls glob] in *. subst cl.
  destruct (files g !! name) as [fl|] eqn:Hfound; [destruct (a_fopen a) eqn:Hopen|];
    [destruct (decide (handle_of a = INVALID_HANDLE_VALUE)) as [Hh|Hh]| |];
    cbn [fst own_steps Nat.sub repeat]; eexists; eexists.
  - split.
    + last_call_steps_with ltac:(rewrite Hpc; cbn zeta; rewrite Hname, Hfound, Hopen).
      do 5 last_call_steps.
      last_call_steps_with ltac:(fold (handle_of a); rewrite decide_True by exact Hh).
      cbn [run]. reflexivity.
    + cbn [calls glob]. split; [reflexivity|]. proj_simpl. by rewrite Hname.
  - split.
    + last_call_steps_with ltac:(rewrite Hpc; cbn zeta; rewrite Hname, Hfound, Hopen).
      do 5 last_call_steps.
      last_call_steps_with ltac:(fold (handle_of a); rewrite decide_False by exact Hh).
      do 3 last_call_steps.
      cbn [run]. reflexivity.
    + cbn [calls glob]. split; [reflexivity|]. proj_simpl. by rewrite Hname.
  - split.
    + last_call_steps_with ltac:(rewrite Hpc; cbn zeta; rewrite Hname, Hfound, Hopen).
      cbn [run]. reflexivity.
    + cbn [calls glob]. split; [reflexivity|]. by proj_simpl.
  - split.
    + last_call_steps_with ltac:(rewrite Hpc; cbn zeta; rewrite Hname, Hfound).
      cbn [run]. reflexivity.
    + cbn [calls glob]. split; [reflexivity|]. by proj_simpl.
Qed.

(** X3. A call that runs alone, once the critical section is initialised
    and free: it returns after 13, 19 or 22 of its own actions, whatever the
    stack held.  It returns -1 when no file of its pidfile name exists after
    system() or fopen() is refused, -1 when OpenProcess gives
    INVALID_HANDLE_VALUE, and the status of system() otherwise.  The counter
    has advanced by one on every path, the critical section is free again,
    and the pidfile name is gone from the directory unless fopen() failed --
    also when the file was left by an earlier process and not written by
    this call's shell. *)
Theorem solo_call (s : State) (cmd j1 j2 : list ascii) (a : Answer) :
  quiescent s ->
  let n := length (calls s) in
  let name := pidfile_name (usecount (glob s)) in
  let dir1 := shell_effect n name (a_shell a) (files (glob s)) in
  let res := outcome a (dir1 !! name) in
  exists s' c',
    run (Spawn cmd j1 j2 :: repeat (Run n a) (own_steps res.1)) s = Some s'
    /\ calls s' = calls s ++ [c'] /\ pc c' = PDone res.1 res.2
    /\ quiescent s'
    /\ usecount (glob s') = wrap_int (usecount (glob s) + 1)
    /\ files (glob s')
       = match res.1 with ExNoPidfile => dir1 | _ => delete name dir1 end
    /\ forall a', exec (Run n a') s' = None.
Proof.
  intros Hq n name dir1 res.
  destruct (solo_submit s cmd j1 j2 a Hq)
    as (s1 & c1 & Hrun1 & Hcalls1 & Hpc1 & Hname1 & Hret1 & Hflag1 & Hfree1 & Huse1 & Hfiles1).
  fold n name in Hrun1, Hname1, Hfiles1. fold dir1 in Hfiles1.
  destruct (solo_finish s1 (calls s) c1 a name Hcalls1 Hpc1 Hname1)
    as (s2 & c2 & Hrun2 & Hcalls2 & Hpc2 & Hglob2).
  rewrite Hfiles1 in Hrun2, Hpc2, Hglob2. fold res in Hrun2, Hpc2, Hglob2. fold n in Hrun2.
  exists s2, c2.
  assert (Hsteps : own_steps res.1 = 12 + (own_steps res.1 - 12))
    by (destruct res.1; reflexivity).
  split.
  { rewrite Hsteps, repeat_app.
    change (Spawn cmd j1 j2 :: ?x ++ ?y) with ((Spawn cmd j1 j2 :: x) ++ y).
    by rewrite run_app, Hrun1. }
  split; [exact Hcalls2|].
  assert (Hv : (match res.1 with ExWaited => ret c1 | _ => (-1)%Z end) = res.2).
  { rewrite Hret1. subst res. unfold outcome.
    destruct (dir1 !! name); [destruct (a_fopen a)|]; try done.
    by destruct (decide (handle_of a = INVALID_HANDLE_VALUE)). }
  rewrite Hv in Hpc2. split; [exact Hpc2|].
  assert (Hg : initializing (glob s2) = 2%Z /\ systemcrit (glob s2) = CsFree
               /\ usecount (glob s2) = wrap_int (usecount (glob s) + 1)
               /\ files (glob s2)
                  = match res.1 with ExNoPidfile => dir1 | _ => delete name dir1 end).
  { rewrite Hglob2. destruct res.1; glob_simpl; by rewrite ?Hfiles1. }
  destruct Hg as (Hf2 & Hc2 & Hu2 & Hd2).
  split; [by split|]. split; [exact Hu2|]. split; [exact Hd2|].
  intros a'. unfold exec. rewrite Hcalls2, list_lookup_middle by done.
  unfold step_call. by rewrite Hpc2.
Qed.

Lemma solo_call_witness :
  quiescent first_state
  /\ exists s' c',
       run (Spawn (cs "make") (cs "junk") (cs "7") :: repeat (Run 1 demo_answer) 22)
           first_state = Some s'
       /\ calls s' = calls first_state ++ [c'] /\ pc c' = PDone ExWaited 0.
Proof.
  assert (Hq : quiescent first_state) by (split; vm_compute; reflexivity).
  split; [exact Hq|].
  destruct (solo_call first_state (cs "make") (cs "junk") (cs "7") demo_answer Hq)
    as (s' & c' & Hrun & Hcalls & Hpc & _).
  exists s', c'. split; [exact Hrun|]. split; [exact Hcalls|exact Hpc].
Defined.

(** ** Calls that have returned *)

Lemma body_returned (c : Call) (gone : option File) (how : Exit) (v : Z) :
  pc c = PDone how v ->
  filter (fun e => is_system e = true) (body c gone)
  = [EvSystem (augmented (cmd c) (id c)) (ret c)]
  /\ filter (fun e => is_return e = true) (body c gone)
     = [EvReturn (match how with ExWaited => ret c | _ => (-1)%Z end)]
  /\ last (body c gone)
     = Some (EvReturn (match how with ExWaited => ret c | _ => (-1)%Z end))
  /\ body c gone !! 4 = Some EvLeave.
Proof. intros Hpc. unfold body, path. rewrite Hpc. by destruct how. Qed.

Lemma returned_value (c : Call) (how : Exit) (v : Z) :
  locals_ok c -> pc c = PDone how v ->
  v = match how with ExWaited => ret c | _ => (-1)%Z end.
Proof.
  unfold locals_ok. intros Hloc Hpc. rewrite Hpc in Hloc.
  destruct how; by destruct_and?.
Qed.

(** X4. A call that has returned -- with -1 as well -- has called system()
    exactly once with its augmented command and has left the critical
    section; it returned once, as its last action; the value is the status
    of system() on the path through line 103 and -1 on the two early
    exits. *)
Theorem returned_call (s : State) (i : nat) (c : Call) (how : Exit) (v : Z) :
  reachable s -> calls s !! i = Some c -> pc c = PDone how v ->
  let hist := events_of i (trace s) in
  filter (fun e => is_system e = true) hist
  = [EvSystem (c_str (cmd c) ++ cs " & echo -n $! > " ++ cs "_yafu_system_."
               ++ fmt_d (id c)) (ret c)]
  /\ filter (fun e => is_return e = true) hist = [EvReturn v]
  /\ last hist = Some (EvReturn v)
  /\ v = match how with ExWaited => ret c | _ => (-1)%Z end
  /\ EvLeave ∈ hist
  /\ systemcrit (glob s) <> CsOwned i
  /\ forall a, exec (Run i a) s = None.
Proof.
  intros Hs Hc Hpc hist.
  destruct (reachable_call_inv s Hs i c Hc) as (Hloc & _).
  destruct (own_history s i c Hs Hc) as (pre & gone & Hpre & Hev).
  destruct (body_returned c gone how v Hpc) as (Hsys & Hret & Hlast & Hleave).
  pose proof (returned_value c how v Hloc Hpc) as Hv.
  subst hist. rewrite Hev, !filter_app.
  rewrite (filter_init_nil is_system), (filter_init_nil is_return);
    [|by intros []|done|by intros []|done].
  rewrite Hsys, Hret, <- Hv.
  split; [done|]. split; [done|]. split.
  { rewrite last_app, Hlast, <- Hv. done. }
  split; [done|]. split.
  { apply elem_of_app. right. by eapply list_elem_of_lookup_2. }
  split.
  - destruct (reachable_lock_inv s Hs) as [Hl _]. intros Ho.
    apply (Hl i c Hc) in Ho. by rewrite Hpc in Ho.
  - intros a. unfold exec. rewrite Hc. unfold step_call. by rewrite Hpc.
Qed.

Lemma returned_call_witness :
  reachable first_state
  /\ exists c, calls first_state !! 0 = Some c /\ pc c = PDone ExNoPidfile (-1)
       /\ filter (fun e => is_system e = true) (events_of 0 (trace first_state))
          = [EvSystem (cs "true & echo -n $! > _yafu_system_.0") 0].
Proof.
  assert (Hr : reachable first_state)
    by (by_run (one_call (cs "true") no_pidfile_answer 15)).
  pose (c := default (enter_call [] [] []) (calls first_state !! 0)).
  assert (Hc : calls first_state !! 0 = Some c) by (vm_compute; reflexivity).
  assert (Hp : pc c = PDone ExNoPidfile (-1)) by (vm_compute; reflexivity).
  split; [exact Hr|]. exists c. split; [exact Hc|]. split; [exact Hp|].
  destruct (returned_call first_state 0 c ExNoPidfile (-1) Hr Hc Hp) as (H & _).
  rewrite H. vm_compute. reflexivity.
Defined.

(** ** The handle of the spawned task *)

Lemma body_wait_handle (c : Call) (gone : option File) (m : nat) (hd t : Z) :
  body c gone !! m = Some (EvWait hd t) ->
  m = 11 /\ t = INFINITE /\ hd = h c /\ (12 <=? stage (pc c)) = true
  /\ body c gone !! 9 = Some (EvPidToWinpid (pid c) (winpid c))
  /\ body c gone !! 10 = Some (EvOpenProcess SYNCHRONIZE false (winpid c) (h c)).
Proof. intros Hm. by body_cases c; index_cases m Hm; simplify_eq. Qed.

Lemma body_close_handle (c : Call) (gone : option File) (m : nat) (hd : Z) :
  body c gone !! m = Some (EvCloseHandle hd) ->
  m = 12 /\ body c gone !! 11 = Some (EvWait hd INFINITE).
Proof. intros Hm. by body_cases c; index_cases m Hm; simplify_eq. Qed.

Lemma body_filter_close (c : Call) (gone : option File) :
  filter (fun e => is_close e = true) (body c gone)
  = if 13 <=? stage (pc c) then [EvCloseHandle (h c)] else [].
Proof. by body_cases c. Qed.

Lemma waited_handle_valid (c : Call) :
  locals_ok c -> (12 <=? stage (pc c)) = true -> h c <> INVALID_HANDLE_VALUE.
Proof.
  unfold locals_ok.
  destruct (pc c) as [| | | | | | | | | | | | | | | | | | | | | | | | | |[] ?];
    try discriminate; intros Hloc _; by destruct_and?.
Qed.

(** X5. The handle: every WaitForSingleObject has an INFINITE timeout and
    waits on the handle that the OpenProcess just before it returned, for
    the Windows pid that cygwin_internal just before that gave, and that
    handle is not INVALID_HANDLE_VALUE; every CloseHandle closes the handle
    just waited on, and a call closes at most once.  A call that returned
    through line 103 ends with wait, close, return.  A call that returned at
    line 99 got INVALID_HANDLE_VALUE from OpenProcess and neither waited nor
    closed. *)
Theorem handle_discipline (s : State) (i : nat) (c : Call) :
  reachable s -> calls s !! i = Some c ->
  let hist := events_of i (trace s) in
  (forall k hd t, hist !! k = Some (EvWait hd t) ->
     t = INFINITE /\ hd <> INVALID_HANDLE_VALUE
     /\ exists k0 p w, k = k0 + 2
          /\ hist !! k0 = Some (EvPidToWinpid p w)
          /\ hist !! (k0 + 1) = Some (EvOpenProcess SYNCHRONIZE false w hd))
  /\ (forall k hd, hist !! k = Some (EvCloseHandle hd) ->
        exists k0, k = S k0 /\ hist !! k0 = Some (EvWait hd INFINITE))
  /\ length (filter (fun e => is_close e = true) hist) <= 1
  /\ (forall v, pc c = PDone ExWaited v ->
        exists before hd,
          hist = before ++ [EvWait hd INFINITE; EvCloseHandle hd; EvReturn v])
  /\ (forall v, pc c = PDone ExNoHandle v ->
        v = (-1)%Z
        /\ Forall (fun e => is_wait_or_close e = false) hist
        /\ exists before w,
             hist = before ++ [EvOpenProcess SYNCHRONIZE false w INVALID_HANDLE_VALUE;
                               EvReturn (-1)]).
Proof.
  intros Hs Hc hist.
  destruct (reachable_call_inv s Hs i c Hc) as (Hloc & _).
  destruct (own_history s i c Hs Hc) as (pre & gone & Hpre & Hev).
  split; [|split; [|split; [|split]]].
  - intros k hd t Hk.
    destruct (history_split s i c k _ Hs Hc Hk eq_refl) as (p1 & g1 & m & E1 & -> & Hm).
    destruct (body_wait_handle c g1 m hd t Hm) as (-> & -> & -> & Hst & H9 & H10).
    split; [done|]. split; [by apply waited_handle_valid|].
    exists (length p1 + 9), (pid c), (winpid c). split; [lia|].
    subst hist. rewrite E1, <- !Nat.add_assoc, !lookup_history. done.
  - intros k hd Hk.
    destruct (history_split s i c k _ Hs Hc Hk eq_refl) as (p1 & g1 & m & E1 & -> & Hm).
    destruct (body_close_handle c g1 m hd Hm) as (-> & H11).
    exists (length p1 + 11). split; [lia|].
    subst hist. by rewrite E1, lookup_history.
  - subst hist. rewrite Hev, filter_app, body_filter_close.
    rewrite (filter_init_nil is_close); [|by intros []|done].
    by destruct (13 <=? stage (pc c)); simpl; lia.
  - intros v Hpc. pose proof (returned_value c _ v Hloc Hpc) as ->.
    exists (pre ++ take 11 (path c gone)), (h c).
    subst hist. rewrite Hev, <- app_assoc. f_equal.
    unfold body. rewrite Hpc. reflexivity.
  - intros v Hpc. pose proof (returned_value c _ v Hloc Hpc) as ->.
    split; [done|].
    assert (Hh : h c = INVALID_HANDLE_VALUE).
    { unfold locals_ok in Hloc. rewrite Hpc in Hloc. by destruct_and?. }
    split.
    + subst hist. rewrite Hev. apply Forall_app. split.
      * eapply Forall_impl; [exact Hpre|]. by intros [].
      * unfold body, path. rewrite Hpc. cbn [stage take app].
        by repeat constructor.
    + exists (pre ++ take 10 (path c gone)), (winpid c).
      subst hist. rewrite Hev, <- app_assoc. f_equal.
      unfold body. rewrite Hpc, <- Hh. reflexivity.
Qed.

Lemma handle_discipline_witness :
  reachable demo_state /\ calls demo_state !! 0 = Some demo_call
  /\ exists before hd,
       events_of 0 (trace demo_state)
       = before ++ [EvWait hd INFINITE; EvCloseHandle hd; EvReturn 0].
Proof.
  assert (Hr : reachable demo_state)
    by (by_run (one_call (cs "true") demo_answer 24)).
  assert (Hc : calls demo_state !! 0 = Some demo_call) by (vm_compute; reflexivity).
  split; [exact Hr|]. split; [exact Hc|].
  pose proof (handle_discipline demo_state 0 demo_call Hr Hc) as H.
  cbv zeta in H. destruct H as (_ & _ & _ & H & _).
  apply H. vm_compute. reflexivity.
Defined.

(** ** The working directory *)

Lemma run_from_ind (dir : gmap (list ascii) (list ascii)) (P : State -> Prop) :
  P (initial dir) ->
  (forall s act s', reachable s -> P s -> exec act s = Some s' -> P s') ->
  forall acts s, run acts (initial dir) = Some s -> P s.
Proof.
  intros Hinit Hstep acts.
  induction acts as [|act acts IH] using rev_ind; intros s Hrun.
  - simpl in Hrun. simplify_eq. apply Hinit.
  - rewrite run_snoc in Hrun. destruct (run acts (initial dir)) as [s0|] eqn:H0; [|done].
    eapply Hstep; [|by apply IH|exact Hrun]. by exists dir, acts.
Qed.

Lemma pidfile_name_prefix (v : Z) : pidfile_prefix `prefix_of` pidfile_name v.
Proof. by exists (fmt_d v). Qed.

(** What a step does to the directory. *)
Lemma step_files (s : State) (i : nat) (a : Answer) (c c' : Call) (g' : Globals)
    (evs : list Event) :
  reachable s -> calls s !! i = Some c ->
  step_call a i (glob s) c = Some (g', c', evs) ->
  files g' = files (glob s)
  \/ (exists bytes, pc c = PSystem /\ a_shell a = Some bytes
        /\ files g' = <[pidfile_name (id c) := {| writer := Some i; content := bytes |}]>
                        (files (glob s)))
  \/ (pc c = PRemove
        /\ files g' = delete (pidfile_name (id c)) (files (glob s))
        /\ evs = [EvRemove (pidfile_name (id c)) (files (glob s) !! pidfile_name (id c))]).
Proof.
  intros Hs Hc Hstep.
  destruct (writes_files (pc c)) eqn:Hw.
  - assert (Hname : c_str (pidfilename c) = pidfile_name (id c)).
    { eapply named_c_str; [exact Hs|exact Hc|]. by destruct (pc c). }
    unfold step_call in Hstep.
    destruct (pc c) eqn:Hpc; try discriminate; split_step Hstep; glob_simpl;
      rewrite Hname.
    + unfold shell_effect. destruct (a_shell a) as [bytes|] eqn:Hsh; [|by left].
      right. left. by exists bytes.
    + right. right. done.
  - left. by destruct (step_files_frame _ _ _ _ _ _ _ Hstep Hw).
Qed.

(** X6. The function's own file operations touch nothing but pidfiles: a
    name that does not begin with "_yafu_system_." is bound in the directory
    as at process start; a file not written by a submission shell is a file
    from process start with its content unchanged; and a file from process
    start is missing only after some call removed it by remove() at line
    90. *)
Theorem directory_frame (dir : gmap (list ascii) (list ascii))
    (acts : list Action) (s : State) :
  run acts (initial dir) = Some s ->
  (forall n, ~ cs "_yafu_system_." `prefix_of` n ->
     files (glob s) !! n = old_file <$> dir !! n)
  /\ (forall n fl, files (glob s) !! n = Some fl -> writer fl = None ->
        dir !! n = Some (content fl))
  /\ (forall n, is_Some (dir !! n) -> files (glob s) !! n = None ->
        exists i gone, (i, EvRemove n gone) ∈ trace s).
Proof.
  revert acts s. apply run_from_ind.
  - split; [|split].
    + intros n _. simpl. by rewrite lookup_fmap.
    + intros n fl Hn _. simpl in Hn. rewrite lookup_fmap in Hn.
      destruct (dir !! n); simpl in Hn; by simplify_eq.
    + intros n [b Hb] Hn. simpl in Hn. rewrite lookup_fmap, Hb in Hn. done.
  - intros s act s' Hs (IH1 & IH2 & IH3) Hex.
    apply exec_inv in Hex as [(cmd & j1 & j2 & -> & ->)|
      (i & a & c & g' & c' & evs & -> & Hc & Hstep & ->)]; [done|].
    unfold stepped. cbn [glob trace].
    destruct (step_files s i a c c' g' evs Hs Hc Hstep)
      as [->|[(bytes & _ & _ & ->)|(_ & -> & ->)]].
    + split; [done|]. split; [done|].
      intros n Hd Hn. destruct (IH3 n Hd Hn) as (j & gone & Hin).
      exists j, gone. apply elem_of_app. by left.
    + split; [|split].
      * intros n Hn. rewrite lookup_insert_ne; [by apply IH1|].
        intros <-. apply Hn, pidfile_name_prefix.
      * intros n fl Hn Hw.
        destruct (decide (n = pidfile_name (id c))) as [->|Hne].
        -- rewrite lookup_insert_eq in Hn. by simplify_eq.
        -- rewrite lookup_insert_ne in Hn by done. by apply IH2.
      * intros n Hd Hn.
        destruct (decide (n = pidfile_name (id c))) as [->|Hne].
        -- by rewrite lookup_insert_eq in Hn.
        -- rewrite lookup_insert_ne in Hn by done.
           destruct (IH3 n Hd Hn) as (j & gone & Hin).
           exists j, gone. apply elem_of_app. by left.
    + split; [|split].
      * intros n Hn. rewrite lookup_delete_ne; [by apply IH1|].
        intros <-. apply Hn, pidfile_name_prefix.
      * intros n fl Hn Hw.
        destruct (decide (n = pidfile_name (id c))) as [->|Hne].
        -- by rewrite lookup_delete_eq in Hn.
        -- rewrite lookup_delete_ne in Hn by done. by apply IH2.
      * intros n Hd Hn.
        destruct (decide (n = pidfile_name (id c))) as [->|Hne].
        -- exists i, (files (glob s) !! pidfile_name (id c)).
           apply elem_of_app. right. apply list_elem_of_here.
        -- rewrite lookup_delete_ne in Hn by done.
           destruct (IH3 n Hd Hn) as (j & gone & Hin).
           exists j, gone. apply elem_of_app. by left.
Qed.

Lemma directory_frame_witness :
  run (one_call (cs "true") no_pidfile_answer 24) (initial stale_dir) = Some stale_state
  /\ files (glob stale_state) !! cs "notes.txt" = Some (old_file (cs "hello"))
  /\ exists i gone, (i, EvRemove (cs "_yafu_system_.0") gone) ∈ trace stale_state.
Proof.
  assert (Hrun : run (one_call (cs "true") no_pidfile_answer 24) (initial stale_dir)
                 = Some stale_state) by (vm_compute; reflexivity).
  split; [exact Hrun|].
  destruct (directory_frame stale_dir _ stale_state Hrun) as (H1 & _ & H3).
  split.
  - rewrite H1; [vm_compute; reflexivity|].
    intros [k Hk]. vm_compute in Hk. discriminate Hk.
  - apply H3; [|vm_compute; reflexivity].
    exists (cs "77"). vm_compute. reflexivity.
Defined.

(** ** The diagnostic line *)

Lemma body_filter_stderr (c : Call) (gone : option File) :
  filter (fun e => is_stderr e = true) (body c gone)
  = if 3 <=? stage (pc c)
    then [EvStderr (diagnostic (augmented (cmd c) (id c)))] else [].
Proof. by body_cases c. Qed.

Lemma body_stderr_before_system (c : Call) (gone : option File) (m : nat)
    (command : list ascii) (status : Z) :
  body c gone !! m = Some (EvSystem command status) ->
  m = 3 /\ body c gone !! 2 = Some (EvStderr (diagnostic command))
  /\ body c gone !! 0 = Some EvEnter.
Proof. intros Hm. by body_cases c; index_cases m Hm; simplify_eq. Qed.

(** X7. Every call prints its augmented command on stderr, as one line
    "*SYSTEM* >>...<<", exactly once and unconditionally; the line comes
    after EnterCriticalSection and right before the call of system() with
    that command. *)
Theorem diagnostic_line (s : State) (i : nat) (c : Call) :
  reachable s -> calls s !! i = Some c ->
  let hist := events_of i (trace s) in
  let aug := c_str (cmd c) ++ cs " & echo -n $! > " ++ cs "_yafu_system_."
             ++ fmt_d (id c) in
  filter (fun e => is_stderr e = true) hist
  = (if 3 <=? stage (pc c)
     then [EvStderr (cs "*SYSTEM* >>" ++ aug ++ cs "<<" ++ ["010"%char])] else [])
  /\ (forall k command status, hist !! k = Some (EvSystem command status) ->
        exists k0, k = k0 + 3 /\ hist !! k0 = Some EvEnter
          /\ hist !! (k0 + 2)
             = Some (EvStderr (cs "*SYSTEM* >>" ++ command ++ cs "<<" ++ ["010"%char]))).
Proof.
  intros Hs Hc hist aug.
  destruct (own_history s i c Hs Hc) as (pre & gone & Hpre & Hev).
  split.
  - subst hist. rewrite Hev, filter_app, body_filter_stderr.
    by rewrite (filter_init_nil is_stderr); [|by intros []|done].
  - intros k command status Hk.
    destruct (history_split s i c k _ Hs Hc Hk eq_refl) as (p1 & g1 & m & E1 & -> & Hm).
    destruct (body_stderr_before_system c g1 m command status Hm) as (-> & H2 & H0).
    exists (length p1). split; [lia|]. subst hist. rewrite E1. split.
    + by rewrite <- (Nat.add_0_r (length p1)), lookup_history.
    + by rewrite lookup_history.
Qed.

Lemma diagnostic_line_witness :
  reachable demo_state /\ calls demo_state !! 0 = Some demo_call
  /\ filter (fun e => is_stderr e = true) (events_of 0 (trace demo_state))
     = [EvStderr (cs "*SYSTEM* >>true & echo -n $! > _yafu_system_.0<<" ++ ["010"%char])].
Proof.
  assert (Hr : reachable demo_state)
    by (by_run (one_call (cs "true") demo_answer 24)).
  assert (Hc : calls demo_state !! 0 = Some demo_call) by (vm_compute; reflexivity).
  split; [exact Hr|]. split; [exact Hc|].
  pose proof (diagnostic_line demo_state 0 demo_call Hr Hc) as H.
  cbv zeta in H. destruct H as (H & _). rewrite H. vm_compute. reflexivity.
Defined.

(** ** The pid that comes back from the pidfile *)

Lemma digits_value_nul (acc : Z) (x rest : list ascii) :
  digits_value acc (x ++ NUL :: rest) = digits_value acc x.
Proof.
  revert acc. induction x as [|b x IH]; intros acc; [done|].
  cbn [app digits_value]. destruct (is_digit b); [by apply IH|done].
Qed.

Lemma skip_space_nul (x rest : list ascii) :
  skip_space (x ++ NUL :: rest)
  = match skip_space x with [] => NUL :: rest | y => y ++ NUL :: rest end.
Proof.
  induction x as [|b x IH]; [done|]. cbn [app skip_space].
  destruct (isspace b); [by apply IH|done].
Qed.

(** atoi stops at the terminator. *)
Lemma atoi_app_nul (x rest : list ascii) : atoi (x ++ NUL :: rest) = atoi x.
Proof.
  unfold atoi, strtol. rewrite skip_space_nul.
  destruct (skip_space x) as [|b y]; [reflexivity|].
  cbn [app]. destruct (decide (b = "-"%char)); [by rewrite digits_value_nul|].
  destruct (decide (b = "+"%char)); [by rewrite digits_value_nul|].
  cbn [digits_value]. destruct (is_digit b); [by rewrite digits_value_nul|done].
Qed.

Lemma nth_glue_not_digit (k : nat) : is_digit (nth k glue NUL) = false.
Proof. do 17 (destruct k as [|k]; [reflexivity|]). reflexivity. Qed.

(** The byte of the augmented command at an offset below 16 is a byte of
    the caller's command or a byte of the glue. *)
Lemma augmented_byte (cmd : list ascii) (v : Z) (k : nat) :
  k < 16 ->
  is_digit (nth k (c_str cmd) NUL) = false ->
  is_digit (nth k (augmented cmd v) NUL) = false.
Proof.
  intros Hk Hd. unfold augmented.
  destruct (decide (k < length (c_str cmd))) as [Hlt|Hge].
  - by rewrite app_nth1.
  - rewrite app_nth2 by lia. rewrite app_nth1 by (rewrite length_glue; lia).
    apply nth_glue_not_digit.
Qed.

(** The command buffer after fread: the bytes read, then what the augmented
    command and the stack had behind them. *)
Lemma buf_read_layout (c : Call) (fl : File) :
  f c = Some fl ->
  exists rest,
    buf_read c
    = take READ_MAX (content fl)
      ++ drop (length (take READ_MAX (content fl)))
              (augmented (cmd c) (id c) ++ NUL :: rest).
Proof.
  intros Hf. destruct (buf_submitted_layout c) as [rest Hb].
  exists rest. unfold buf_read, data_read. rewrite Hf, poke_0, Hb. done.
Qed.

Lemma body_pid (c : Call) (gone : option File) (q w : Z) :
  EvPidToWinpid q w ∈ body c gone -> q = pid c /\ w = winpid c.
Proof.
  intros He. apply list_elem_of_lookup_1 in He as [m Hm].
  by body_cases c; index_cases m Hm; simplify_eq.
Qed.

Lemma history_pid (s : State) (i : nat) (c : Call) (q w : Z) :
  reachable s -> calls s !! i = Some c ->
  EvPidToWinpid q w ∈ events_of i (trace s) -> q = pid c /\ w = winpid c.
Proof.
  intros Hs Hc Hin. destruct (own_history s i c Hs Hc) as (pre & gone & Hpre & Hev).
  rewrite Hev in Hin. apply elem_of_app in Hin as [Hin|Hin].
  - rewrite Forall_forall in Hpre. by apply Hpre in Hin.
  - by eapply body_pid.
Qed.

(** X8. The pid survives the trip through the pidfile when the caller's
    command has no digit at the offset of the number's length: if the
    pidfile holds the decimal digits of a positive int p and the byte of the
    command at offset length(digits) is no digit (or the command is shorter
    than that), then atoi gives p, and p is what cygwin_internal is asked to
    translate. *)
Theorem pid_round_trip (s : State) (i : nat) (c : Call) (fl : File) (p : Z) :
  reachable s -> calls s !! i = Some c -> parsed (pc c) = true ->
  f c = Some fl -> content fl = fmt_d p -> (0 < p <= INT_MAX)%Z ->
  is_digit (nth (length (fmt_d p)) (c_str (cmd c)) NUL) = false ->
  pid c = p
  /\ forall q w, EvPidToWinpid q w ∈ events_of i (trace s) -> q = p.
Proof.
  intros Hs Hc Hp Hf Hcont Hrange Hbyte.
  assert (Hpid : pid c = p); [|split; [exact Hpid|]].
  2: { intros q w Hin. destruct (history_pid s i c q w Hs Hc Hin) as [-> _]. exact Hpid. }
  destruct (parsed_locals s i c Hs Hc Hp) as (fl' & Hf' & _ & ->).
  destruct (buf_read_layout c fl Hf) as [rest ->].
  unfold INT_MAX in Hrange.
  assert (Hfmt : fmt_d p = utoa p).
  { unfold fmt_d. by rewrite (proj2 (Z.ltb_ge p 0)) by lia. }
  rewrite Hfmt in Hbyte. rewrite Hcont, Hfmt.
  pose proof (length_utoa p) as Hlen. pose proof (utoa_digits p) as Hdig.
  rewrite take_ge by (unfold READ_MAX; lia).
  pose proof (length_augmented (cmd c) (id c)) as Haug.
  rewrite drop_app_le by lia.
  destruct (lookup_lt_is_Some_2 (augmented (cmd c) (id c)) (length (utoa p)))
    as [x Hx]; [lia|].
  rewrite (drop_S _ _ _ Hx).
  assert (Hnd : is_digit x = false).
  { pose proof (augmented_byte (cmd c) (id c) (length (utoa p)) ltac:(lia) Hbyte) as Hb.
    by rewrite nth_lookup, Hx in Hb. }
  assert (Hval : digits_value 0 (utoa p ++ (x :: drop (S (length (utoa p)))
                   (augmented (cmd c) (id c))) ++ NUL :: rest) = p).
  { rewrite digits_value_stop; [apply digits_value_utoa; lia|done|].
    cbn [app map head]. rewrite Hnd. congruence. }
  destruct (utoa p) as [|b r] eqn:Hu; [simpl in Hlen; lia|].
  apply Forall_cons in Hdig as [Hb Hr].
  cbn [app] in *. rewrite atoi_in_range; [exact Hval|exact Hb|].
  rewrite Hval. unfold INT_MAX. lia.
Qed.

(** X9. When the pidfile is not longer than the augmented command (at most
    strlen(cmd) + 31 bytes), the pid that is parsed is a function of the
    file and of the augmented command alone: atoi stops at the command's
    terminator at the latest and reads none of the stack bytes that alloca
    left behind it. *)
Theorem parsed_pid_ignores_stack (s : State) (i : nat) (c : Call) (fl : File) :
  reachable s -> calls s !! i = Some c -> parsed (pc c) = true ->
  f c = Some fl -> length (content fl) <= strlen (cmd c) + 31 ->
  let data := take READ_MAX (content fl) in
  let aug := c_str (cmd c) ++ cs " & echo -n $! > " ++ cs "_yafu_system_."
             ++ fmt_d (id c) in
  pid c = atoi (data ++ drop (length data) aug).
Proof.
  intros Hs Hc Hp Hf Hlen data aug.
  destruct (parsed_locals s i c Hs Hc Hp) as (fl' & Hf' & _ & ->).
  destruct (buf_read_layout c fl Hf) as [rest ->]. fold data.
  change aug with (augmented (cmd c) (id c)).
  pose proof (length_augmented (cmd c) (id c)) as Haug.
  assert (Hd : length data <= length (content fl)) by (subst data; rewrite length_take; lia).
  rewrite drop_app_le by lia.
  by rewrite app_assoc, atoi_app_nul.
Qed.

Lemma pid_round_trip_witness :
  reachable demo_state /\ calls demo_state !! 0 = Some demo_call
  /\ pid demo_call = 1234%Z.
Proof.
  assert (Hr : reachable demo_state)
    by (by_run (one_call (cs "true") demo_answer 24)).
  assert (Hc : calls demo_state !! 0 = Some demo_call) by (vm_compute; reflexivity).
  split; [exact Hr|]. split; [exact Hc|].
  apply (pid_round_trip demo_state 0 demo_call
           {| writer := Some 0; content := cs "1234" |} 1234 Hr Hc).
  - vm_compute. reflexivity.
  - vm_compute. reflexivity.
  - vm_compute. reflexivity.
  - unfold INT_MAX. lia.
  - vm_compute. reflexivity.
Defined.

Lemma parsed_pid_ignores_stack_witness :
  reachable demo_state /\ calls demo_state !! 0 = Some demo_call
  /\ pid demo_call
     = atoi (cs "1234" ++ drop 4 (cs "true & echo -n $! > _yafu_system_.0")).
Proof.
  assert (Hr : reachable demo_state)
    by (by_run (one_call (cs "true") demo_answer 24)).
  assert (Hc : calls demo_state !! 0 = Some demo_call) by (vm_compute; reflexivity).
  split; [exact Hr|]. split; [exact Hc|].
  pose proof (parsed_pid_ignores_stack demo_state 0 demo_call
                {| writer := Some 0; content := cs "1234" |} Hr Hc) as H.
  cbv zeta in H. rewrite H.
  - vm_compute. reflexivity.
  - vm_compute. reflexivity.
  - vm_compute. reflexivity.
  - vm_compute. lia.
Defined.

(** ** The election comes to an end *)

(** While the flag reads 1, the call that set it is between lines 55 and
    56. *)
Lemma elected_exists (s : State) :
  reachable s -> initializing (glob s) = 1%Z ->
  exists j cj, calls s !! j = Some cj /\ electing (pc cj) = true.
Proof.
  intros Hs. induction Hs as [dir|s act s' Hs IH Hex] using reachable_ind; [done|].
  destruct (reachable_init_inv s Hs) as (_ & Hinit & _).
  apply exec_inv in Hex as [(cmd & j1 & j2 & -> & ->)|
      (i & a & c & g' & c' & evs & -> & Hc & Hstep & ->)].
  - intros H1. destruct (IH H1) as (j & cj & Hj & He).
    exists j, cj. split; [|done]. simpl. by apply lookup_app_l_Some.
  - unfold stepped. cbn [glob calls]. intros H1.
    pose proof (lookup_lt_Some _ _ _ Hc) as Hlt.
    destruct (Hinit i c Hc) as (_ & Hel & Hpast).
    assert (Hcase : (initializing g' = initializing (glob s) /\ electing (pc c) = false)
                    \/ electing (pc c') = true
                    \/ initializing g' <> 1%Z).
    { unfold step_call in Hstep.
      destruct (pc c) eqn:Hpc; split_step Hstep; glob_simpl; proj_simpl;
        try (by left); try (by right; left).
      right. right. destruct (Hel eq_refl) as (_ & _ & Htmp).
      rewrite (Htmp eq_refl). done. }
    destruct Hcase as [[Hsame Hne]|[He|Hne]]; [| |done].
    + rewrite Hsame in H1. destruct (IH H1) as (j & cj & Hj & He).
      exists j, cj. split; [|done]. rewrite list_lookup_insert_ne; [done|].
      intros ->. rewrite Hc in Hj. injection Hj as <-. congruence.
    + exists i, c'. split; [|done]. by apply list_lookup_insert_eq.
Qed.

(** X10. The election comes to an end: while the flag reads 1 (so that the
    other calls sleep and poll), exactly the call that won the
    compare-and-exchange is between lines 55 and 56; nothing blocks it, and
    at most three of its own actions, taken in a row, leave the critical
    section initialised and free and the flag at 2. *)
Theorem election_completes (s : State) :
  reachable s -> initializing (glob s) = 1%Z ->
  exists j cj,
    calls s !! j = Some cj /\ electing (pc cj) = true
    /\ (forall i ci, calls s !! i = Some ci -> electing (pc ci) = true -> i = j)
    /\ forall a, exists s',
         run (repeat (Run j a) (election_steps (pc cj))) s = Some s'
         /\ initializing (glob s') = 2%Z /\ systemcrit (glob s') = CsFree.
Proof.
  intros Hs H1. destruct (elected_exists s Hs H1) as (j & cj & Hj & He).
  exists j, cj. split; [exact Hj|]. split; [exact He|]. split.
  { intros i ci Hi Hei.
    pose proof (electing_won s i ci Hs Hi Hei) as Hwi.
    pose proof (electing_won s j cj Hs Hj He) as Hwj.
    destruct (reachable_init_inv s Hs) as (_ & _ & _ & Hcas).
    rewrite decide_False in Hcas by lia.
    assert (Heq : (i, EvCas 0) = (j, EvCas 0))
      by (apply (occurrences_unique is_cas_won (trace s)); [lia|done..]).
    by injection Heq. }
  intros a.
  destruct (reachable_init_inv s Hs) as (_ & Hinit & _).
  destruct (Hinit j cj Hj) as (_ & Hel & _).
  destruct (Hel He) as (_ & Hraw & Htmp).
  destruct (reachable_lock_inv s Hs) as [Hl Hown].
  pose proof (lookup_lt_Some _ _ _ Hj) as Hlt.
  assert (Hfree : pc cj <> PInitCS -> systemcrit (glob s) = CsFree).
  { intros Hne. destruct (systemcrit (glob s)) as [| |o] eqn:Hcs; [|done|].
    - by destruct (proj2 Hraw eq_refl).
    - exfalso. destruct (lookup_lt_is_Some_2 (calls s) o (Hown o eq_refl)) as [co Hco].
      pose proof (proj2 (Hl o co Hco) eq_refl) as Hho.
      destruct (Hinit o co Hco) as (_ & _ & Hpast).
      rewrite (Hpast (holding_past_init _ Hho)) in H1. done. }
  destruct (pc cj) eqn:Hpc; try discriminate He; cbn [election_steps repeat run].
  - erewrite exec_at; [|exact Hj|unfold step_call; rewrite Hpc; reflexivity].
    erewrite exec_at;
      [|unfold stepped; cbn [calls]; by apply list_lookup_insert_eq
       |unfold step_call; proj_simpl; reflexivity].
    erewrite exec_at;
      [|unfold stepped; cbn [calls]; apply list_lookup_insert_eq;
        by rewrite length_insert
       |unfold step_call; proj_simpl; reflexivity].
    eexists. split; [reflexivity|].
    unfold stepped; cbn [glob]; glob_simpl. by rewrite H1.
  - erewrite exec_at; [|exact Hj|unfold step_call; rewrite Hpc; reflexivity].
    erewrite exec_at;
      [|unfold stepped; cbn [calls]; by apply list_lookup_insert_eq
       |unfold step_call; proj_simpl; reflexivity].
    eexists. split; [reflexivity|].
    unfold stepped; cbn [glob]; glob_simpl. rewrite H1. split; [done|].
    by apply Hfree.
  - erewrite exec_at; [|exact Hj|unfold step_call; rewrite Hpc; reflexivity].
    eexists. split; [reflexivity|].
    unfold stepped; cbn [glob]; glob_simpl. rewrite (Htmp eq_refl). split; [done|].
    by apply Hfree.
Qed.

Lemma election_completes_witness :
  reachable election_state /\ initializing (glob election_state) = 1%Z
  /\ exists s', run (repeat (Run 0 demo_answer) 3) election_state = Some s'
                /\ initializing (glob s') = 2%Z.
Proof.
  assert (Hr : reachable election_state) by (by_run election_actions).
  assert (H1 : initializing (glob election_state) = 1%Z) by (vm_compute; reflexivity).
  split; [exact Hr|]. split; [exact H1|].
  destruct (election_completes election_state Hr H1) as (j & cj & Hj & He & Huniq & Hrun).
  pose (c0 := default (enter_call [] [] []) (calls election_state !! 0)).
  assert (Hc0 : calls election_state !! 0 = Some c0) by (vm_compute; reflexivity).
  assert (He0 : electing (pc c0) = true) by (vm_compute; reflexivity).
  pose proof (Huniq 0 c0 Hc0 He0) as Hj0. subst j.
  assert (Hcj : cj = c0) by congruence. subst cj.
  destruct (Hrun demo_answer) as (s' & Hs' & H2 & _).
  exists s'. split; [|exact H2].
  assert (Hk : election_steps (pc c0) = 3) by (vm_compute; reflexivity).
  rewrite Hk in Hs'. exact Hs'.
Defined.
